(** * xmtp-mafia: the session model, the game engine and the round orchestrator

    A shallow embedding of [GameManager] (gameManager.ts), of the functions
    of game/gameFlow.ts, of the branches of handlers/intentHandler.ts, of
    the task and kill handlers and the join-window callback of
    handlers/commandHandlers.ts and of the action ids of
    utils/voteButtons.ts and utils/killButtons.ts, followed by the
    properties of the specification that concern them and by further
    properties of the code.

    Conventions of the embedding.
    - A JavaScript [number] that holds a count, a round or a timestamp is a
      [Z]; the two draws of [Math.random()] are rationals.
    - [null]/[undefined] is [None]; the truthiness tests of the source
      ([x && ...], [x || y], [if (x)]) are written out ([Js.truthyStr],
      [Js.truthyNum], [Js.orEmpty]).
    - [game.players] is a [Map] keyed by inbox id whose only insertion is
      [players.set(inboxId, player)] with [player.inboxId = inboxId]: it is
      the insertion-ordered list of its values, the key of an entry being its
      [inboxId] field. The [Map]'s uniqueness of keys is [NoDup] of the ids
      ([rosterUnique]), which every operation keeps ([run_invariant]).
    - A [Player] object is mutated in place by the source; here the roster
      entry with that id is rewritten ([updatePlayer]).
    - Calls to the messaging transport are taken to return; what they
      answered, where the session depends on it, is an input of the operation
      that makes them, and the messages sent are collected in an outbox. *)

From Stdlib Require Import ZArith QArith Qround List String Ascii Lia.
From stdpp Require Import gmap strings list.
Import ListNotations.
Local Open Scope Z_scope.
Local Open Scope string_scope.
Local Open Scope list_scope.

(** ** JavaScript primitives used by the source *)

Module Js.

(** [Boolean(x)] for a nullable string: [null] and the empty string are falsy. *)
Definition truthyStr (o : option string) : bool :=
  match o with
  | Some s => negb (s =? "")
  | None => false
  end.

(** [Boolean(x)] for a nullable number: [null] and [0] are falsy. *)
Definition truthyNum (o : option Z) : bool :=
  match o with
  | Some n => negb (n =? 0)%Z
  | None => false
  end.

(** [x || ""] for a nullable string. *)
Definition orEmpty (o : option string) : string :=
  match o with
  | Some s => s
  | None => ""
  end.

(** A string of the source is embedded as the string of its bytes. The
    strings of ASCII characters are those whose bytes are all below 128; on
    them [toLowerCase] and [trim] below are JavaScript's. JavaScript's
    [toLowerCase] lowers every cased letter of Unicode and its [trim] strips
    every white space and line terminator of Unicode; the definitions below
    lower the letters A-Z and strip the characters 9-13 and 32, which are the
    cased letters and the white space among the ASCII characters. Where a
    property depends on what a name resolves to or on what an answer is
    trimmed to, it is stated for strings of ASCII characters. *)
Definition isAsciiChar (c : ascii) : bool := (nat_of_ascii c <? 128)%nat.

Fixpoint isAscii (s : string) : bool :=
  match s with
  | EmptyString => true
  | String c s' => isAsciiChar c && isAscii s'
  end.

Definition lowerAscii (c : ascii) : ascii :=
  let n := nat_of_ascii c in
  if ((65 <=? n) && (n <=? 90))%nat then ascii_of_nat (n + 32) else c.

(** [s.toLowerCase()], on the strings of ASCII characters. *)
Fixpoint toLowerCase (s : string) : string :=
  match s with
  | EmptyString => EmptyString
  | String c s' => String (lowerAscii c) (toLowerCase s')
  end.

Definition isSpace (c : ascii) : bool :=
  let n := nat_of_ascii c in
  ((n =? 32) || ((9 <=? n) && (n <=? 13)))%nat.

Fixpoint trimStart (s : string) : string :=
  match s with
  | EmptyString => EmptyString
  | String c s' => if isSpace c then trimStart s' else s
  end.

Fixpoint trimEnd (s : string) : string :=
  match s with
  | EmptyString => EmptyString
  | String c s' =>
      match trimEnd s' with
      | EmptyString => if isSpace c then EmptyString else String c EmptyString
      | t => String c t
      end
  end.

(** [s.trim()], on the strings of ASCII characters. *)
Definition trim (s : string) : string := trimEnd (trimStart s).

Definition isHex (c : ascii) : bool :=
  let n := nat_of_ascii c in
  (((48 <=? n) && (n <=? 57)) || ((65 <=? n) && (n <=? 70))
   || ((97 <=? n) && (n <=? 102)))%nat.

Fixpoint allHex (s : string) : bool :=
  match s with
  | EmptyString => true
  | String c s' => isHex c && allHex s'
  end.

(** [/^0x[a-fA-F0-9]{40}$/.test(s)] *)
Definition isAddress (s : string) : bool :=
  match s with
  | String "0" (String "x" rest) => (String.length rest =? 40)%nat && allHex rest
  | _ => false
  end.

(** [s.startsWith(p)] *)
Definition startsWith (p s : string) : bool := String.prefix p s.

(** [s.replace(p, "")] when [s] starts with [p]: the first occurrence of [p]
    is that prefix. *)
Fixpoint dropPrefix (p s : string) : string :=
  match p, s with
  | String _ p', String _ s' => dropPrefix p' s'
  | _, _ => s
  end.

(** [Math.ceil(n / 2)] *)
Definition ceilHalf (n : Z) : Z := Qceiling (inject_Z n / 2).

(** [Math.floor(r * n)], as the floor of the exact product. The source
    multiplies in double precision, so its product is the exact one rounded
    to 53 significant bits, and its floor can be one above this one when the
    exact product lies just below an integer. The two floors agree when the
    product is exact in double precision ([exactProduct]). *)
Definition floorMul (r : Q) (n : Z) : Z := Qfloor (r * inject_Z n).

(** The double [k * 2^-m]. *)
Definition dyadic (k m : Z) : Q := inject_Z k / inject_Z (2 ^ m).

(** [r] is the double [k * 2^-m], and [k * n] has at most 53 bits as [k]
    has: the product [r * n] is the double [(k * n) * 2^-m], without
    rounding. *)
Definition exactProduct (r : Q) (n k m : Z) : Prop :=
  0 <= k < 2 ^ 53 /\ 0 <= m <= 1074 /\ 0 <= k * n < 2 ^ 53 /\ (r == dyadic k m)%Q.

End Js.

(** ** Session model (types.ts, as the source uses it) *)

Inductive GameState : Set :=
  | IDLE | LOBBY_CREATED | WAITING_FOR_PLAYERS | ASSIGN_ROLES
  | ROUND_1_TASKS | ROUND_1_KILL | ROUND_1_DISCUSSION | ROUND_1_VOTING
  | ROUND_2_TASKS | ROUND_2_KILL | ROUND_2_DISCUSSION | ROUND_2_VOTING
  | ROUND_3_TASKS | ROUND_3_KILL | ROUND_3_DISCUSSION | ROUND_3_VOTING
  | GAME_END.

#[global] Instance GameState_eq_dec : EqDecision GameState.
Proof. solve_decision. Defined.

Inductive Role : Set := IMPOSTOR | CREW.

#[global] Instance Role_eq_dec : EqDecision Role.
Proof. solve_decision. Defined.

Record Player := mkPlayer {
  inboxId : string;
  username : string;
  role : option Role;
  isAlive : bool;
  completedTasks : Z;
  killAttempts : Z;
  lastKillAttempt : option Z;
  voted : bool;
  voteTarget : option string
}.

Record Task := mkTask {
  question : string;
  completed : bool
}.

Record VoteResult := mkVoteResult {
  target : string;
  votes : Z
}.

Record Game := mkGame {
  state : GameState;
  lobbyGroupId : option string;
  originalGroupId : option string;
  players : list Player;
  round : Z;
  startTime : option Z;
  joinDeadline : option Z;
  currentPhaseDeadline : option Z;
  impostorInboxId : option string;
  eliminatedPlayers : gset string;
  killCooldown : Z;
  killSuccessChance : Q;
  maxKillAttempts : Z;
  taskAssignments : gmap string Task
}.

(** Modelled from the spec: config/gameConfig.ts is not among the sources; the
    specification fixes two of its constants, [MAX_PLAYERS = 6] and
    [MAX_ROUNDS = 3]. *)
Definition MAX_PLAYERS : Z := 6.
Definition MAX_ROUNDS : Z := 3.

(** The constants of config/gameConfig.ts whose values the specification
    leaves open: every operation that reads one takes the configuration. *)
Record Config := mkConfig {
  MIN_PLAYERS_TO_START : Z;
  KILL_COOLDOWN_MS : Z;
  KILL_SUCCESS_CHANCE : Q;
  MAX_KILL_ATTEMPTS : Z;
  JOIN_WINDOW_DURATION_MS : Z
}.

Inductive Error : Set :=
  | GameAlreadyInProgress    (* "Game already in progress" *)
  | CannotAssignRoles        (* "Cannot assign roles at this time" *)
  | InvalidRoundNumber       (* "Invalid round number. ..." *)
  | TypeErrorUndefined.      (* a property of [undefined] was written *)

(** *** Field updates of the mutable records *)

Definition setRole (r : option Role) (p : Player) : Player :=
  mkPlayer (inboxId p) (username p) r (isAlive p) (completedTasks p)
           (killAttempts p) (lastKillAttempt p) (voted p) (voteTarget p).

Definition setIsAlive (b : bool) (p : Player) : Player :=
  mkPlayer (inboxId p) (username p) (role p) b (completedTasks p)
           (killAttempts p) (lastKillAttempt p) (voted p) (voteTarget p).

Definition setCompletedTasks (n : Z) (p : Player) : Player :=
  mkPlayer (inboxId p) (username p) (role p) (isAlive p) n
           (killAttempts p) (lastKillAttempt p) (voted p) (voteTarget p).

Definition setKill (n : Z) (t : option Z) (p : Player) : Player :=
  mkPlayer (inboxId p) (username p) (role p) (isAlive p) (completedTasks p)
           n t (voted p) (voteTarget p).

Definition setVote (b : bool) (t : option string) (p : Player) : Player :=
  mkPlayer (inboxId p) (username p) (role p) (isAlive p) (completedTasks p)
           (killAttempts p) (lastKillAttempt p) b t.

Definition withState (s : GameState) (g : Game) : Game :=
  mkGame s (lobbyGroupId g) (originalGroupId g) (players g) (round g)
         (startTime g) (joinDeadline g) (currentPhaseDeadline g)
         (impostorInboxId g) (eliminatedPlayers g) (killCooldown g)
         (killSuccessChance g) (maxKillAttempts g) (taskAssignments g).

Definition withPlayers (ps : list Player) (g : Game) : Game :=
  mkGame (state g) (lobbyGroupId g) (originalGroupId g) ps (round g)
         (startTime g) (joinDeadline g) (currentPhaseDeadline g)
         (impostorInboxId g) (eliminatedPlayers g) (killCooldown g)
         (killSuccessChance g) (maxKillAttempts g) (taskAssignments g).

Definition withRound (r : Z) (g : Game) : Game :=
  mkGame (state g) (lobbyGroupId g) (originalGroupId g) (players g) r
         (startTime g) (joinDeadline g) (currentPhaseDeadline g)
         (impostorInboxId g) (eliminatedPlayers g) (killCooldown g)
         (killSuccessChance g) (maxKillAttempts g) (taskAssignments g).

Definition withImpostor (i : option string) (g : Game) : Game :=
  mkGame (state g) (lobbyGroupId g) (originalGroupId g) (players g) (round g)
         (startTime g) (joinDeadline g) (currentPhaseDeadline g)
         i (eliminatedPlayers g) (killCooldown g)
         (killSuccessChance g) (maxKillAttempts g) (taskAssignments g).

Definition withEliminated (e : gset string) (g : Game) : Game :=
  mkGame (state g) (lobbyGroupId g) (originalGroupId g) (players g) (round g)
         (startTime g) (joinDeadline g) (currentPhaseDeadline g)
         (impostorInboxId g) e (killCooldown g)
         (killSuccessChance g) (maxKillAttempts g) (taskAssignments g).

Definition withTasks (t : gmap string Task) (g : Game) : Game :=
  mkGame (state g) (lobbyGroupId g) (originalGroupId g) (players g) (round g)
         (startTime g) (joinDeadline g) (currentPhaseDeadline g)
         (impostorInboxId g) (eliminatedPlayers g) (killCooldown g)
         (killSuccessChance g) (maxKillAttempts g) t.

(** *** The roster as a [Map] *)

(** [players.get(id)] *)
Definition lookupPlayer (id : string) (ps : list Player) : option Player :=
  List.find (fun p => inboxId p =? id) ps.

(** [players.has(id)] *)
Definition hasPlayer (id : string) (ps : list Player) : bool :=
  List.existsb (fun p => inboxId p =? id) ps.

(** [players.delete(id)] *)
Definition deletePlayer (id : string) (ps : list Player) : list Player :=
  List.filter (fun p => negb (inboxId p =? id)) ps.

(** An in-place mutation [f] of the [Player] object stored under [id], the
    one [players.get(id)] returns. *)
Fixpoint updatePlayer (id : string) (f : Player -> Player) (ps : list Player)
  : list Player :=
  match ps with
  | [] => []
  | p :: rest =>
      if inboxId p =? id then f p :: rest else p :: updatePlayer id f rest
  end.

Definition ids (ps : list Player) : list string := List.map inboxId ps.

(** The [Map] has one entry per key. *)
Definition rosterUnique (g : Game) : Prop := NoDup (ids (players g)).

(** ** The game engine: [GameManager] (gameManager.ts) *)

(** The [Game] literal of the constructor and of [cleanup]. *)
Definition initialGame (cfg : Config) : Game :=
  {| state := IDLE;
     lobbyGroupId := None;
     originalGroupId := None;
     players := [];
     round := 0;
     startTime := None;
     joinDeadline := None;
     currentPhaseDeadline := None;
     impostorInboxId := None;
     eliminatedPlayers := ∅;
     killCooldown := KILL_COOLDOWN_MS cfg;
     killSuccessChance := KILL_SUCCESS_CHANCE cfg;
     maxKillAttempts := MAX_KILL_ATTEMPTS cfg;
     taskAssignments := ∅ |}.

Definition getState (g : Game) : GameState := state g.

Definition getPlayer (g : Game) (id : string) : option Player :=
  lookupPlayer id (players g).

Definition getAlivePlayers (g : Game) : list Player :=
  List.filter isAlive (players g).

(** [createLobby]: [groupId] is the id of the group the transport created;
    [now] and [now'] are the two later readings of the clock. *)
Definition createLobby (cfg : Config) (now now' : Z) (groupId : string)
    (originalGroup : string) (g : Game) : Error + Game :=
  if decide (state g = IDLE) then
    inr (mkGame LOBBY_CREATED (Some groupId) (Some originalGroup) (players g)
           (round g) (Some now) (Some (now' + JOIN_WINDOW_DURATION_MS cfg))
           (currentPhaseDeadline g) (impostorInboxId g) (eliminatedPlayers g)
           (killCooldown g) (killSuccessChance g) (maxKillAttempts g)
           (taskAssignments g))
  else inl GameAlreadyInProgress.

(** *** addPlayer *)

Record JoinResult := mkJoinResult {
  success : bool;
  removedPlayer : option Player
}.

Definition notJoined : JoinResult := mkJoinResult false None.

(** [entry[0].toLowerCase() === agentInboxId.toLowerCase()] *)
Definition isAgent (agentInboxId id : string) : bool :=
  Js.toLowerCase id =? Js.toLowerCase agentInboxId.

(** The downward loop of lines 119-126: the last entry whose key is not the
    agent's. *)
Definition lastNonAgent (agentInboxId : string) (ps : list Player)
  : option Player :=
  List.find (fun p => negb (isAgent agentInboxId (inboxId p))) (rev ps).

Definition newPlayer (id name : string) : Player :=
  {| inboxId := id; username := name; role := None; isAlive := true;
     completedTasks := 0; killAttempts := 0; lastKillAttempt := None;
     voted := false; voteTarget := None |}.

(** [this.game.joinDeadline && now > this.game.joinDeadline] *)
Definition deadlinePassed (now : Z) (g : Game) : bool :=
  match joinDeadline g with
  | Some d => negb (d =? 0)%Z && (d <? now)%Z
  | None => false
  end.

Definition rosterSize (g : Game) : Z := Z.of_nat (length (players g)).

(** [addPlayer]. [agentInboxId] is [this.agent.client.inboxId]; [now] is
    [Date.now()]. The removal from and the addition to the lobby group are
    calls to the transport and leave no trace on the session. *)
Definition addPlayer (agentInboxId : string) (now : Z)
    (id name : string) (g : Game) : Game * JoinResult :=
  if negb (bool_decide (state g = LOBBY_CREATED))
     && negb (bool_decide (state g = WAITING_FOR_PLAYERS))
  then (g, notJoined)
  else if hasPlayer id (players g) then (g, notJoined)
  else if deadlinePassed now g then (g, notJoined)
  else
    let lastEntry :=
      if (MAX_PLAYERS <=? rosterSize g)%Z
      then lastNonAgent agentInboxId (players g) else None in
    let ps :=
      match lastEntry with
      | Some lastPlayer => deletePlayer (inboxId lastPlayer) (players g)
      | None => players g
      end in
    (withState WAITING_FOR_PLAYERS (withPlayers (ps ++ [newPlayer id name]) g),
     mkJoinResult true lastEntry).

(** *** canStartGame, assignRoles *)

Definition canStartGame (cfg : Config) (now : Z) (g : Game) : bool :=
  let isFull := (6 <=? rosterSize g)%Z in
  bool_decide (state g = WAITING_FOR_PLAYERS)
  && (deadlinePassed now g || isFull)
  && (MIN_PLAYERS_TO_START cfg <=? rosterSize g)%Z.

(** [playerArray[i]] for a number [i]. *)
Definition arrayAt {A : Type} (l : list A) (i : Z) : option A :=
  if (i <? 0)%Z then None else nth_error l (Z.to_nat i).

(** [assignRoles]. [rand] is the value of [Math.random()]. The role messages
    of [sendRoleDMs] are sent inside try/catch and do not touch the session. *)
Definition assignRoles (cfg : Config) (now : Z) (rand : Q) (g : Game)
  : Error + Game :=
  if negb (bool_decide (state g = WAITING_FOR_PLAYERS))
     || negb (canStartGame cfg now g)
  then inl CannotAssignRoles
  else
    let playerArray := players g in
    let impostorIndex := Js.floorMul rand (Z.of_nat (length playerArray)) in
    match arrayAt playerArray impostorIndex with
    | None => inl TypeErrorUndefined
    | Some impostor =>
        let ps1 := alter (setRole (Some IMPOSTOR)) (Z.to_nat impostorIndex)
                         playerArray in
        let ps2 :=
          List.map (fun player =>
                      if negb (inboxId player =? inboxId impostor)
                      then setRole (Some CREW) player else player) ps1 in
        inr (withState ASSIGN_ROLES
               (withImpostor (Some (inboxId impostor)) (withPlayers ps2 g)))
    end.

(** *** startRound *)

Inductive Phase : Set := TASKS | KILL | DISCUSSION | VOTING.

Definition getStateForRoundPhase (r : Z) (phase : Phase) : GameState :=
  if (r =? 1)%Z then
    match phase with
    | TASKS => ROUND_1_TASKS | KILL => ROUND_1_KILL
    | DISCUSSION => ROUND_1_DISCUSSION | VOTING => ROUND_1_VOTING
    end
  else if (r =? 2)%Z then
    match phase with
    | TASKS => ROUND_2_TASKS | KILL => ROUND_2_KILL
    | DISCUSSION => ROUND_2_DISCUSSION | VOTING => ROUND_2_VOTING
    end
  else if (r =? 3)%Z then
    match phase with
    | TASKS => ROUND_3_TASKS | KILL => ROUND_3_KILL
    | DISCUSSION => ROUND_3_DISCUSSION | VOTING => ROUND_3_VOTING
    end
  else IDLE.

(** The per-round reset of lines 259-262. *)
Definition resetRound (p : Player) : Player :=
  setVote false None (setKill 0 None p).

(** [startRound]. tasks.ts is not among the sources: [gen id] stands for the
    task that [generateTask()] returned in the iteration for player [id]. *)
Definition startRound (gen : string -> Task) (r : Z) (g : Game)
  : Error + Game :=
  if (r <? 1)%Z || (MAX_ROUNDS <? r)%Z then inl InvalidRoundNumber
  else
    let ps := List.map (fun p => if isAlive p then resetRound p else p)
                       (players g) in
    let tasks :=
      List.fold_left
        (fun m p => if isAlive p then <[inboxId p := gen (inboxId p)]> m else m)
        (players g) (taskAssignments g) in
    inr (withTasks tasks
           (withPlayers ps
              (withState (getStateForRoundPhase r TASKS) (withRound r g)))).

(** *** completeTask *)

Definition isTaskPhase (s : GameState) : bool :=
  bool_decide (s = ROUND_1_TASKS) || bool_decide (s = ROUND_2_TASKS)
  || bool_decide (s = ROUND_3_TASKS).

Definition isKillPhase (s : GameState) : bool :=
  bool_decide (s = ROUND_1_KILL) || bool_decide (s = ROUND_2_KILL)
  || bool_decide (s = ROUND_3_KILL).

Definition isVotingPhase (s : GameState) : bool :=
  bool_decide (s = ROUND_1_VOTING) || bool_decide (s = ROUND_2_VOTING)
  || bool_decide (s = ROUND_3_VOTING).

(** [completeTask]; [validateTaskAnswer] (tasks.ts) is an argument. *)
Definition completeTask (validateTaskAnswer : Task -> string -> bool)
    (id answer : string) (g : Game) : Game * bool :=
  match getPlayer g id with
  | None => (g, false)
  | Some player =>
      if negb (isAlive player) then (g, false)
      else if bool_decide (role player = Some IMPOSTOR) then (g, false)
      else if negb (isTaskPhase (state g)) then (g, false)
      else
        match taskAssignments g !! id with
        | None => (g, false)
        | Some task =>
            if completed task then (g, false)
            else if validateTaskAnswer task (Js.trim answer) then
              (withTasks (<[id := mkTask (question task) true]> (taskAssignments g))
                 (withPlayers
                    (updatePlayer id
                       (fun p => setCompletedTasks (completedTasks p + 1) p)
                       (players g)) g), true)
            else (g, false)
        end
  end.

(** *** attemptKill *)

Inductive KillMessage : Set :=
  | OnlyMafia                          (* "Only the mafia can attempt kills." *)
  | NotKillPhase                       (* "It's not the kill phase yet." *)
  | TargetNotFound (identifier : string)
  | CannotKillSelf                     (* "You cannot kill yourself." *)
  | OnCooldown (remainingSeconds : Z)
  | MaxAttemptsReached
  | KillSucceeded (victim : string)
  | KillFailed (attemptsLeft : Z).

Record KillResult := mkKillResult {
  killed : bool;          (* the [success] field of the result *)
  message : KillMessage
}.

(** A member of the lobby group as the transport lists it: its inbox id and
    [accountIdentifiers?.[0]?.identifier]. *)
Record Member := mkMember {
  memberInboxId : string;
  memberIdentifier : option string
}.

(** Lines 363-391: resolution of an address-shaped identifier. [members] is
    what [group.members()] returned, [None] when there is no such group or a
    call threw (the block is inside try/catch). *)
Definition findByAddress (members : option (list Member))
    (targetIdentifier : string) (g : Game) : option Player :=
  if Js.isAddress (Js.trim targetIdentifier) then
    if Js.truthyStr (lobbyGroupId g) then
      match members with
      | Some ms =>
          match List.find
                  (fun m => match memberIdentifier m with
                            | Some a => Js.toLowerCase a
                                        =? Js.toLowerCase (Js.trim targetIdentifier)
                            | None => false
                            end) ms with
          | Some targetMember =>
              List.find
                (fun p => (Js.toLowerCase (inboxId p)
                           =? Js.toLowerCase (memberInboxId targetMember))
                          && isAlive p) (players g)
          | None => None
          end
      | None => None
      end
    else None
  else None.

(** Lines 393-398: the fallback by user name. *)
Definition findTarget (members : option (list Member))
    (targetIdentifier : string) (g : Game) : option Player :=
  match findByAddress members targetIdentifier g with
  | Some t => Some t
  | None =>
      List.find
        (fun p => (Js.toLowerCase (username p) =? Js.toLowerCase targetIdentifier)
                  && isAlive p) (players g)
  end.

(** [impostor.lastKillAttempt && now - impostor.lastKillAttempt < killCooldown] *)
Definition onCooldown (now : Z) (impostor : Player) (g : Game) : bool :=
  match lastKillAttempt impostor with
  | Some last => negb (last =? 0)%Z && (now - last <? killCooldown g)%Z
  | None => false
  end.

(** [Math.ceil((killCooldown - (now - last)) / 1000)] *)
Definition remainingCooldown (now : Z) (impostor : Player) (g : Game) : Z :=
  match lastKillAttempt impostor with
  | Some last => Qceiling (inject_Z (killCooldown g - (now - last)) / 1000)
  | None => 0
  end.

(** [attemptKill]. [now] is [Date.now()], [rand] the value of
    [Math.random()]. *)
Definition attemptKill (members : option (list Member)) (now : Z) (rand : Q)
    (impostorId targetIdentifier : string) (g : Game) : Game * KillResult :=
  match getPlayer g impostorId with
  | None => (g, mkKillResult false OnlyMafia)
  | Some impostor =>
      if negb (isAlive impostor)
         || negb (bool_decide (role impostor = Some IMPOSTOR))
      then (g, mkKillResult false OnlyMafia)
      else if negb (isKillPhase (state g))
      then (g, mkKillResult false NotKillPhase)
      else
        match findTarget members targetIdentifier g with
        | None => (g, mkKillResult false (TargetNotFound targetIdentifier))
        | Some tgt =>
            if inboxId tgt =? impostorId
            then (g, mkKillResult false CannotKillSelf)
            else if onCooldown now impostor g
            then (g, mkKillResult false
                       (OnCooldown (remainingCooldown now impostor g)))
            else if (maxKillAttempts g <=? killAttempts impostor)%Z
            then (g, mkKillResult false MaxAttemptsReached)
            else
              let attempts := killAttempts impostor + 1 in
              let ps1 := updatePlayer impostorId
                           (setKill attempts (Some now)) (players g) in
              if negb (Qle_bool (killSuccessChance g) rand) then
                (withEliminated ({[inboxId tgt]} ∪ eliminatedPlayers g)
                   (withPlayers
                      (updatePlayer (inboxId tgt) (setIsAlive false) ps1) g),
                 mkKillResult true (KillSucceeded (username tgt)))
              else
                (withPlayers ps1 g,
                 mkKillResult false (KillFailed (maxKillAttempts g - attempts)))
        end
  end.

(** *** castVote, getVoteResults, eliminatePlayer *)

Definition getPlayerByUsername (g : Game) (name : string) : option Player :=
  List.find (fun p => Js.toLowerCase (username p) =? Js.toLowerCase name)
            (players g).

Definition castVote (voterId targetUsername : string) (g : Game)
  : Game * bool :=
  match getPlayer g voterId with
  | None => (g, false)
  | Some voter =>
      if negb (isAlive voter) then (g, false)
      else if negb (isVotingPhase (state g)) then (g, false)
      else if voted voter then (g, false)
      else
        match getPlayerByUsername g targetUsername with
        | None => (g, false)
        | Some tgt =>
            (withPlayers
               (updatePlayer voterId (setVote true (Some (inboxId tgt)))
                  (players g)) g, true)
        end
  end.

(** [voteCounts.set(t, (voteCounts.get(t) || 0) + 1)] on an insertion-ordered
    [Map]. *)
Fixpoint bump (t : string) (counts : list (string * Z)) : list (string * Z) :=
  match counts with
  | [] => [(t, 1)]
  | (k, n) :: rest =>
      if k =? t then (k, n + 1) :: rest else (k, n) :: bump t rest
  end.

(** The loop of lines 495-500. *)
Definition voteCounts (ps : list Player) : list (string * Z) :=
  List.fold_left
    (fun counts player =>
       if isAlive player && voted player && Js.truthyStr (voteTarget player)
       then bump (Js.orEmpty (voteTarget player)) counts
       else counts)
    ps [].

(** [Array.prototype.sort] is stable: with the comparator
    [(a, b) => b.votes - a.votes] an element goes before the first one that
    has no more votes than it. *)
Fixpoint insertDesc (x : VoteResult) (l : list VoteResult) : list VoteResult :=
  match l with
  | [] => [x]
  | y :: l' => if (votes y <=? votes x)%Z then x :: y :: l'
               else y :: insertDesc x l'
  end.

Definition sortDesc (l : list VoteResult) : list VoteResult :=
  List.fold_right insertDesc [] l.

Definition getVoteResults (g : Game) : list VoteResult :=
  sortDesc (List.map (fun '(t, n) => mkVoteResult t n) (voteCounts (players g))).

Definition eliminatePlayer (id : string) (g : Game) : Game :=
  match getPlayer g id with
  | None => g
  | Some _ =>
      withEliminated ({[id]} ∪ eliminatedPlayers g)
        (withPlayers (updatePlayer id (setIsAlive false) (players g)) g)
  end.

(** *** checkWinCondition *)

(** The winner is one of the strings ["CREW"] and ["IMPOSTOR"], the values of
    [Role], or [null]. *)
Record WinCheck := mkWinCheck {
  gameEnded : bool;
  winner : option Role
}.

Definition checkWinCondition (g : Game) : WinCheck :=
  match getPlayer g (Js.orEmpty (impostorInboxId g)) with
  | None => mkWinCheck true (Some CREW)
  | Some impostor =>
      if negb (isAlive impostor) then mkWinCheck true (Some CREW)
      else if (round g =? MAX_ROUNDS)%Z then
        let isAfterRound3Voting :=
          bool_decide (state g = ROUND_3_VOTING)
          || bool_decide (state g = GAME_END) in
        if isAfterRound3Voting && isAlive impostor
        then mkWinCheck true (Some IMPOSTOR)
        else mkWinCheck false None
      else mkWinCheck false None
  end.

(** *** advancePhase, cleanup *)

Definition advancePhase (gen : string -> Task) (g : Game) : Error + Game :=
  match state g with
  | ROUND_1_TASKS => inr (withState ROUND_1_KILL g)
  | ROUND_2_TASKS => inr (withState ROUND_2_KILL g)
  | ROUND_3_TASKS => inr (withState ROUND_3_KILL g)
  | ROUND_1_KILL => inr (withState ROUND_1_DISCUSSION g)
  | ROUND_2_KILL => inr (withState ROUND_2_DISCUSSION g)
  | ROUND_3_KILL => inr (withState ROUND_3_DISCUSSION g)
  | ROUND_1_DISCUSSION => inr (withState ROUND_1_VOTING g)
  | ROUND_2_DISCUSSION => inr (withState ROUND_2_VOTING g)
  | ROUND_3_DISCUSSION => inr (withState ROUND_3_VOTING g)
  | ROUND_1_VOTING => startRound gen 2 g
  | ROUND_2_VOTING => startRound gen 3 g
  | ROUND_3_VOTING => inr (withState GAME_END g)
  | _ => inr g
  end.

Definition cleanup (cfg : Config) (g : Game) : Game := initialGame cfg.


(** ** Direct writes to the session outside [GameManager] *)

(** The kind of [ctx.conversation]: [isDM] is
    [ctx.conversation && !("addMembers" in ctx.conversation)]. *)
Inductive Conversation : Set := NoConversation | Dm | Group.

Definition isDM (c : Conversation) : bool :=
  match c with
  | Dm => true
  | _ => false
  end.

Inductive IntentKind : Set :=
  | JoinGame | CancelGame | KillButton | VoteButton | UnknownAction.

(** The if/else-if chain of [handleIntentMessage] over [actionId]. *)
Definition intentKind (actionId : string) : IntentKind :=
  if actionId =? "join-game" then JoinGame
  else if actionId =? "cancel-game" then CancelGame
  else if Js.startsWith "kill-" actionId then KillButton
  else if Js.startsWith "vote-" actionId then VoteButton
  else UnknownAction.

Inductive VoteReply : Set :=
  | VoteNotHere                  (* "Voting must be done in the game lobby group." *)
  | VoteTargetNotFound           (* "Target player not found." *)
  | VoteNotActive                (* "You are not part of an active game ..." *)
  | VoteNotVotingPhase           (* "It's not the voting phase." *)
  | VoteChanged (name : string)  (* "You changed your vote to ..." *)
  | VoteRecorded (name : string) (* "You voted to eliminate ..." *)
  | VoteNotAVoteAction.

(** The branch [actionId.startsWith("vote-")] of [handleIntentMessage]
    (intentHandler.ts, lines 190-231): it writes [voted] and [voteTarget] of
    the sender's [Player] object itself. *)
Definition voteButton (conv : Conversation) (senderInboxId actionId : string)
    (g : Game) : Game * VoteReply :=
  match intentKind actionId with
  | VoteButton =>
      if isDM conv then (g, VoteNotHere)
      else
        let targetInboxId := Js.dropPrefix "vote-" actionId in
        match getPlayer g targetInboxId with
        | None => (g, VoteTargetNotFound)
        | Some targetPlayer =>
            match getPlayer g senderInboxId with
            | None => (g, VoteNotActive)
            | Some voter =>
                if negb (isAlive voter) then (g, VoteNotActive)
                else if negb (isVotingPhase (getState g))
                then (g, VoteNotVotingPhase)
                else
                  (withPlayers
                     (updatePlayer senderInboxId
                        (setVote true (Some targetInboxId)) (players g)) g,
                   if voted voter then VoteChanged (username targetPlayer)
                   else VoteRecorded (username targetPlayer))
            end
        end
  | _ => (g, VoteNotAVoteAction)
  end.

(** The loop "Reset votes" of [startVotingPhase] (gameFlow.ts, lines
    861-865), over [getAlivePlayers()]. *)
Definition resetVotes (g : Game) : Game :=
  withPlayers
    (List.map (fun p => if isAlive p then setVote false None p else p)
              (players g)) g.

(** ** The round orchestrator (game/gameFlow.ts) and the kill handlers *)

(** Modelled from the spec: utils/timers.ts is not among the sources. The
    scheduler is a registry from a timer key to one pending one-shot timer:
    scheduling under a key replaces the timer pending under it, cancelling an
    absent key does nothing, cancelling all clears the registry. The keys the
    source composes for the phases, [`taskPhase-${round}`],
    [`killPhase-${round}`], [`discussion-${round}`] and [`voting-${round}`],
    are the constructors below; the callback registered under a key is
    determined by it ([fire]). The timer ["joinWindow"] of the start handler
    precedes the first round and is no key of this registry; the lobby
    handlers keep it ([Lobby]). *)
Inductive TimerKey : Set :=
  | TaskTimer (r : Z)
  | KillTimer (r : Z)
  | DiscussionTimer (r : Z)
  | VotingTimer (r : Z).

#[global] Instance TimerKey_eq_dec : EqDecision TimerKey.
Proof. solve_decision. Defined.

Inductive Notice : Type :=
  | TaskPhaseNotice (r : Z)
  | TaskNotice (id : string) (q : string)
  | KillPhaseNotice (r : Z)
  | KillInstructions (r : Z) (targets : list string)
  | DiscussionNotice
  | VotingNotice (targets : list string)
  | NoVotesNotice                (* "No votes cast. No one eliminated." *)
  | NoMajorityNotice             (* "Tie or no majority. No one eliminated." *)
  | EliminatedNotice (name : string) (r : option Role)
  | TownWinsNotice
  | MafiaWinsNotice
  | KillReply (m : KillMessage)
  | KillAnnouncement (m : KillMessage)
  | KillOnlyInDm
  | KillTargetNotFound.

(** The session together with what the orchestrator keeps around it: the
    scheduler's registry, the number of pending two-second [setTimeout]s of
    the kill handlers (they are not in the registry), and the messages sent. *)
Record Session := mkSession {
  game : Game;
  timers : list TimerKey;
  delayed : nat;
  outbox : list Notice
}.

(** What the environment answers during one callback or handler: whether the
    transport resolves the lobby conversation, the members it lists for it,
    and the tasks of the task provider. *)
Record Env := mkEnv {
  groupFound : bool;
  members : option (list Member);
  generateTask : string -> Task
}.

(** A computation over the session that may throw: the writes made before the
    exception stay. *)
Definition Flow (A : Type) : Type := Session -> Session * (Error + A).

#[global] Instance Flow_ret : MRet Flow := fun A a s => (s, inr a).

#[global] Instance Flow_bind : MBind Flow :=
  fun A B k m s =>
    match m s with
    | (s', inr a) => k a s'
    | (s', inl e) => (s', inl e)
    end.

Definition ret {A : Type} (a : A) : Flow A := mret a.

Definition read {A : Type} (f : Game -> A) : Flow A :=
  fun s => (s, inr (f (game s))).

Definition write (f : Game -> Game) : Flow unit :=
  fun s => (mkSession (f (game s)) (timers s) (delayed s) (outbox s), inr tt).

Definition engine (f : Game -> Error + Game) : Flow unit :=
  fun s =>
    match f (game s) with
    | inr g' => (mkSession g' (timers s) (delayed s) (outbox s), inr tt)
    | inl e => (s, inl e)
    end.

Definition send (n : Notice) : Flow unit :=
  fun s => (mkSession (game s) (timers s) (delayed s) (outbox s ++ [n]), inr tt).

Definition setPhaseTimer (k : TimerKey) : Flow unit :=
  fun s =>
    (mkSession (game s) (k :: List.filter (fun k' => negb (bool_decide (k' = k))) (timers s))
       (delayed s) (outbox s), inr tt).

Definition clearPhaseTimer (k : TimerKey) : Flow unit :=
  fun s =>
    (mkSession (game s) (List.filter (fun k' => negb (bool_decide (k' = k))) (timers s))
       (delayed s) (outbox s), inr tt).

Definition clearAllTimers : Flow unit :=
  fun s => (mkSession (game s) [] (delayed s) (outbox s), inr tt).

Definition setTimeoutAdvance : Flow unit :=
  fun s => (mkSession (game s) (timers s) (S (delayed s)) (outbox s), inr tt).

(** [const lobbyId = ...; if (!lobbyId) return; const group = await ...;
    if (!group) return; body] *)
Definition withLobbyGroup (env : Env) (body : Flow unit) : Flow unit :=
  lobbyId ← read lobbyGroupId;
  if negb (Js.truthyStr lobbyId) then ret tt
  else if negb (groupFound env) then ret tt
  else body.

Definition endGame (cfg : Config) (env : Env) (w : option Role) : Flow unit :=
  match w with
  | None => ret tt
  | Some who =>
      clearAllTimers ;;
      withLobbyGroup env
        (send (match who with CREW => TownWinsNotice | IMPOSTOR => MafiaWinsNotice end) ;;
         write (cleanup cfg))
  end.

Definition startTaskPhase (env : Env) (r : Z) : Flow unit :=
  withLobbyGroup env
    (send (TaskPhaseNotice r) ;;
     alive ← read getAlivePlayers;
     tasks ← read taskAssignments;
     List.fold_right
       (fun player rest =>
          match tasks !! inboxId player with
          | Some task => send (TaskNotice (inboxId player) (question task)) ;; rest
          | None => rest
          end)
       (setPhaseTimer (TaskTimer r)) alive).

Definition startKillPhase (env : Env) (r : Z) : Flow unit :=
  impostorId ← read impostorInboxId;
  if negb (Js.truthyStr impostorId) then ret tt
  else
    impostor ← read (fun g => getPlayer g (Js.orEmpty impostorId));
    match impostor with
    | None => ret tt
    | Some imp =>
        if negb (isAlive imp) then ret tt
        else
          lobbyId ← read lobbyGroupId;
          (if Js.truthyStr lobbyId && groupFound env
           then send (KillPhaseNotice r) else ret tt) ;;
          alive ← read getAlivePlayers;
          send (KillInstructions r
                  (ids (List.filter
                          (fun p => negb (inboxId p =? Js.orEmpty impostorId))
                          alive))) ;;
          setPhaseTimer (KillTimer r)
    end.

Definition startDiscussionPhase (env : Env) (r : Z) : Flow unit :=
  withLobbyGroup env (send DiscussionNotice ;; setPhaseTimer (DiscussionTimer r)).

Definition startVotingPhase (env : Env) (r : Z) : Flow unit :=
  withLobbyGroup env
    (alive ← read getAlivePlayers;
     send (VotingNotice (ids alive)) ;;
     write resetVotes ;;
     setPhaseTimer (VotingTimer r)).

(** Lines 884-916 of [processVoting]: the tally and the elimination. The
    result tells whether the function goes on to the roll-over (it returned
    early when the win check ended the game). *)
Definition tallyAndEliminate (cfg : Config) (env : Env) : Flow bool :=
  results ← read getVoteResults;
  match results with
  | [] => send NoVotesNotice ;; ret true
  | topResult :: _ =>
      aliveCount ← read (fun g => Z.of_nat (length (getAlivePlayers g)));
      let majority := Js.ceilHalf aliveCount in
      if (majority <=? votes topResult)%Z then
        eliminated ← read (fun g => getPlayer g (target topResult));
        match eliminated with
        | Some e =>
            write (eliminatePlayer (target topResult)) ;;
            send (EliminatedNotice (username e) (role e)) ;;
            winCheck ← read checkWinCondition;
            if gameEnded winCheck
            then endGame cfg env (winner winCheck) ;; ret false
            else ret true
        | None => ret true
        end
      else send NoMajorityNotice ;; ret true
  end.

Definition processVoting (cfg : Config) (env : Env) (r : Z) : Flow unit :=
  withLobbyGroup env
    (goOn ← tallyAndEliminate cfg env;
     if (goOn : bool) then
       if (r <? MAX_ROUNDS)%Z then
         engine (advancePhase (generateTask env)) ;;
         engine (startRound (generateTask env) (r + 1)) ;;
         startTaskPhase env (r + 1)
       else
         winCheck ← read checkWinCondition;
         endGame cfg env (Some (match winner winCheck with
                                | Some w => w
                                | None => IMPOSTOR
                                end))
     else ret tt).

(** The callback registered under each phase key (gameFlow.ts, lines 756-759,
    807-819, 835-838 and 868-870). *)
Definition fire (cfg : Config) (env : Env) (k : TimerKey) : Flow unit :=
  match k with
  | TaskTimer r =>
      engine (advancePhase (generateTask env)) ;; startKillPhase env r
  | KillTimer r =>
      currentState ← read getState;
      if isKillPhase currentState then
        engine (advancePhase (generateTask env)) ;; startDiscussionPhase env r
      else ret tt
  | DiscussionTimer r =>
      engine (advancePhase (generateTask env)) ;; startVotingPhase env r
  | VotingTimer r => processVoting cfg env r
  end.

(** The two-second [setTimeout] of the kill handlers. *)
Definition delayedAdvance (env : Env) : Flow unit :=
  engine (advancePhase (generateTask env)) ;;
  r ← read round;
  startDiscussionPhase env r.

(** What both kill handlers do after a successful kill, up to the point where
    they differ: [clearTimer] is true for the button handler, which cancels
    the kill-phase timer, and false for the text command, which does not. *)
Definition afterKill (cfg : Config) (env : Env) (clearTimer : bool)
    (m : KillMessage) : Flow unit :=
  withLobbyGroup env
    (send (KillAnnouncement m) ;;
     winCheck ← read checkWinCondition;
     if gameEnded winCheck then endGame cfg env (winner winCheck)
     else
       (if clearTimer
        then r ← read round; clearPhaseTimer (KillTimer r)
        else ret tt) ;;
       setTimeoutAdvance).

Definition attemptKillFlow (env : Env) (now : Z) (rand : Q)
    (senderInboxId targetIdentifier : string) : Flow KillResult :=
  fun s =>
    let '(g', res) := attemptKill (members env) now rand senderInboxId
                        targetIdentifier (game s) in
    (mkSession g' (timers s) (delayed s) (outbox s ++ [KillReply (message res)]),
     inr res).

(** [setupKillHandler] (commandHandlers.ts, lines 255-319), for a command that
    carries a target. *)
Definition killCommand (cfg : Config) (env : Env) (conv : Conversation)
    (now : Z) (rand : Q) (senderInboxId targetUsername : string) : Flow unit :=
  if negb (isDM conv) then send KillOnlyInDm
  else
    result ← attemptKillFlow env now rand senderInboxId targetUsername;
    if killed result then afterKill cfg env false (message result) else ret tt.

(** The branch [actionId.startsWith("kill-")] of [handleIntentMessage]
    (intentHandler.ts, lines 131-189). *)
Definition killButton (cfg : Config) (env : Env) (conv : Conversation)
    (now : Z) (rand : Q) (senderInboxId actionId : string) : Flow unit :=
  if negb (isDM conv) then send KillOnlyInDm
  else
    targetPlayer ← read (fun g => getPlayer g (Js.dropPrefix "kill-" actionId));
    match targetPlayer with
    | None => send KillTargetNotFound
    | Some t =>
        result ← attemptKillFlow env now rand senderInboxId (username t);
        if killed result then afterKill cfg env true (message result) else ret tt
    end.

(** ** The primitive writes to the session, as one labelled step

    In the sources at hand every write to the roster and to the state of the
    [Game] object is made by one of the operations below: the methods of
    [GameManager], the vote branch of the intent handler and the reset loop
    of [startVotingPhase]. Handlers and timer callbacks are sequences of
    them. *)

Inductive Op : Type :=
  | OpCreateLobby (now now' : Z) (groupId originalGroup : string)
  | OpAddPlayer (agentInboxId : string) (now : Z) (id name : string)
  | OpAssignRoles (now : Z) (rand : Q)
  | OpStartRound (gen : string -> Task) (r : Z)
  | OpCompleteTask (validate : Task -> string -> bool) (id answer : string)
  | OpAttemptKill (ms : option (list Member)) (now : Z) (rand : Q)
                  (impostorId targetIdentifier : string)
  | OpCastVote (voterId targetUsername : string)
  | OpEliminatePlayer (id : string)
  | OpAdvancePhase (gen : string -> Task)
  | OpCleanup
  | OpVoteButton (conv : Conversation) (senderInboxId actionId : string)
  | OpResetVotes.

(** A method that throws has written nothing. *)
Definition orKeep (g : Game) (r : Error + Game) : Game :=
  match r with
  | inr g' => g'
  | inl _ => g
  end.

Definition run (cfg : Config) (op : Op) (g : Game) : Game :=
  match op with
  | OpCreateLobby now now' gid orig => orKeep g (createLobby cfg now now' gid orig g)
  | OpAddPlayer agent now id name => fst (addPlayer agent now id name g)
  | OpAssignRoles now rand => orKeep g (assignRoles cfg now rand g)
  | OpStartRound gen r => orKeep g (startRound gen r g)
  | OpCompleteTask validate id answer => fst (completeTask validate id answer g)
  | OpAttemptKill ms now rand imp tgt => fst (attemptKill ms now rand imp tgt g)
  | OpCastVote voter tgt => fst (castVote voter tgt g)
  | OpEliminatePlayer id => eliminatePlayer id g
  | OpAdvancePhase gen => orKeep g (advancePhase gen g)
  | OpCleanup => cleanup cfg g
  | OpVoteButton conv sender actionId => fst (voteButton conv sender actionId g)
  | OpResetVotes => resetVotes g
  end.

Definition runAll (cfg : Config) (ops : list Op) (g : Game) : Game :=
  List.fold_left (fun g op => run cfg op g) ops g.

(** The step runs [startRound]: directly, or through [advancePhase] out of the
    voting state of round 1 or 2. *)
Definition startsRound (op : Op) (g : Game) : bool :=
  match op with
  | OpStartRound _ _ => true
  | OpAdvancePhase _ =>
      bool_decide (state g = ROUND_1_VOTING) || bool_decide (state g = ROUND_2_VOTING)
  | _ => false
  end.

Definition isResetVotes (op : Op) : bool :=
  match op with
  | OpResetVotes => true
  | _ => false
  end.

(** ** Vocabulary of the properties *)

(** *** Win determination *)

Definition alliesWin : WinCheck := mkWinCheck true (Some CREW).
Definition adversaryWins : WinCheck := mkWinCheck true (Some IMPOSTOR).
Definition noWinner : WinCheck := mkWinCheck false None.

(** The roster entry of the adversary, as [checkWinCondition] looks it up. *)
Definition adversary (g : Game) : option Player :=
  getPlayer g (Js.orEmpty (impostorInboxId g)).


(** The session is in the voting state of round [MAX_ROUNDS] or in
    [GAME_END]: the test [state === ROUND_3_VOTING || state === GAME_END] of
    [checkWinCondition]. It holds from the entry into that voting state on,
    before any vote is cast and before [processVoting] has tallied: the
    [Game] object keeps no record of whether the tally has run. *)
Definition lastVotingReached (g : Game) : Prop :=
  state g = getStateForRoundPhase MAX_ROUNDS VOTING \/ state g = GAME_END.

(** *** Roles *)

Definition hasRole (r : Role) (p : Player) : bool :=
  bool_decide (role p = Some r).

Definition countRole (r : Role) (ps : list Player) : nat :=
  length (List.filter (hasRole r) ps).

(** *** Votes *)

(** A living player who has voted for [t]. *)
Definition votesForb (t : string) (p : Player) : bool :=
  isAlive p && voted p && bool_decide (voteTarget p = Some t).

(** The number of votes for [t] among the living voters who have voted. *)
Definition votesFor (t : string) (g : Game) : Z :=
  Z.of_nat (length (List.filter (votesForb t) (players g))).

Definition aliveCount (g : Game) : Z :=
  Z.of_nat (length (getAlivePlayers g)).


(** Every recorded vote names a registered player, under an id that is not
    the empty string. *)
Definition votesWellFormed (g : Game) : Prop :=
  forall p t, In p (players g) -> voteTarget p = Some t ->
    t <> "" /\ In t (ids (players g)).

(** The player whose elimination the tally of [processVoting] orders: the
    decision of lines 886-895. *)
Definition voteElimination (g : Game) : option string :=
  match getVoteResults g with
  | [] => None
  | topResult :: _ =>
      if (Js.ceilHalf (aliveCount g) <=? votes topResult)%Z then
        match getPlayer g (target topResult) with
        | Some _ => Some (target topResult)
        | None => None
        end
      else None
  end.

(** *** Kill attempts *)

(** The adversary [id] has used up the attempts of the round. *)
Definition capped (id : string) (g : Game) : Prop :=
  exists p, getPlayer g id = Some p /\ maxKillAttempts g <= killAttempts p.

(** The states before the first round. *)
Definition beforeRounds (s : GameState) : Prop :=
  s = IDLE \/ s = LOBBY_CREATED \/ s = WAITING_FOR_PLAYERS \/ s = ASSIGN_ROLES.

(** A kill attempt was rejected and wrote nothing. *)
Definition rejectedUnchanged (g : Game) (r : Game * KillResult) : Prop :=
  fst r = g /\ killed (snd r) = false.

(** The number the loop of [getVoteResults] has counted for [t] so far. *)
Definition countOf (t : string) (counts : list (string * Z)) : Z :=
  match List.find (fun e => fst e =? t) counts with
  | Some e => snd e
  | None => 0
  end.

(** The condition under which the loop of [getVoteResults] counts a player. *)
Definition counted (p : Player) : bool :=
  isAlive p && voted p && Js.truthyStr (voteTarget p).

Definition countStep (counts : list (string * Z)) (player : Player)
  : list (string * Z) :=
  if counted player then bump (Js.orEmpty (voteTarget player)) counts else counts.

Definition toResult (e : string * Z) : VoteResult :=
  let '(t, n) := e in mkVoteResult t n.

(** The invariant of the counting loop after the players [seen]: one entry
    per target, each with the number of its votes, none for the empty id. *)
Definition countsOf (seen : list Player) (counts : list (string * Z)) : Prop :=
  NoDup (List.map fst counts)
  /\ (forall k n, In (k, n) counts -> k <> "" /\ 1 <= n)
  /\ (forall t, t <> "" ->
        countOf t counts = Z.of_nat (length (List.filter (votesForb t) seen))).



(** The session right after the tally has eliminated [p], found under [t]. *)
Definition afterElimination (t : string) (p : Player) (s : Session) : Session :=
  mkSession (eliminatePlayer t (game s)) (timers s) (delayed s)
            (outbox s ++ [EliminatedNotice (username p) (role p)]).

(** *** Per-round fields across a step *)

(** What a step that is no reset carries over from a roster entry [p] to the
    entry [p'] under the same id: the attempt counter is not lowered and,
    when [withVotes] is set, a recorded vote is not withdrawn. *)
Definition carried (withVotes : bool) (p p' : Player) : Prop :=
  inboxId p' = inboxId p
  /\ killAttempts p <= killAttempts p'
  /\ (withVotes = true ->
        (voted p = true -> voted p' = true)
        /\ (voteTarget p <> None -> voteTarget p' <> None)).

(** No step of the trace runs [startRound]. *)
Fixpoint noStartRound (cfg : Config) (ops : list Op) (g : Game) : Prop :=
  match ops with
  | [] => True
  | op :: rest => startsRound op g = false /\ noStartRound cfg rest (run cfg op g)
  end.

(** The reading of the per-round reset under which [startRound] is its only
    place: no other step lowers the attempt counter or withdraws a recorded
    vote of a living player. *)
Definition resetOnlyAtStartRound (cfg : Config) : Prop :=
  forall op g id p p',
    startsRound op g = false ->
    getPlayer g id = Some p -> isAlive p = true ->
    getPlayer (run cfg op g) id = Some p' ->
    killAttempts p <= killAttempts p'
    /\ (voted p = true -> voted p' = true)
    /\ (voteTarget p <> None -> voteTarget p' <> None).

(** ** Invariants of the session *)

(** The states in which players join. *)
Definition inLobby (s : GameState) : Prop :=
  s = IDLE \/ s = LOBBY_CREATED \/ s = WAITING_FOR_PLAYERS.

Definition noVotes (g : Game) : Prop :=
  forall p, In p (players g) -> voteTarget p = None.

(** The roster has one entry per id, none under the empty id; every recorded
    vote names an entry of the roster; while players can still join, no vote
    is recorded. *)
Definition sessionInvariant (g : Game) : Prop :=
  rosterUnique g
  /\ ~ In "" (ids (players g))
  /\ (forall p t, In p (players g) -> voteTarget p = Some t -> In t (ids (players g)))
  /\ (inLobby (state g) -> noVotes g).

(** An inbox id is not the empty string. *)
Definition opWellFormed (op : Op) : Prop :=
  match op with
  | OpAddPlayer _ _ id _ => id <> ""
  | _ => True
  end.

(** The sessions the operations reach from the initial one. *)
Definition reachable (cfg : Config) (g : Game) : Prop :=
  exists ops, Forall opWellFormed ops /\ g = runAll cfg ops (initialGame cfg).

(** How a write in place relates an entry [q] of the roster [ps] to what it
    becomes: the id stays, and the vote target stays, is cleared, or, when
    [mayVote] holds, names an entry of [ps]. *)
Definition rewritten (mayVote : Prop) (ps : list Player) (q q' : Player) : Prop :=
  inboxId q' = inboxId q
  /\ (voteTarget q' = voteTarget q
      \/ voteTarget q' = None
      \/ (mayVote /\ exists t, voteTarget q' = Some t /\ In t (ids ps))).

(** ** Sample sessions

    Built by running the operations from the initial session, so every one of
    them is a session the program reaches. *)

Definition sampleConfig : Config :=
  {| MIN_PLAYERS_TO_START := 4;
     KILL_COOLDOWN_MS := 30000;
     KILL_SUCCESS_CHANCE := 1 # 2;
     MAX_KILL_ATTEMPTS := 2;
     JOIN_WINDOW_DURATION_MS := 120000 |}.

Definition sampleTask (id : string) : Task :=
  {| question := "2 + 2"; completed := false |}.

(** A full lobby: six players have joined. *)
Definition sampleLobby : Game :=
  runAll sampleConfig
    [ OpCreateLobby 1000 1000 "lobby" "origin";
      OpAddPlayer "agent" 2000 "a" "Ann";
      OpAddPlayer "agent" 3000 "b" "Bob";
      OpAddPlayer "agent" 4000 "c" "Cat";
      OpAddPlayer "agent" 5000 "d" "Dan";
      OpAddPlayer "agent" 6000 "e" "Eve";
      OpAddPlayer "agent" 7000 "f" "Fay" ]
    (initialGame sampleConfig).

(** Roles are assigned; the draw [1/2] makes the fourth player, Dan, the
    adversary. *)
Definition sampleAssigned : Game :=
  run sampleConfig (OpAssignRoles 8000 (1 # 2)) sampleLobby.

Definition sampleRound1 : Game :=
  run sampleConfig (OpStartRound sampleTask 1) sampleAssigned.

Definition sampleKillPhase : Game :=
  run sampleConfig (OpAdvancePhase sampleTask) sampleRound1.

(** The voting phase of round 1 with all six players alive. *)
Definition sampleVoting6 : Game :=
  runAll sampleConfig [OpAdvancePhase sampleTask; OpAdvancePhase sampleTask]
         sampleKillPhase.

(** Three of the six vote for Dan. *)
Definition sampleThreeOfSix : Game :=
  runAll sampleConfig
    [OpCastVote "a" "Dan"; OpCastVote "b" "Dan"; OpCastVote "c" "Dan"]
    sampleVoting6.

(** In the kill phase Dan's first attempt, on Fay, succeeds (the draw [0] is
    below the chance [1/2]): five players are left. *)
Definition sampleAfterKill : Game :=
  run sampleConfig (OpAttemptKill None 300000 0 "d" "Fay") sampleKillPhase.

Definition sampleVoting5 : Game :=
  runAll sampleConfig [OpAdvancePhase sampleTask; OpAdvancePhase sampleTask]
         sampleAfterKill.

(** Three of the five vote for Eve. *)
Definition sampleThreeOfFive : Game :=
  runAll sampleConfig
    [OpCastVote "a" "Eve"; OpCastVote "b" "Eve"; OpCastVote "c" "Eve"]
    sampleVoting5.

(** A 2-2-1 split among the five. *)
Definition sampleSplit : Game :=
  runAll sampleConfig
    [OpCastVote "a" "Bob"; OpCastVote "b" "Ann"; OpCastVote "c" "Bob";
     OpCastVote "d" "Ann"; OpCastVote "e" "Cat"]
    sampleVoting5.

(** Dan's first attempt fails (the draw [3/4] is not below [1/2]). *)
Definition sampleFailedKill : Game :=
  run sampleConfig (OpAttemptKill None 300000 (3 # 4) "d" "Fay") sampleKillPhase.

Definition sampleDan : Player :=
  {| inboxId := "d"; username := "Dan"; role := Some IMPOSTOR; isAlive := true;
     completedTasks := 0; killAttempts := 0; lastKillAttempt := None;
     voted := false; voteTarget := None |}.

(** Ann has voted in the voting phase of round 1. *)
Definition sampleVoted : Game :=
  run sampleConfig (OpCastVote "a" "Dan") sampleVoting6.

(** A full lobby whose newest entry is the hosting agent itself, under an id
    that differs from the agent's by case only. *)
Definition sampleHostedLobby : Game :=
  runAll sampleConfig
    [ OpCreateLobby 1000 1000 "lobby" "origin";
      OpAddPlayer "agent" 2000 "a" "Ann";
      OpAddPlayer "agent" 3000 "b" "Bob";
      OpAddPlayer "agent" 4000 "c" "Cat";
      OpAddPlayer "agent" 5000 "d" "Dan";
      OpAddPlayer "agent" 6000 "e" "Eve";
      OpAddPlayer "agent" 7000 "Agent" "Host" ]
    (initialGame sampleConfig).

(** Dan's second attempt, after the cooldown, fails too: the cap of
    [sampleConfig] is reached. *)
Definition sampleCapped : Game :=
  run sampleConfig (OpAttemptKill None 340000 (3 # 4) "d" "Fay") sampleFailedKill.

(** ** Events of the orchestrator *)

(** What re-enters the orchestrator in the scenarios below: a pending timer
    of the registry fires (it is one-shot, so it leaves the registry), a
    pending two-second [setTimeout] of a kill handler fires, or the adversary
    sends a kill command or clicks a kill button. *)
Inductive Event : Type :=
  | EvFire (k : TimerKey)
  | EvDelayed
  | EvKillCommand (conv : Conversation) (now : Z) (rand : Q)
                  (senderInboxId targetUsername : string)
  | EvKillButton (conv : Conversation) (now : Z) (rand : Q)
                 (senderInboxId actionId : string).

Definition pendingTimer (k : TimerKey) (s : Session) : bool :=
  List.existsb (fun k' => bool_decide (k' = k)) (timers s).

Definition step (cfg : Config) (env : Env) (ev : Event) (s : Session) : Session :=
  match ev with
  | EvFire k =>
      if pendingTimer k s
      then fst ((clearPhaseTimer k ;; fire cfg env k) s)
      else s
  | EvDelayed =>
      match delayed s with
      | O => s
      | S n => fst (delayedAdvance env (mkSession (game s) (timers s) n (outbox s)))
      end
  | EvKillCommand conv now rand sender tgt =>
      fst (killCommand cfg env conv now rand sender tgt s)
  | EvKillButton conv now rand sender actionId =>
      fst (killButton cfg env conv now rand sender actionId s)
  end.

Definition runEvents (cfg : Config) (env : Env) (evs : list Event) (s : Session)
  : Session :=
  List.fold_left (fun s ev => step cfg env ev s) evs s.

Definition sampleEnv : Env :=
  {| groupFound := true; members := None; generateTask := sampleTask |}.

(** Round 1 has started and its task phase has been announced. *)
Definition sampleTaskSession : Session :=
  fst (startTaskPhase sampleEnv 1 (mkSession sampleRound1 [] 0 [])).

(** The task phase times out; in the kill phase Dan's command by text kills
    Fay shortly before the kill-phase timer expires; the timer fires, then
    the handler's two-second timeout. *)
Definition sampleLateKill : list Event :=
  [ EvFire (TaskTimer 1);
    EvKillCommand Dm 300000 0 "d" "Fay";
    EvFire (KillTimer 1);
    EvDelayed ].

Definition sampleStale : Session :=
  runEvents sampleConfig sampleEnv sampleLateKill sampleTaskSession.

(** The scenario of the specification's section 8: four players join; the
    draw [0] makes Ann, the first of them, the adversary; round 1 starts. *)
Definition scenarioLobby : Game :=
  runAll sampleConfig
    [ OpCreateLobby 1000 1000 "lobby" "origin";
      OpAddPlayer "agent" 2000 "a" "Ann";
      OpAddPlayer "agent" 3000 "b" "Bob";
      OpAddPlayer "agent" 4000 "c" "Cat";
      OpAddPlayer "agent" 5000 "d" "Dan";
      OpAssignRoles 200000 0;
      OpStartRound sampleTask 1 ]
    (initialGame sampleConfig).

(** The task phase times out; in the kill phase Ann names a player that does
    not exist, then herself, then clicks Bob's button with a draw that
    succeeds; two seconds later the handler's timeout fires. *)
Definition scenarioEvents : list Event :=
  [ EvFire (TaskTimer 1);
    EvKillCommand Dm 300000 0 "a" "Nobody";
    EvKillCommand Dm 301000 0 "a" "Ann";
    EvKillButton Dm 302000 0 "a" "kill-b";
    EvDelayed ].

Definition scenarioSession (n : nat) : Session :=
  runEvents sampleConfig sampleEnv (firstn n scenarioEvents)
    (fst (startTaskPhase sampleEnv 1 (mkSession scenarioLobby [] 0 []))).

(** ** Proof automation *)

(** Case analysis on every test of the goal. *)
Ltac branches :=
  repeat match goal with
         | |- context [if ?c then _ else _] => destruct c eqn:?
         | |- context [match ?x with _ => _ end] => destruct x eqn:?
         end.


(** ** Further vocabulary: what the operations keep *)

(** What every operation keeps of a roster entry [p], [p'] being the entry
    under the same id after it: a player that is not alive is not revived,
    the user name stays, and the number of completed tasks does not go
    down. *)
Definition persists (p p' : Player) : Prop :=
  inboxId p' = inboxId p
  /\ (isAlive p = false -> isAlive p' = false)
  /\ username p' = username p
  /\ completedTasks p <= completedTasks p'.

(** The three shapes of a step: the roster entries are rewritten in place,
    each by writes that [R] allows; the roster is emptied; or the step is a
    join that appends the newcomer, after an eviction or not. *)
Definition rosterStep (R : Player -> Player -> Prop) (cfg : Config) (op : Op)
    (g : Game) : Prop :=
  Forall2 (fun q q' => inboxId q' = inboxId q /\ R q q')
          (players g) (players (run cfg op g))
  \/ players (run cfg op g) = []
  \/ exists agent now id name base,
       op = OpAddPlayer agent now id name
       /\ players (run cfg op g) = base ++ [newPlayer id name]
       /\ hasPlayer id (players g) = false
       /\ (base = players g \/ exists e, base = deletePlayer e (players g)).

(** Every roster entry that is not alive is listed in [eliminatedPlayers]. *)
Definition deadListed (g : Game) : Prop :=
  forall p, In p (players g) -> isAlive p = false ->
    inboxId p ∈ eliminatedPlayers g.

(** The round a state belongs to; [GAME_END] follows the voting of round
    [MAX_ROUNDS]. *)
Definition roundOf (s : GameState) : option Z :=
  match s with
  | ROUND_1_TASKS | ROUND_1_KILL | ROUND_1_DISCUSSION | ROUND_1_VOTING => Some 1
  | ROUND_2_TASKS | ROUND_2_KILL | ROUND_2_DISCUSSION | ROUND_2_VOTING => Some 2
  | ROUND_3_TASKS | ROUND_3_KILL | ROUND_3_DISCUSSION | ROUND_3_VOTING => Some 3
  | GAME_END => Some MAX_ROUNDS
  | _ => None
  end.

(** The round counter is within its bounds and agrees with the state. *)
Definition roundMatchesState (g : Game) : Prop :=
  0 <= round g <= MAX_ROUNDS
  /\ forall r, roundOf (state g) = Some r -> round g = r.



(** The conditions under which [addPlayer] lets a player in. *)
Definition joinable (now : Z) (id : string) (g : Game) : Prop :=
  (state g = LOBBY_CREATED \/ state g = WAITING_FOR_PLAYERS)
  /\ hasPlayer id (players g) = false
  /\ deadlinePassed now g = false.

(** Some living player is registered under [id]. *)
Definition aliveUnder (id : string) (ps : list Player) : bool :=
  List.existsb (fun p => isAlive p && (inboxId p =? id)) ps.

(** *** The tally as a whole *)

Definition totalVotes (l : list VoteResult) : Z :=
  List.fold_right Z.add 0 (List.map votes l).

(** No result has more votes than one before it. *)
Fixpoint descending (l : list VoteResult) : Prop :=
  match l with
  | [] => True
  | x :: rest => (forall y, In y rest -> votes y <= votes x) /\ descending rest
  end.

Definition sumCounts (counts : list (string * Z)) : Z :=
  List.fold_right Z.add 0 (List.map snd counts).

(** The living players the counting loop of [getVoteResults] counts. *)
Definition countedVoters (g : Game) : Z :=
  Z.of_nat (length (List.filter counted (players g))).

(** One if the player is alive, zero otherwise: what it adds to the number
    of the living. *)
Definition aliveUnit (o : option Player) : Z :=
  match o with
  | Some p => if isAlive p then 1 else 0
  | None => 0
  end.

(** ** The action buttons (utils/voteButtons.ts, utils/killButtons.ts) *)

(** The [id]s of the actions that [sendVotingButtons] builds (lines 20-41),
    one per living player in the order of the roster; [None] when the
    function returns at line 23 because nobody is alive. The labels and
    styles of the actions are presentation. *)
Definition votingButtonIds (g : Game) : option (list string) :=
  let alivePlayers := getAlivePlayers g in
  if (Z.of_nat (length alivePlayers) =? 0)%Z then None
  else Some (List.map (fun player => String.append "vote-" (inboxId player))
                      alivePlayers).

(** The [id]s of the actions that [sendKillButtons] builds (lines 20-53):
    one per living player other than [mafiaInboxId]. *)
Definition killButtonIds (mafiaInboxId : string) (g : Game)
  : option (list string) :=
  let alivePlayers :=
    List.filter (fun p => negb (inboxId p =? mafiaInboxId)) (getAlivePlayers g) in
  if (Z.of_nat (length alivePlayers) =? 0)%Z then None
  else Some (List.map (fun player => String.append "kill-" (inboxId player))
                      alivePlayers).

(** Among the living players the user name of [tp] is borne by [tp] only,
    without regard to case. *)
Definition nameUnique (tp : Player) (g : Game) : Prop :=
  forall q, In q (players g) -> isAlive q = true ->
    Js.toLowerCase (username q) = Js.toLowerCase (username tp) -> q = tp.

(** ** The task command (handlers/commandHandlers.ts, lines 196-252) *)

Inductive TaskReply : Set :=
  | TaskNotHere        (* "Task submissions should be done in the game lobby group ..." *)
  | TaskUsage          (* "Usage: @mafia /task <value>" *)
  | TaskNotActive      (* "You are not part of an active game or have been eliminated." *)
  | TaskIncorrect      (* "Task answer incorrect. Try again." *)
  | TaskCompleted.     (* "Task completed!" *)

(** [setupTaskHandler] for a parsed command ["task"]; [args] is
    [parsed.args], [None] when it is undefined. *)
Definition taskCommand (validateTaskAnswer : Task -> string -> bool)
    (conv : Conversation) (senderInboxId : string)
    (args : option (list string)) (g : Game) : Game * TaskReply :=
  if isDM conv then (g, TaskNotHere)
  else
    match args with
    | None | Some [] => (g, TaskUsage)
    | Some parts =>
        let answer := String.concat " " parts in
        match getPlayer g senderInboxId with
        | None => (g, TaskNotActive)
        | Some player =>
            if negb (isAlive player) then (g, TaskNotActive)
            else if bool_decide (role player = Some IMPOSTOR)
            then (g, TaskIncorrect)
            else
              let '(g', done) :=
                completeTask validateTaskAnswer senderInboxId answer g in
              (g', if done then TaskCompleted else TaskIncorrect)
        end
    end.

(** ** The lobby: start of the game, joining and cancelling *)

(** The messages of the handlers that run before the first round. *)
Inductive LobbyNotice : Type :=
  | RoleDm (id : string) (mafia : bool)   (* the two texts of [sendRoleDMs] *)
  | RolesAssignedNotice                   (* "Roles assigned. Round 1 is starting." *)
  | CancelButtonNotice                    (* the action "cancel-game" *)
  | CannotJoinReply                       (* "Cannot join at this time. ..." *)
  | RemovedDm (id : string)               (* "You were removed from the lobby ..." *)
  | RemovedNotice (removed newcomer : string)
  | LobbyStatusNotice (names : list string) (count : Z)
  | JoinedReply (names : list string) (count : Z)
  | CancelledByPlayerNotice               (* "Game cancelled by player." *)
  | GameCancelledReply                    (* "Game cancelled." *)
  | CannotCancelReply                     (* "Cannot cancel game. Game has already started." *)
  | NotEnoughPlayersNotice.               (* "Not enough players joined. Game cancelled." *)

(** The session with what the lobby handlers keep around it: whether the
    timer ["joinWindow"] of the start handler is pending in the scheduler's
    registry, and the messages these handlers have sent. *)
Record Lobby := mkLobby {
  session : Session;
  joinWindow : bool;
  notices : list LobbyNotice
}.

Definition note (n : LobbyNotice) (l : Lobby) : Lobby :=
  mkLobby (session l) (joinWindow l) (notices l ++ [n]).

Definition withGame (g : Game) (l : Lobby) : Lobby :=
  mkLobby (mkSession g (timers (session l)) (delayed (session l))
             (outbox (session l)))
          (joinWindow l) (notices l).

(** [clearAllTimers(gameManager)] on the whole registry. *)
Definition clearEveryTimer (l : Lobby) : Lobby :=
  mkLobby (mkSession (game (session l)) [] (delayed (session l))
             (outbox (session l)))
          false (notices l).

(** [sendRoleDMs] (gameManager.ts, lines 218-246): one message per player,
    its text chosen by [player.role === Role.IMPOSTOR]. *)
Definition sendRoleDMs (l : Lobby) : Lobby :=
  List.fold_left
    (fun l player =>
       note (RoleDm (inboxId player) (bool_decide (role player = Some IMPOSTOR))) l)
    (players (game (session l))) l.

(** [startGame] (game/gameFlow.ts, lines 639-695). [now] is the reading of
    the clock in [canStartGame], [rand] the draw of [assignRoles]. The body
    is inside try/catch: an exception ends the function and nothing
    escapes. *)
Definition startGame (cfg : Config) (env : Env) (now : Z) (rand : Q)
    (l : Lobby) : Lobby :=
  match assignRoles cfg now rand (game (session l)) with
  | inl _ => l
  | inr g' =>
      let l1 := sendRoleDMs (withGame g' l) in
      if Js.truthyStr (lobbyGroupId g') && groupFound env then
        let l2 := note CancelButtonNotice (note RolesAssignedNotice l1) in
        let '(s', _) :=
          (engine (startRound (generateTask env) 1) ;; startTaskPhase env 1)
            (session l2) in
        mkLobby s' (joinWindow l2) (notices l2)
      else l1
  end.

(** The branch [actionId === "join-game"] of [handleIntentMessage]
    (handlers/intentHandler.ts, lines 28-108). [name] is what [getUsername]
    returned, [originalFound] whether the transport resolves the original
    group, [now] and [now'] the readings of the clock in [addPlayer] and in
    [startGame]. *)
Definition joinGame (cfg : Config) (env : Env) (originalFound : bool)
    (agentInboxId : string) (now now' : Z) (rand : Q)
    (senderInboxId name : string) (l : Lobby) : Lobby :=
  let '(g', result) :=
    addPlayer agentInboxId now senderInboxId name (game (session l)) in
  let l1 := withGame g' l in
  if negb (success result) then note CannotJoinReply l1
  else if bool_decide (getState g' = WAITING_FOR_PLAYERS) then
    if Js.truthyStr (lobbyGroupId g') && Js.truthyStr (originalGroupId g') then
      if groupFound env && originalFound then
        let l2 :=
          match removedPlayer result with
          | Some removed =>
              note (RemovedNotice (username removed) name)
                   (note (RemovedDm (inboxId removed)) l1)
          | None => l1
          end in
        let names := List.map username (players g') in
        let count := Z.of_nat (length (players g')) in
        let l3 := note (JoinedReply names count)
                       (note (LobbyStatusNotice names count) l2) in
        if (MAX_PLAYERS <=? count)%Z then
          startGame cfg env now' rand
            (mkLobby (session l3) false (notices l3))
        else l3
      else l1
    else l1
  else l1.

(** The branch [actionId === "cancel-game"] (lines 109-130). *)
Definition cancelGame (cfg : Config) (env : Env) (l : Lobby) : Lobby :=
  let g := game (session l) in
  if bool_decide (getState g = WAITING_FOR_PLAYERS)
     || bool_decide (getState g = LOBBY_CREATED) then
    let l1 :=
      if Js.truthyStr (lobbyGroupId g) && groupFound env then
        withGame (cleanup cfg g)
          (clearEveryTimer (note CancelledByPlayerNotice l))
      else l in
    note GameCancelledReply l1
  else note CannotCancelReply l.

(** The callback of the timer ["joinWindow"] (handlers/commandHandlers.ts,
    lines 81-92); the timer is one-shot, so it is no longer pending when
    its callback runs. [now] is the reading of the clock in the callback's
    [canStartGame], [now'] the one in [startGame]. *)
Definition joinWindowExpired (cfg : Config) (env : Env) (now now' : Z)
    (rand : Q) (l : Lobby) : Lobby :=
  let l0 := mkLobby (session l) false (notices l) in
  let g := game (session l) in
  if bool_decide (getState g = WAITING_FOR_PLAYERS) then
    if canStartGame cfg now g then startGame cfg env now' rand l0
    else
      withGame (cleanup cfg g)
        (clearEveryTimer (note NotEnoughPlayersNotice l0))
  else l0.

(** A lobby that five players have joined. *)
Definition sampleFive : Game :=
  runAll sampleConfig
    [ OpCreateLobby 1000 1000 "lobby" "origin";
      OpAddPlayer "agent" 2000 "a" "Ann";
      OpAddPlayer "agent" 3000 "b" "Bob";
      OpAddPlayer "agent" 4000 "c" "Cat";
      OpAddPlayer "agent" 5000 "d" "Dan";
      OpAddPlayer "agent" 6000 "e" "Eve" ]
    (initialGame sampleConfig).

(** ** Names and answers of ASCII characters *)

(** Every user name of the roster is a string of ASCII characters. *)
Definition asciiNames (g : Game) : bool :=
  List.forallb (fun p => Js.isAscii (username p)) (players g).

(** Every string that the target resolution of [attemptKill] folds or trims
    is a string of ASCII characters: the identifier, the inbox ids and user
    names of the roster, the inbox ids and identifiers of the members
    listed. *)
Definition asciiResolution (ms : option (list Member)) (targetIdentifier : string)
    (g : Game) : bool :=
  Js.isAscii targetIdentifier
  && List.forallb (fun p => Js.isAscii (inboxId p) && Js.isAscii (username p))
                  (players g)
  && match ms with
     | Some l =>
         List.forallb
           (fun m => Js.isAscii (memberInboxId m)
                     && match memberIdentifier m with
                        | Some a => Js.isAscii a
                        | None => true
                        end) l
     | None => true
     end.

(** ** The voting phase and its tally *)







(** * Properties *)

(** ** Win determination *)


Lemma lastVotingReached_bool g :
  lastVotingReached g <->
  bool_decide (state g = ROUND_3_VOTING) || bool_decide (state g = GAME_END) = true.
Proof.
  unfold lastVotingReached. change (getStateForRoundPhase MAX_ROUNDS VOTING)
    with ROUND_3_VOTING.
  rewrite orb_true_iff, !bool_decide_eq_true. reflexivity.
Qed.



(** ** The roster *)

Lemma lookupPlayer_app_skip id l1 l2 :
  ~ In id (ids l1) -> lookupPlayer id (l1 ++ l2) = lookupPlayer id l2.
Proof.
  unfold lookupPlayer. induction l1 as [|p l1 IH]; simpl; [reflexivity|].
  intros Hn. destruct (String.eqb_spec (inboxId p) id) as [He|He].
  - exfalso. apply Hn. left. exact He.
  - apply IH. intros Hin. apply Hn. right. exact Hin.
Qed.

Lemma lookupPlayer_head id p l :
  inboxId p = id -> lookupPlayer id (p :: l) = Some p.
Proof. unfold lookupPlayer. simpl. intros ->. rewrite String.eqb_refl. reflexivity. Qed.

Lemma lookupPlayer_some id ps p :
  lookupPlayer id ps = Some p -> In p ps /\ inboxId p = id.
Proof.
  unfold lookupPlayer. intros H. apply List.find_some in H as [Hin He].
  split; [exact Hin|]. apply String.eqb_eq. exact He.
Qed.

Lemma lookupPlayer_none id ps :
  lookupPlayer id ps = None <-> ~ In id (ids ps).
Proof.
  unfold lookupPlayer, ids. split.
  - intros H Hin. apply in_map_iff in Hin as (p & He & Hin).
    pose proof (List.find_none _ _ H p Hin) as Hf. simpl in Hf.
    rewrite He, String.eqb_refl in Hf. discriminate.
  - intros Hn. destruct (List.find _ ps) as [p|] eqn:Hf; [|reflexivity].
    apply List.find_some in Hf as [Hin He]. apply String.eqb_eq in He.
    exfalso. apply Hn. apply in_map_iff. exists p. split; assumption.
Qed.

Lemma hasPlayer_ids id ps : hasPlayer id ps = true <-> In id (ids ps).
Proof.
  unfold hasPlayer, ids. rewrite existsb_exists, in_map_iff. split.
  - intros (p & Hin & He). apply String.eqb_eq in He. exists p. split; assumption.
  - intros (p & He & Hin). exists p. split; [exact Hin|]. apply String.eqb_eq. exact He.
Qed.

Lemma ids_app l1 l2 : ids (l1 ++ l2) = ids l1 ++ ids l2.
Proof. unfold ids. apply List.map_app. Qed.

(** ** Role assignment *)

Lemma countRole_app r l1 l2 :
  countRole r (l1 ++ l2) = (countRole r l1 + countRole r l2)%nat.
Proof. unfold countRole. rewrite List.filter_app, List.length_app. reflexivity. Qed.

Lemma countRole_crew_all l :
  countRole CREW (List.map (setRole (Some CREW)) l) = length l
  /\ countRole IMPOSTOR (List.map (setRole (Some CREW)) l) = 0%nat.
Proof.
  unfold countRole. induction l as [|p l [IH1 IH2]]; simpl; [split; reflexivity|].
  change (hasRole CREW (setRole (Some CREW) p)) with true.
  change (hasRole IMPOSTOR (setRole (Some CREW) p)) with false.
  simpl. rewrite IH1, IH2. split; reflexivity.
Qed.

(** The roster after the two writes of [assignRoles], when the ids are
    distinct: the drawn entry is the adversary, every other one an ally. *)
Lemma assignRoles_roster l1 imp l2 :
  NoDup (ids (l1 ++ imp :: l2)) ->
  List.map (fun player => if negb (inboxId player =? inboxId imp)
                          then setRole (Some CREW) player else player)
           (alter (setRole (Some IMPOSTOR)) (length l1) (l1 ++ imp :: l2))
  = List.map (setRole (Some CREW)) l1
      ++ setRole (Some IMPOSTOR) imp :: List.map (setRole (Some CREW)) l2.
Proof.
  intros Hnd. rewrite ids_app in Hnd. simpl in Hnd.
  apply NoDup_app in Hnd as (_ & Hdisj & Hnd2).
  apply NoDup_cons in Hnd2 as [Hn2 _].
  replace (length l1) with (length l1 + 0)%nat by lia.
  rewrite alter_app_r. simpl. rewrite List.map_app. simpl.
  rewrite String.eqb_refl. simpl. f_equal; [|f_equal].
  - apply List.map_ext_in. intros p Hin.
    destruct (String.eqb_spec (inboxId p) (inboxId imp)) as [He|He]; [|reflexivity].
    exfalso. apply (Hdisj (inboxId p)).
    + apply list_elem_of_In. apply in_map. exact Hin.
    + rewrite He. left.
  - apply List.map_ext_in. intros p Hin.
    destruct (String.eqb_spec (inboxId p) (inboxId imp)) as [He|He]; [|reflexivity].
    exfalso. apply Hn2. rewrite <- He. apply list_elem_of_In. apply in_map. exact Hin.
Qed.

Lemma ids_setRole r l : ids (List.map (setRole r) l) = ids l.
Proof. unfold ids. rewrite List.map_map. reflexivity. Qed.

Lemma arrayAt_split {A : Type} (l : list A) (i : Z) (x : A) :
  arrayAt l i = Some x ->
  exists l1 l2, l = l1 ++ x :: l2 /\ length l1 = Z.to_nat i /\ 0 <= i.
Proof.
  unfold arrayAt. destruct (Z.ltb_spec i 0) as [Hlt|Hge]; [discriminate|].
  intros H. apply List.nth_error_split in H as (l1 & l2 & -> & Hlen).
  exists l1, l2. repeat split; [exact Hlen | exact Hge].
Qed.

Lemma floorMul_range (r : Q) (n : Z) :
  (0 <= r)%Q -> (r < 1)%Q -> 0 < n -> 0 <= Js.floorMul r n < n.
Proof.
  intros H0 H1 Hn. unfold Js.floorMul.
  assert (Hn' : (inject_Z 0 < inject_Z n)%Q) by (rewrite <- Zlt_Qlt; exact Hn).
  split.
  - change 0 with (Qfloor 0). apply Qfloor_resp_le.
    apply Qmult_le_0_compat; [exact H0 | apply Qlt_le_weak; exact Hn'].
  - rewrite Zlt_Qlt. eapply Qle_lt_trans; [apply Qfloor_le|].
    rewrite <- (Qmult_1_l (inject_Z n)) at 2.
    apply Qmult_lt_compat_r; assumption.
Qed.

(** With the quorum reached and a draw of [Math.random()] in [[0, 1)],
    [assignRoles] does not throw. *)
Lemma assignRoles_succeeds cfg now rand g :
  state g = WAITING_FOR_PLAYERS -> canStartGame cfg now g = true ->
  (0 <= rand)%Q -> (rand < 1)%Q -> players g <> [] ->
  exists g', assignRoles cfg now rand g = inr g'.
Proof.
  intros Hs Hc H0 H1 Hne. unfold assignRoles.
  rewrite Hc, bool_decide_eq_true_2 by exact Hs. simpl.
  assert (Hlen : 0 < Z.of_nat (length (players g))).
  { destruct (players g); [contradiction | simpl; lia]. }
  pose proof (floorMul_range rand _ H0 H1 Hlen) as [Hlo Hhi].
  unfold arrayAt. destruct (Z.ltb_spec (Js.floorMul rand (Z.of_nat (length (players g)))) 0);
    [lia|].
  destruct (nth_error (players g) _) as [imp|] eqn:Hn; [eexists; reflexivity|].
  apply List.nth_error_None in Hn. lia.
Qed.

(** C2. When [assignRoles] succeeds on a roster of [N] distinct players,
    exactly one player holds the adversary role, the other [N - 1] hold the
    ally role (the two counts add up to [N]), and [impostorInboxId] names the
    adversary. The roster then has at least [MIN_PLAYERS_TO_START] players. *)
Theorem assignRoles_one_adversary cfg now rand g g' :
  rosterUnique g ->
  assignRoles cfg now rand g = inr g' ->
  exists imp,
    impostorInboxId g' = Some (inboxId imp)
    /\ getPlayer g' (inboxId imp) = Some imp
    /\ role imp = Some IMPOSTOR
    /\ (forall q, In q (players g') -> role q = Some IMPOSTOR -> q = imp)
    /\ countRole IMPOSTOR (players g') = 1%nat
    /\ (countRole CREW (players g') + 1 = length (players g))%nat
    /\ (countRole IMPOSTOR (players g') + countRole CREW (players g')
        = length (players g))%nat
    /\ ids (players g') = ids (players g)
    /\ MIN_PLAYERS_TO_START cfg <= rosterSize g
    /\ state g' = ASSIGN_ROLES.
Proof.
  unfold rosterUnique, assignRoles. intros Hnd H.
  destruct (negb (bool_decide (state g = WAITING_FOR_PLAYERS))
            || negb (canStartGame cfg now g)) eqn:Hguard; [discriminate|].
  apply orb_false_iff in Hguard as [_ Hcan]. apply negb_false_iff in Hcan.
  unfold canStartGame in Hcan. apply andb_true_iff in Hcan as [_ Hmin].
  apply Z.leb_le in Hmin.
  destruct (arrayAt (players g) _) as [imp|] eqn:Hat; [|discriminate].
  apply arrayAt_split in Hat as (l1 & l2 & Hps & Hlen & _).
  injection H as <-. simpl. rewrite <- Hlen, Hps.
  rewrite Hps in Hnd. rewrite (assignRoles_roster _ _ _ Hnd).
  pose proof (countRole_crew_all l1) as [Hc1 Hi1].
  pose proof (countRole_crew_all l2) as [Hc2 Hi2].
  assert (Hn1 : ~ In (inboxId imp) (ids (List.map (setRole (Some CREW)) l1))).
  { rewrite ids_setRole. rewrite ids_app in Hnd. simpl in Hnd.
    apply NoDup_app in Hnd as (_ & Hdisj & _). intros Hin.
    apply (Hdisj (inboxId imp)); [apply list_elem_of_In; exact Hin | left]. }
  exists (setRole (Some IMPOSTOR) imp). simpl.
  split; [reflexivity|]. split.
  { unfold getPlayer. simpl. rewrite lookupPlayer_app_skip by exact Hn1.
    apply lookupPlayer_head. reflexivity. }
  split; [reflexivity|]. split.
  { intros q Hq Hr. apply in_app_or in Hq as [Hq|[Hq|Hq]].
    - apply in_map_iff in Hq as (p & <- & _). discriminate.
    - symmetry. exact Hq.
    - apply in_map_iff in Hq as (p & <- & _). discriminate. }
  rewrite !countRole_app.
  change (countRole IMPOSTOR (setRole (Some IMPOSTOR) imp :: ?l))
    with (S (countRole IMPOSTOR l)).
  change (countRole CREW (setRole (Some IMPOSTOR) imp :: ?l))
    with (countRole CREW l).
  rewrite Hc1, Hi1, Hc2, Hi2, List.length_app. simpl.
  split; [reflexivity|]. split; [lia|]. split; [lia|]. split.
  { rewrite !ids_app. simpl. rewrite !ids_setRole. reflexivity. }
  split; [exact Hmin | reflexivity].
Qed.

Lemma assignRoles_one_adversary_witness :
  exists imp,
    impostorInboxId sampleAssigned = Some (inboxId imp)
    /\ getPlayer sampleAssigned (inboxId imp) = Some imp
    /\ role imp = Some IMPOSTOR
    /\ (forall q, In q (players sampleAssigned) -> role q = Some IMPOSTOR -> q = imp)
    /\ countRole IMPOSTOR (players sampleAssigned) = 1%nat
    /\ (countRole CREW (players sampleAssigned) + 1 = length (players sampleLobby))%nat
    /\ (countRole IMPOSTOR (players sampleAssigned)
        + countRole CREW (players sampleAssigned)
        = length (players sampleLobby))%nat
    /\ ids (players sampleAssigned) = ids (players sampleLobby)
    /\ MIN_PLAYERS_TO_START sampleConfig <= rosterSize sampleLobby
    /\ state sampleAssigned = ASSIGN_ROLES.
Proof.
  apply (assignRoles_one_adversary sampleConfig 8000 (1 # 2) sampleLobby).
  - apply (bool_decide_unpack _). vm_compute. exact I.
  - vm_compute. reflexivity.
Defined.

(** ** The tally *)

Lemma countOf_bump t k counts :
  countOf t (bump k counts) = countOf t counts + (if k =? t then 1 else 0).
Proof.
  unfold countOf. induction counts as [|[k' n] rest IH]; simpl.
  - destruct (k =? t); reflexivity.
  - destruct (String.eqb_spec k' k) as [->|Hk]; simpl.
    + destruct (k =? t); [reflexivity | lia].
    + destruct (String.eqb_spec k' t) as [->|Ht]; [|exact IH].
      destruct (String.eqb_spec k t) as [->|_]; [contradiction | lia].
Qed.

Lemma bump_keys k counts :
  List.map fst (bump k counts)
  = if List.existsb (fun e => fst e =? k) counts
    then List.map fst counts else List.map fst counts ++ [k].
Proof.
  induction counts as [|[k' n] rest IH]; simpl; [reflexivity|].
  destruct (String.eqb_spec k' k) as [->|Hk]; simpl; [reflexivity|].
  rewrite IH. destruct (List.existsb _ rest); reflexivity.
Qed.

Lemma bump_entries k counts e :
  In e (bump k counts) ->
  (fst e = k /\ (e = (k, 1) \/ exists n, In (k, n) counts /\ e = (k, n + 1)))
  \/ In e counts.
Proof.
  induction counts as [|[k' n] rest IH]; simpl.
  - intros [<-|[]]. left. split; [reflexivity | left; reflexivity].
  - destruct (String.eqb_spec k' k) as [->|Hk]; simpl.
    + intros [<-|Hin]; [|right; right; exact Hin].
      left. split; [reflexivity|]. right. exists n. split; [left|]; reflexivity.
    + intros [<-|Hin]; [right; left; reflexivity|].
      destruct (IH Hin) as [(He & [->|(m & Hm & ->)])|Hr].
      * left. split; [reflexivity | left; reflexivity].
      * left. split; [reflexivity|]. right. exists m. split; [right; exact Hm | reflexivity].
      * right. right. exact Hr.
Qed.

Lemma countsOf_nil : countsOf [] [].
Proof.
  split; [constructor|]. split; [intros k n []|]. reflexivity.
Qed.

Lemma votesForb_counted t p :
  t <> "" ->
  votesForb t p = counted p && (Js.orEmpty (voteTarget p) =? t).
Proof.
  intros Ht. unfold votesForb, counted.
  destruct (isAlive p), (voted p); simpl; try reflexivity.
  destruct (voteTarget p) as [k|]; simpl.
  - destruct (String.eqb_spec k t) as [->|Hk].
    + rewrite bool_decide_eq_true_2 by reflexivity.
      destruct (String.eqb_spec t ""); [contradiction | reflexivity].
    + rewrite bool_decide_eq_false_2 by congruence. rewrite andb_false_r. reflexivity.
  - reflexivity.
Qed.

Lemma countsOf_step seen counts p :
  countsOf seen counts -> countsOf (seen ++ [p]) (countStep counts p).
Proof.
  intros (Hnd & Hpos & Hcnt). unfold countStep.
  destruct (counted p) eqn:Hc.
  - assert (Hk : Js.orEmpty (voteTarget p) <> "").
    { unfold counted in Hc. apply andb_true_iff in Hc as [_ Ht].
      destruct (voteTarget p) as [k|]; [|discriminate]. simpl in *.
      destruct (String.eqb_spec k ""); [discriminate | assumption]. }
    set (k := Js.orEmpty (voteTarget p)) in *.
    split; [|split].
    + rewrite bump_keys. destruct (List.existsb _ counts) eqn:Hex; [exact Hnd|].
      apply NoDup_app. split; [exact Hnd|]. split; [|apply NoDup_singleton].
      intros x Hx Hx'. apply list_elem_of_In in Hx. apply list_elem_of_In in Hx'.
      destruct Hx' as [<-|[]]. apply in_map_iff in Hx as (e & He & Hin).
      assert (List.existsb (fun e => fst e =? k) counts = true) as Habs.
      { apply existsb_exists. exists e. split; [exact Hin|]. apply String.eqb_eq. exact He. }
      congruence.
    + intros k' n Hin. apply bump_entries in Hin as [(He & [Heq|(m & Hm & Heq)])|Hin].
      * injection Heq as -> ->. split; [exact Hk | lia].
      * injection Heq as -> ->. destruct (Hpos _ _ Hm). split; [exact Hk | lia].
      * apply (Hpos _ _ Hin).
    + intros t Ht. rewrite countOf_bump, (Hcnt t Ht), List.filter_app, List.length_app.
      simpl. rewrite (votesForb_counted t p Ht), Hc. simpl.
      fold k. destruct (k =? t); simpl; lia.
  - split; [exact Hnd|]. split; [exact Hpos|].
    intros t Ht. rewrite (Hcnt t Ht), List.filter_app, List.length_app. simpl.
    rewrite (votesForb_counted t p Ht), Hc. simpl. lia.
Qed.

Lemma voteCounts_countsOf ps : countsOf ps (voteCounts ps).
Proof.
  unfold voteCounts. change (fun counts player => _) with countStep.
  induction ps as [|p ps IH] using rev_ind; [apply countsOf_nil|].
  rewrite List.fold_left_app. simpl. apply countsOf_step. exact IH.
Qed.

Lemma countOf_entry counts k n :
  NoDup (List.map fst counts) -> In (k, n) counts -> countOf k counts = n.
Proof.
  unfold countOf. induction counts as [|[k' n'] rest IH]; simpl; [intros _ []|].
  intros Hnd Hin. apply NoDup_cons in Hnd as [Hn Hnd].
  destruct (String.eqb_spec k' k) as [->|Hk]; simpl.
  - destruct Hin as [Heq|Hin]; [injection Heq as ->; reflexivity|].
    exfalso. apply Hn. apply list_elem_of_In.
    change k with (fst (k, n)). apply in_map. exact Hin.
  - destruct Hin as [Heq|Hin]; [injection Heq as -> _; contradiction|].
    apply IH; assumption.
Qed.

Lemma countOf_positive counts t :
  0 < countOf t counts -> exists n, In (t, n) counts.
Proof.
  unfold countOf. destruct (List.find _ counts) as [[k n]|] eqn:Hf; [|lia].
  apply List.find_some in Hf as [Hin He]. simpl in He.
  apply String.eqb_eq in He as ->. intros _. exists n. exact Hin.
Qed.

(** *** The stable descending sort puts an entry with the most votes first *)

Lemma insertDesc_In x l y : In y (insertDesc x l) <-> y = x \/ In y l.
Proof.
  induction l as [|z l IH]; simpl; [intuition congruence|].
  destruct (votes z <=? votes x)%Z; simpl; [intuition congruence|].
  rewrite IH. intuition congruence.
Qed.

Lemma sortDesc_In l y : In y (sortDesc l) <-> In y l.
Proof.
  unfold sortDesc. induction l as [|x l IH]; simpl; [reflexivity|].
  rewrite insertDesc_In, IH. intuition congruence.
Qed.













(** [tallyAndEliminate] carries out the decision [voteElimination]. *)
Lemma tallyAndEliminate_decision cfg env s :
  match voteElimination (game s) with
  | None =>
      game (fst (tallyAndEliminate cfg env s)) = game s
      /\ snd (tallyAndEliminate cfg env s) = inr true
  | Some t =>
      exists p, getPlayer (game s) t = Some p
        /\ tallyAndEliminate cfg env s
           = if gameEnded (checkWinCondition (eliminatePlayer t (game s)))
             then (endGame cfg env
                     (winner (checkWinCondition (eliminatePlayer t (game s))))
                   ;; ret false) (afterElimination t p s)
             else (afterElimination t p s, inr true)
  end.
Proof.
  unfold voteElimination, tallyAndEliminate, aliveCount, afterElimination.
  unfold mbind, Flow_bind, read, write, send, ret, mret, Flow_ret. simpl.
  destruct (getVoteResults (game s)) as [|top rest]; [split; reflexivity|].
  destruct (Js.ceilHalf _ <=? votes top)%Z; [|split; reflexivity].
  destruct (getPlayer (game s) (target top)) as [p|] eqn:Hp; [|split; reflexivity].
  exists p. split; [exact Hp|]. simpl.
  destruct (gameEnded (checkWinCondition (eliminatePlayer (target top) (game s))));
    reflexivity.
Qed.

(** ** Lookups after a write *)

Lemma lookupPlayer_map id F ps :
  (forall q, inboxId (F q) = inboxId q) ->
  lookupPlayer id (List.map F ps) = option_map F (lookupPlayer id ps).
Proof.
  intros HF. unfold lookupPlayer. induction ps as [|q ps IH]; simpl; [reflexivity|].
  rewrite HF. destruct (inboxId q =? id); [reflexivity | exact IH].
Qed.

Lemma lookupPlayer_updatePlayer id id' f ps :
  (forall q, inboxId (f q) = inboxId q) ->
  lookupPlayer id (updatePlayer id' f ps)
  = if id' =? id then option_map f (lookupPlayer id ps) else lookupPlayer id ps.
Proof.
  intros Hf. unfold lookupPlayer.
  induction ps as [|q ps IH]; simpl; [destruct (id' =? id); reflexivity|].
  destruct (String.eqb_spec (inboxId q) id') as [He|He]; simpl.
  - rewrite Hf. destruct (String.eqb_spec (inboxId q) id) as [Hi|Hi].
    + rewrite <- He, Hi, String.eqb_refl. reflexivity.
    + destruct (String.eqb_spec id' id); [congruence | reflexivity].
  - destruct (String.eqb_spec (inboxId q) id) as [Hi|Hi]; [|exact IH].
    destruct (String.eqb_spec id' id) as [Hii|_]; [congruence | reflexivity].
Qed.

(** ** Kill attempts: cooldown and counting *)

Lemma findTarget_alive ms ident g t :
  findTarget ms ident g = Some t -> In t (players g) /\ isAlive t = true.
Proof.
  unfold findTarget. intros H.
  assert (Hfind : forall (P : Player -> bool) q,
             List.find (fun p => P p && isAlive p) (players g) = Some q ->
             In q (players g) /\ isAlive q = true).
  { intros P q Hq. apply List.find_some in Hq as [Hin Hq].
    apply andb_true_iff in Hq as [_ Hq]. split; assumption. }
  destruct (findByAddress ms ident g) as [q|] eqn:Hb.
  - injection H as <-. unfold findByAddress in Hb.
    destruct (Js.isAddress _); [|discriminate].
    destruct (Js.truthyStr _); [|discriminate].
    destruct ms as [l|]; [|discriminate].
    destruct (List.find _ l) as [m|]; [|discriminate].
    apply (Hfind _ _ Hb).
  - apply (Hfind _ _ H).
Qed.



(** ** What a step does to the roster *)

Lemma carried_refl b p : carried b p p.
Proof. unfold carried. split; [reflexivity|]. split; [lia|]. intros _. tauto. Qed.

Lemma carried_trans b p q r : carried b p q -> carried b q r -> carried b p r.
Proof.
  unfold carried. intros (Hi & Hk & Hv) (Hi' & Hk' & Hv').
  split; [congruence|]. split; [lia|]. intros Hb.
  specialize (Hv Hb). specialize (Hv' Hb). tauto.
Qed.

Lemma carried_setRole b r p : carried b p (setRole r p).
Proof. exact (carried_refl b p). Qed.

Lemma carried_setIsAlive b a p : carried b p (setIsAlive a p).
Proof. exact (carried_refl b p). Qed.

Lemma carried_setCompletedTasks b n p : carried b p (setCompletedTasks n p).
Proof. exact (carried_refl b p). Qed.

Lemma carried_setKill b n t p : killAttempts p <= n -> carried b p (setKill n t p).
Proof.
  intros Hn. unfold carried. simpl. split; [reflexivity|]. split; [exact Hn|].
  intros _. tauto.
Qed.

Lemma carried_setVote_cast b t p : carried b p (setVote true (Some t) p).
Proof.
  unfold carried. simpl. split; [reflexivity|]. split; [lia|]. intros _.
  split; [reflexivity | discriminate].
Qed.

Lemma carried_setVote_reset v t p : carried false p (setVote v t p).
Proof.
  unfold carried. simpl. split; [reflexivity|]. split; [lia | discriminate].
Qed.

Lemma Forall2_carried_refl b ps : Forall2 (carried b) ps ps.
Proof. induction ps; constructor; [apply carried_refl | assumption]. Qed.

Lemma Forall2_carried_trans b l1 l2 l3 :
  Forall2 (carried b) l1 l2 -> Forall2 (carried b) l2 l3 -> Forall2 (carried b) l1 l3.
Proof.
  intros H. revert l3. induction H as [|x y l1 l2 Hxy _ IH]; intros l3 H'.
  - inversion H'. constructor.
  - inversion H' as [|? z ? l3' Hyz Hrest]; subst. constructor.
    + eapply carried_trans; eassumption.
    + apply IH. exact Hrest.
Qed.

Lemma Forall2_carried_map b (F : Player -> Player) ps :
  (forall q, carried b q (F q)) -> Forall2 (carried b) ps (List.map F ps).
Proof. intros HF. induction ps; simpl; constructor; [apply HF | assumption]. Qed.

Lemma Forall2_carried_update b id f ps :
  (forall p, lookupPlayer id ps = Some p -> carried b p (f p)) ->
  Forall2 (carried b) ps (updatePlayer id f ps).
Proof.
  unfold lookupPlayer. induction ps as [|q ps IH]; simpl; intros Hf; [constructor|].
  destruct (inboxId q =? id).
  - constructor; [apply Hf; reflexivity | apply Forall2_carried_refl].
  - constructor; [apply carried_refl | apply IH; exact Hf].
Qed.

Lemma Forall2_carried_alter b (f : Player -> Player) i ps :
  (forall q, carried b q (f q)) -> Forall2 (carried b) ps (alter f i ps).
Proof.
  intros Hf. revert i. induction ps as [|q ps IH]; intros i; [constructor|].
  destruct i as [|i]; simpl.
  - constructor; [apply Hf | apply Forall2_carried_refl].
  - constructor; [apply carried_refl | apply IH].
Qed.

Lemma carried_lookup b ps ps' id p :
  Forall2 (carried b) ps ps' -> lookupPlayer id ps = Some p ->
  exists p', lookupPlayer id ps' = Some p' /\ carried b p p'.
Proof.
  unfold lookupPlayer. induction 1 as [|x y l l' Hxy _ IH]; simpl; [discriminate|].
  destruct Hxy as (Hi & Hrest). rewrite Hi.
  destruct (inboxId x =? id).
  - intros [= <-]. exists y. split; [reflexivity|]. split; [exact Hi | exact Hrest].
  - exact IH.
Qed.

Lemma lookupPlayer_app_found id l1 l2 p :
  lookupPlayer id l1 = Some p -> lookupPlayer id (l1 ++ l2) = Some p.
Proof.
  unfold lookupPlayer. induction l1 as [|q l1 IH]; simpl; [discriminate|].
  destruct (inboxId q =? id); [trivial | exact IH].
Qed.

Lemma lookupPlayer_delete id e ps :
  lookupPlayer id (deletePlayer e ps)
  = if e =? id then None else lookupPlayer id ps.
Proof.
  unfold lookupPlayer, deletePlayer. induction ps as [|q ps IH]; simpl.
  - destruct (e =? id); reflexivity.
  - destruct (String.eqb_spec (inboxId q) e) as [He|He]; simpl.
    + rewrite IH. destruct (String.eqb_spec e id) as [Hi|Hi]; [reflexivity|].
      destruct (String.eqb_spec (inboxId q) id); [congruence | reflexivity].
    + destruct (String.eqb_spec (inboxId q) id) as [Hi|Hi]; [|exact IH].
      destruct (String.eqb_spec e id); [congruence | reflexivity].
Qed.


(** The two shapes of a step that is no [startRound]: the roster entries are
    rewritten in place, or the session is in a state before the first round
    and the roster was emptied or received a newcomer (after an eviction or
    not). *)
Lemma run_shape cfg op g :
  startsRound op g = false ->
  (maxKillAttempts (run cfg op g) = maxKillAttempts g
   /\ Forall2 (carried (negb (isResetVotes op))) (players g) (players (run cfg op g)))
  \/ (beforeRounds (state (run cfg op g))
      /\ (players (run cfg op g) = []
          \/ exists base new,
               players (run cfg op g) = base ++ [new]
               /\ hasPlayer (inboxId new) (players g) = false
               /\ (base = players g \/ exists e, base = deletePlayer e (players g)))).
Proof.
  intros Hsr.
  assert (Hkeep : maxKillAttempts g = maxKillAttempts g
                  /\ Forall2 (carried (negb (isResetVotes op))) (players g) (players g))
    by (split; [reflexivity | apply Forall2_carried_refl]).
  destruct op; simpl in *; try discriminate.
  - (* createLobby *)
    unfold createLobby. branches; simpl; left; exact Hkeep.
  - (* addPlayer *)
    unfold addPlayer. branches; simpl; try (left; exact Hkeep); right;
      (split; [unfold beforeRounds; tauto|]); right.
    + eexists _, (newPlayer id name). split; [reflexivity|]. split; [assumption|].
      right. eexists. reflexivity.
    + eexists _, (newPlayer id name). split; [reflexivity|]. split; [assumption|].
      left. reflexivity.
    + eexists _, (newPlayer id name). split; [reflexivity|]. split; [assumption|].
      left. reflexivity.
  - (* assignRoles *)
    unfold assignRoles. branches; simpl; left; try exact Hkeep.
    split; [reflexivity|].
    eapply Forall2_carried_trans; [apply Forall2_carried_alter | apply Forall2_carried_map].
    + intros q. apply carried_setRole.
    + intros q. destruct (negb (inboxId q =? _)); [apply carried_setRole | apply carried_refl].
  - (* completeTask *)
    unfold completeTask. branches; simpl; left; try exact Hkeep.
    split; [reflexivity|]. apply Forall2_carried_update. intros q _.
    apply carried_setCompletedTasks.
  - (* attemptKill *)
    unfold attemptKill. branches; simpl; left; try exact Hkeep.
    + split; [reflexivity|].
      eapply Forall2_carried_trans; apply Forall2_carried_update.
      * intros q Hq. unfold getPlayer in *. 
        match goal with H : lookupPlayer impostorId (players g) = Some ?i |- _ =>
          rewrite H in Hq; injection Hq as <- end.
        apply carried_setKill. lia.
      * intros q _. apply carried_setIsAlive.
    + split; [reflexivity|]. apply Forall2_carried_update.
      intros q Hq. unfold getPlayer in *.
        match goal with H : lookupPlayer impostorId (players g) = Some ?i |- _ =>
          rewrite H in Hq; injection Hq as <- end.
        apply carried_setKill. lia.
  - (* castVote *)
    unfold castVote. branches; simpl; left; try exact Hkeep.
    split; [reflexivity|]. apply Forall2_carried_update. intros q _.
    apply carried_setVote_cast.
  - (* eliminatePlayer *)
    unfold eliminatePlayer. branches; simpl; left; try exact Hkeep.
    split; [reflexivity|]. apply Forall2_carried_update. intros q _.
    apply carried_setIsAlive.
  - (* advancePhase *)
    unfold advancePhase. destruct (state g); vm_compute in Hsr; try discriminate; simpl; left; exact Hkeep.
  - (* cleanup *)
    right. split; [unfold beforeRounds; tauto | left; reflexivity].
  - (* voteButton *)
    unfold voteButton. branches; simpl; left; try exact Hkeep;
      (split; [reflexivity|]); apply Forall2_carried_update; intros q _;
      apply carried_setVote_cast.
  - (* resetVotes *)
    left. split; [reflexivity|]. apply Forall2_carried_map. intros q.
    destruct (isAlive q); [apply carried_setVote_reset | apply carried_refl].
Qed.

Lemma run_carried cfg op g id p p' :
  startsRound op g = false ->
  getPlayer g id = Some p -> getPlayer (run cfg op g) id = Some p' ->
  carried (negb (isResetVotes op)) p p'.
Proof.
  unfold getPlayer. intros Hsr Hp Hp'.
  destruct (run_shape cfg op g Hsr) as [[_ Hf]|[_ [Hnil|(base & new & Hps & Hnew & Hbase)]]].
  - destruct (carried_lookup _ _ _ _ _ Hf Hp) as (q & Hq & Hc). congruence.
  - rewrite Hnil in Hp'. discriminate.
  - rewrite Hps in Hp'.
    assert (Hbase' : lookupPlayer id base = Some p
                     \/ lookupPlayer id base = None).
    { destruct Hbase as [->|(e & ->)]; [left; exact Hp|].
      rewrite lookupPlayer_delete. destruct (e =? id); [right; reflexivity | left; exact Hp]. }
    destruct Hbase' as [Hb|Hb].
    + rewrite (lookupPlayer_app_found _ _ _ _ Hb) in Hp'. injection Hp' as <-.
      apply carried_refl.
    + exfalso. rewrite lookupPlayer_app_skip in Hp'
        by (apply lookupPlayer_none; exact Hb).
      apply lookupPlayer_some in Hp' as [[<-|[]] Hid].
      apply lookupPlayer_some in Hp as [Hin Hid'].
      assert (hasPlayer (inboxId new) (players g) = true) as Hhas.
      { apply hasPlayer_ids. rewrite Hid, <- Hid'. apply in_map. exact Hin. }
      congruence.
Qed.

Lemma run_beforeRounds cfg op g :
  startsRound op g = false -> beforeRounds (state g) ->
  beforeRounds (state (run cfg op g)).
Proof.
  intros Hsr Hb.
  destruct op; simpl in *; try discriminate;
    try (unfold createLobby, addPlayer, assignRoles, completeTask, attemptKill,
           castVote, eliminatePlayer, voteButton, resetVotes;
         branches; simpl; try exact Hb; unfold beforeRounds; tauto).
  - unfold advancePhase. unfold beforeRounds in Hb.
    destruct (state g) eqn:Hs; simpl; try (unfold beforeRounds; tauto);
      decompose [or] Hb; discriminate.
Qed.

Lemma attemptKill_rejects ms now rand id ident g :
  capped id g \/ beforeRounds (state g) ->
  rejectedUnchanged g (attemptKill ms now rand id ident g).
Proof.
  intros Hinv. unfold rejectedUnchanged, attemptKill.
  branches; simpl; try (split; reflexivity); exfalso;
  (destruct Hinv as [(q & Hp & Hle)|Hb];
    [ match goal with H : getPlayer _ _ = Some ?i |- _ =>
        rewrite H in Hp; injection Hp as -> end;
      match goal with H : (_ <=? _)%Z = false |- _ => apply Z.leb_gt in H; lia end
    | unfold beforeRounds in Hb;
      match goal with H : negb (isKillPhase _) = false |- _ =>
        decompose [or] Hb;
        match goal with E : state _ = _ |- _ => rewrite E in H; discriminate H end
      end ]).
Qed.

Lemma capped_step cfg op g id :
  startsRound op g = false ->
  capped id g \/ beforeRounds (state g) ->
  capped id (run cfg op g) \/ beforeRounds (state (run cfg op g)).
Proof.
  intros Hsr [(p & Hp & Hle)|Hb]; [|right; apply run_beforeRounds; assumption].
  destruct (run_shape cfg op g Hsr) as [[Hmax Hf]|[Hb _]]; [|right; exact Hb].
  left. destruct (carried_lookup _ _ _ _ _ Hf Hp) as (p' & Hp' & (_ & Hk & _)).
  exists p'. split; [exact Hp'|]. rewrite Hmax. lia.
Qed.

Lemma capped_trace cfg ops g id :
  noStartRound cfg ops g ->
  capped id g \/ beforeRounds (state g) ->
  capped id (runAll cfg ops g) \/ beforeRounds (state (runAll cfg ops g)).
Proof.
  revert g. induction ops as [|op ops IH]; intros g Hno Hinv; [exact Hinv|].
  destruct Hno as [Hsr Hno]. simpl. apply IH; [exact Hno|].
  apply capped_step; assumption.
Qed.

Lemma startRound_lookup gen r g g' id p :
  startRound gen r g = inr g' -> getPlayer g id = Some p ->
  getPlayer g' id = Some (if isAlive p then resetRound p else p).
Proof.
  unfold startRound, getPlayer. destruct (_ || _); [discriminate|].
  intros [= <-] Hp. simpl.
  rewrite lookupPlayer_map by (intros q; destruct (isAlive q); reflexivity).
  rewrite Hp. reflexivity.
Qed.

Lemma resetVotes_lookup g id p :
  getPlayer g id = Some p ->
  getPlayer (resetVotes g) id = Some (if isAlive p then setVote false None p else p).
Proof.
  unfold resetVotes, getPlayer. intros Hp. simpl.
  rewrite lookupPlayer_map by (intros q; destruct (isAlive q); reflexivity).
  rewrite Hp. reflexivity.
Qed.

(** C5. Once the adversary's [killAttempts] has reached [maxKillAttempts],
    every later [attemptKill] by them is rejected and writes nothing, at any
    time of the clock, for as long as no step runs [startRound]. No step other
    than [startRound] lowers the [killAttempts] of a roster entry, and
    [startRound] sets it to 0 for the players still alive and leaves it for
    the others. *)
Theorem kill_cap_until_startRound (cfg : Config) :
  (forall ops g id ms now rand ident,
      capped id g -> noStartRound cfg ops g ->
      rejectedUnchanged (runAll cfg ops g)
        (attemptKill ms now rand id ident (runAll cfg ops g)))
  /\ (forall op g id p p',
        startsRound op g = false ->
        getPlayer g id = Some p -> getPlayer (run cfg op g) id = Some p' ->
        killAttempts p <= killAttempts p')
  /\ (forall gen r g g' id p,
        startRound gen r g = inr g' -> getPlayer g id = Some p ->
        exists p', getPlayer g' id = Some p'
          /\ killAttempts p' = if isAlive p then 0 else killAttempts p).
Proof.
  split; [|split].
  - intros ops g id ms now rand ident Hc Hno. apply attemptKill_rejects.
    apply capped_trace; [exact Hno | left; exact Hc].
  - intros op g id p p' Hsr Hp Hp'.
    destruct (run_carried cfg op g id p p' Hsr Hp Hp') as (_ & Hk & _). exact Hk.
  - intros gen r g g' id p Hs Hp. eexists. split; [eapply startRound_lookup; eassumption|].
    destruct (isAlive p); reflexivity.
Qed.

Lemma kill_cap_until_startRound_witness :
  capped "d" sampleCapped
  /\ rejectedUnchanged
       (runAll sampleConfig [OpCastVote "a" "Dan"; OpEliminatePlayer "e"] sampleCapped)
       (attemptKill None 900000 0 "d" "Fay"
          (runAll sampleConfig [OpCastVote "a" "Dan"; OpEliminatePlayer "e"] sampleCapped))
  /\ message (snd (attemptKill None 900000 0 "d" "Fay"
                     (runAll sampleConfig [OpCastVote "a" "Dan"; OpEliminatePlayer "e"]
                        sampleCapped)))
     = MaxAttemptsReached.
Proof.
  assert (Hc : capped "d" sampleCapped).
  { exists (setKill 2 (Some 340000) sampleDan). split; vm_compute; congruence. }
  split; [exact Hc|]. split; [|vm_compute; reflexivity].
  pose proof (proj1 (kill_cap_until_startRound sampleConfig)
                [OpCastVote "a" "Dan"; OpEliminatePlayer "e"]
                sampleCapped "d" None 900000 0%Q "Fay" Hc) as H.
  apply H. vm_compute. tauto.
Defined.

(** ** Lobby overflow *)

Lemma find_rev_split {A : Type} (P : A -> bool) (l : list A) (x : A) :
  List.find P (rev l) = Some x ->
  exists l1 l2, l = l1 ++ x :: l2 /\ P x = true
                /\ Forall (fun y => P y = false) l2.
Proof.
  induction l as [|a l IH] using rev_ind; [discriminate|].
  rewrite rev_app_distr. simpl. destruct (P a) eqn:Ha.
  - intros [= <-]. exists l, []. split; [reflexivity|]. split; [exact Ha | constructor].
  - intros H. destruct (IH H) as (l1 & l2 & -> & Hx & Hall).
    exists l1, (l2 ++ [a]). split; [rewrite <- app_assoc; reflexivity|].
    split; [exact Hx|]. apply Forall_app. split; [exact Hall|].
    constructor; [exact Ha | constructor].
Qed.

Lemma find_rev_exists {A : Type} (P : A -> bool) (l : list A) :
  (exists x, In x l /\ P x = true) -> exists y, List.find P (rev l) = Some y.
Proof.
  intros (x & Hin & Hx). destruct (List.find P (rev l)) as [y|] eqn:Hf;
    [exists y; reflexivity|].
  exfalso. apply in_rev in Hin.
  pose proof (List.find_none _ _ Hf x Hin) as Hn. congruence.
Qed.

Lemma deletePlayer_unique l1 e l2 :
  NoDup (ids (l1 ++ e :: l2)) ->
  deletePlayer (inboxId e) (l1 ++ e :: l2) = l1 ++ l2.
Proof.
  intros Hnd. rewrite ids_app in Hnd. simpl in Hnd.
  apply NoDup_app in Hnd as (_ & Hdisj & Hnd2).
  apply NoDup_cons in Hnd2 as [Hn2 _].
  assert (Hkeep : forall l, ~ In (inboxId e) (ids l) -> deletePlayer (inboxId e) l = l).
  { induction l as [|q l IH]; simpl; [reflexivity|]. intros Hn.
    destruct (String.eqb_spec (inboxId q) (inboxId e)) as [He|He]; simpl.
    - exfalso. apply Hn. left. exact He.
    - f_equal. apply IH. intros Hin. apply Hn. right. exact Hin. }
  unfold deletePlayer in *. rewrite List.filter_app. simpl.
  rewrite String.eqb_refl. simpl. f_equal.
  - apply Hkeep. intros Hin. apply (Hdisj (inboxId e)); [apply list_elem_of_In; exact Hin | left].
  - apply Hkeep. intros Hin. apply Hn2. apply list_elem_of_In. exact Hin.
Qed.

(** C6. When a player whose id is not yet present joins a roster that
    already holds [MAX_PLAYERS] players, in a lobby state and before the
    deadline, [addPlayer] removes the entry added last among those whose id
    is not the hosting agent's (ids are compared without regard to case),
    appends the newcomer and returns the removed player. An entry under the
    agent's id is skipped by the search and stays in the roster. *)
Theorem addPlayer_evicts_newest_non_agent agent now id name g :
  state g = LOBBY_CREATED \/ state g = WAITING_FOR_PLAYERS ->
  hasPlayer id (players g) = false ->
  deadlinePassed now g = false ->
  MAX_PLAYERS <= rosterSize g ->
  rosterUnique g ->
  (exists q, In q (players g) /\ isAgent agent (inboxId q) = false) ->
  exists before evicted after,
    players g = before ++ evicted :: after
    /\ isAgent agent (inboxId evicted) = false
    /\ Forall (fun q => isAgent agent (inboxId q) = true) after
    /\ addPlayer agent now id name g
       = (withState WAITING_FOR_PLAYERS
            (withPlayers (before ++ after ++ [newPlayer id name]) g),
          mkJoinResult true (Some evicted))
    /\ rosterSize (fst (addPlayer agent now id name g)) = rosterSize g
    /\ (forall q, In q (players g) -> isAgent agent (inboxId q) = true ->
          In q (players (fst (addPlayer agent now id name g)))).
Proof.
  intros Hst Hnew Hdl Hfull Hnd (q & Hq & Hqa).
  destruct (find_rev_exists (fun p => negb (isAgent agent (inboxId p))) (players g))
    as (e & He).
  { exists q. split; [exact Hq|]. rewrite Hqa. reflexivity. }
  destruct (find_rev_split _ _ _ He) as (l1 & l2 & Hps & Hea & Hall).
  apply negb_true_iff in Hea.
  exists l1, e, l2. split; [exact Hps|]. split; [exact Hea|]. split.
  { eapply Forall_impl; [exact Hall|]. simpl. intros a Ha.
    apply negb_false_iff in Ha. exact Ha. }
  assert (Hadd : addPlayer agent now id name g
                 = (withState WAITING_FOR_PLAYERS
                      (withPlayers (l1 ++ l2 ++ [newPlayer id name]) g),
                    mkJoinResult true (Some e))).
  { unfold addPlayer, lastNonAgent. rewrite Hnew, Hdl, He.
    destruct (Z.leb_spec MAX_PLAYERS (rosterSize g)); [|lia].
    assert (Hg : negb (bool_decide (state g = LOBBY_CREATED))
                 && negb (bool_decide (state g = WAITING_FOR_PLAYERS)) = false).
    { destruct Hst as [-> | ->]; reflexivity. }
    rewrite Hg. unfold rosterUnique in Hnd. rewrite Hps in Hnd |- *.
    rewrite (deletePlayer_unique _ _ _ Hnd), <- app_assoc. reflexivity. }
  split; [exact Hadd|]. rewrite Hadd. simpl. split.
  - unfold rosterSize. simpl. rewrite Hps, !List.length_app. simpl. lia.
  - intros a Ha Haa. rewrite Hps in Ha. apply in_app_or in Ha as [Ha|[<-|Ha]].
    + apply in_or_app. left. exact Ha.
    + congruence.
    + apply in_or_app. right. apply in_or_app. left. exact Ha.
Qed.

Lemma addPlayer_evicts_newest_non_agent_witness :
  exists before evicted after,
    players sampleHostedLobby = before ++ evicted :: after
    /\ isAgent "agent" (inboxId evicted) = false
    /\ Forall (fun q => isAgent "agent" (inboxId q) = true) after
    /\ addPlayer "agent" 9000 "g" "Gus" sampleHostedLobby
       = (withState WAITING_FOR_PLAYERS
            (withPlayers (before ++ after ++ [newPlayer "g" "Gus"]) sampleHostedLobby),
          mkJoinResult true (Some evicted))
    /\ rosterSize (fst (addPlayer "agent" 9000 "g" "Gus" sampleHostedLobby))
       = rosterSize sampleHostedLobby
    /\ (forall q, In q (players sampleHostedLobby) ->
          isAgent "agent" (inboxId q) = true ->
          In q (players (fst (addPlayer "agent" 9000 "g" "Gus" sampleHostedLobby)))).
Proof.
  apply (addPlayer_evicts_newest_non_agent "agent" 9000 "g" "Gus" sampleHostedLobby).
  - right. vm_compute. reflexivity.
  - vm_compute. reflexivity.
  - vm_compute. reflexivity.
  - vm_compute. congruence.
  - apply (bool_decide_unpack _). vm_compute. exact I.
  - exists (newPlayer "a" "Ann"). split; vm_compute; [left; reflexivity | reflexivity].
Defined.

Example hosted_lobby_evicts_eve :
  snd (addPlayer "agent" 9000 "g" "Gus" sampleHostedLobby)
  = mkJoinResult true (Some (newPlayer "e" "Eve"))
  /\ ids (players (fst (addPlayer "agent" 9000 "g" "Gus" sampleHostedLobby)))
     = ["a"; "b"; "c"; "d"; "Agent"; "g"].
Proof. split; vm_compute; reflexivity. Qed.

(** ** Where the per-round fields are reset *)

Lemma startVotingPhase_resets env r s :
  Js.truthyStr (lobbyGroupId (game s)) = true -> groupFound env = true ->
  game (fst (startVotingPhase env r s)) = resetVotes (game s)
  /\ snd (startVotingPhase env r s) = inr tt.
Proof.
  intros Hl Hg. unfold startVotingPhase, withLobbyGroup.
  unfold mbind, Flow_bind, read, write, send, setPhaseTimer, ret, mret, Flow_ret.
  simpl. rewrite Hl, Hg. simpl. split; reflexivity.
Qed.

(** C7, as the code has it. For a living player [startRound] resets
    [killAttempts], [voted] and [voteTarget]; the entry into the voting phase
    ([startVotingPhase]) resets [voted] and [voteTarget] once more and leaves
    [killAttempts]; no other step lowers [killAttempts], and no step other
    than these two withdraws a recorded vote. *)
Theorem per_round_fields_reset_points (cfg : Config) :
  (forall gen r g g' id p,
      startRound gen r g = inr g' -> getPlayer g id = Some p -> isAlive p = true ->
      exists p', getPlayer g' id = Some p'
        /\ killAttempts p' = 0 /\ voted p' = false /\ voteTarget p' = None)
  /\ (forall g id p,
        getPlayer g id = Some p -> isAlive p = true ->
        exists p', getPlayer (resetVotes g) id = Some p'
          /\ voted p' = false /\ voteTarget p' = None
          /\ killAttempts p' = killAttempts p)
  /\ (forall env r s,
        Js.truthyStr (lobbyGroupId (game s)) = true -> groupFound env = true ->
        game (fst (startVotingPhase env r s)) = resetVotes (game s))
  /\ (forall op g id p p',
        startsRound op g = false ->
        getPlayer g id = Some p -> getPlayer (run cfg op g) id = Some p' ->
        killAttempts p <= killAttempts p'
        /\ (isResetVotes op = false ->
              (voted p = true -> voted p' = true)
              /\ (voteTarget p <> None -> voteTarget p' <> None))).
Proof.
  split; [|split; [|split]].
  - intros gen r g g' id p Hs Hp Ha.
    rewrite (startRound_lookup _ _ _ _ _ _ Hs Hp), Ha.
    eexists. split; [reflexivity|]. repeat split.
  - intros g id p Hp Ha. rewrite (resetVotes_lookup _ _ _ Hp), Ha.
    eexists. split; [reflexivity|]. repeat split.
  - intros env r s Hl Hg. apply startVotingPhase_resets; assumption.
  - intros op g id p p' Hsr Hp Hp'.
    destruct (run_carried cfg op g id p p' Hsr Hp Hp') as (_ & Hk & Hv).
    split; [exact Hk|]. intros Hno. apply Hv. rewrite Hno. reflexivity.
Qed.

(** C7 as stated fails: in the voting phase of round 1, after Ann has voted,
    the reset loop of [startVotingPhase] withdraws her vote, and it is no
    [startRound]. *)
Lemma votes_reset_on_voting_entry : ~ resetOnlyAtStartRound sampleConfig.
Proof.
  intros H.
  assert (Hp : getPlayer sampleVoted "a"
               = Some (setVote true (Some "d") (setRole (Some CREW) (newPlayer "a" "Ann"))))
    by (vm_compute; reflexivity).
  assert (Hp' : getPlayer (run sampleConfig OpResetVotes sampleVoted) "a"
                = Some (setRole (Some CREW) (newPlayer "a" "Ann")))
    by (vm_compute; reflexivity).
  destruct (H OpResetVotes sampleVoted "a" _ _ eq_refl Hp eq_refl Hp') as (_ & Hv & _).
  specialize (Hv eq_refl). discriminate Hv.
Qed.

(** ** Votes for an eliminated player *)

(** C8 on the code. With Fay eliminated in the kill phase of round 1, both
    [castVote] and the vote button record her as Ann's vote target; three
    such votes make the tally order her elimination again. The kill path, by
    contrast, does not resolve her. *)
Example dead_player_recorded_as_vote_target :
  option_map isAlive (getPlayer sampleVoting5 "f") = Some false
  /\ snd (castVote "a" "Fay" sampleVoting5) = true
  /\ option_map voteTarget (getPlayer (fst (castVote "a" "Fay" sampleVoting5)) "a")
     = Some (Some "f")
  /\ snd (voteButton Group "a" "vote-f" sampleVoting5) = VoteRecorded "Fay"
  /\ option_map voteTarget
       (getPlayer (fst (voteButton Group "a" "vote-f" sampleVoting5)) "a")
     = Some (Some "f")
  /\ voteElimination
       (runAll sampleConfig
          [OpCastVote "a" "Fay"; OpCastVote "b" "Fay"; OpCastVote "c" "Fay"]
          sampleVoting5) = Some "f"
  /\ message (snd (attemptKill None 400000 0 "d" "Fay" sampleAfterKill))
     = TargetNotFound "Fay".
Proof. repeat apply conj; vm_compute; reflexivity. Qed.

(** ** Changing a vote through the button *)

Lemma intentKind_vote t : intentKind (String.append "vote-" t) = VoteButton.
Proof. destruct t; vm_compute; reflexivity. Qed.

Lemma dropPrefix_vote t : Js.dropPrefix "vote-" (String.append "vote-" t) = t.
Proof. reflexivity. Qed.

(** C10. In a voting phase, for a living voter whose [voted] flag is set, a
    click on the vote button of a registered player [t], outside a direct
    conversation, overwrites [voteTarget] with [t] and leaves [voted] set,
    while [castVote] refuses every vote of that voter. *)
Theorem voteButton_changes_vote conv sender t g voter tp :
  isDM conv = false ->
  getPlayer g sender = Some voter -> isAlive voter = true -> voted voter = true ->
  isVotingPhase (state g) = true ->
  getPlayer g t = Some tp ->
  snd (voteButton conv sender (String.append "vote-" t) g) = VoteChanged (username tp)
  /\ getPlayer (fst (voteButton conv sender (String.append "vote-" t) g)) sender
     = Some (setVote true (Some t) voter)
  /\ forall name, castVote sender name g = (g, false).
Proof.
  intros Hdm Hv Ha Hvd Hph Ht. unfold voteButton, getState.
  rewrite intentKind_vote, dropPrefix_vote, Hdm, Ht, Hv, Ha, Hph, Hvd. simpl.
  split; [reflexivity|]. split.
  - unfold getPlayer in *. simpl. rewrite lookupPlayer_updatePlayer by reflexivity.
    rewrite String.eqb_refl, Hv. reflexivity.
  - intros name. unfold castVote. rewrite Hv, Ha, Hph, Hvd. reflexivity.
Qed.

Lemma voteButton_changes_vote_witness :
  snd (voteButton Group "a" (String.append "vote-" "e") sampleVoted) = VoteChanged "Eve"
  /\ getPlayer (fst (voteButton Group "a" (String.append "vote-" "e") sampleVoted)) "a"
     = Some (setVote true (Some "e")
               (setVote true (Some "d") (setRole (Some CREW) (newPlayer "a" "Ann"))))
  /\ forall name, castVote "a" name sampleVoted = (sampleVoted, false).
Proof.
  assert (Hv : getPlayer sampleVoted "a"
               = Some (setVote true (Some "d") (setRole (Some CREW) (newPlayer "a" "Ann"))))
    by (vm_compute; reflexivity).
  assert (Hph : isVotingPhase (state sampleVoted) = true) by (vm_compute; reflexivity).
  assert (Ht : getPlayer sampleVoted "e" = Some (setRole (Some CREW) (newPlayer "e" "Eve")))
    by (vm_compute; reflexivity).
  exact (voteButton_changes_vote Group "a" "e" sampleVoted _ _
           eq_refl Hv eq_refl eq_refl Hph Ht).
Defined.

(** ** Invariants of the session *)

Lemma rewritten_refl V ps q : rewritten V ps q q.
Proof. split; [reflexivity | left; reflexivity]. Qed.

Lemma rewritten_same V ps q q' :
  inboxId q' = inboxId q -> voteTarget q' = voteTarget q -> rewritten V ps q q'.
Proof. intros Hi Hv. split; [exact Hi | left; exact Hv]. Qed.

Lemma Forall2_same {A : Type} (R : A -> A -> Prop) (l : list A) :
  (forall q, R q q) -> Forall2 R l l.
Proof. intros HR. induction l; constructor; [apply HR | assumption]. Qed.

Lemma Forall2_map_self {A : Type} (R : A -> A -> Prop) (F : A -> A) (l : list A) :
  (forall q, R q (F q)) -> Forall2 R l (List.map F l).
Proof. intros HF. induction l; simpl; constructor; [apply HF | assumption]. Qed.

Lemma Forall2_updatePlayer (R : Player -> Player -> Prop) id f l :
  (forall q, R q q) -> (forall q, R q (f q)) -> Forall2 R l (updatePlayer id f l).
Proof.
  intros HR Hf. induction l as [|q l IH]; simpl; [constructor|].
  destruct (inboxId q =? id).
  - constructor; [apply Hf | apply Forall2_same; exact HR].
  - constructor; [apply HR | exact IH].
Qed.

Lemma Forall2_alter_self {A : Type} (R : A -> A -> Prop) (f : A -> A) i (l : list A) :
  (forall q, R q q) -> (forall q, R q (f q)) -> Forall2 R l (alter f i l).
Proof.
  intros HR Hf. revert i. induction l as [|q l IH]; intros i; [constructor|].
  destruct i as [|i]; simpl.
  - constructor; [apply Hf | apply Forall2_same; exact HR].
  - constructor; [apply HR | apply IH].
Qed.

Lemma Forall2_compose {A : Type} (R S : A -> A -> Prop) (l1 l2 l3 : list A) :
  (forall a b c, R a b -> S b c -> R a c) ->
  Forall2 R l1 l2 -> Forall2 S l2 l3 -> Forall2 R l1 l3.
Proof.
  intros Hc H. revert l3. induction H as [|x y l1 l2 Hxy _ IH]; intros l3 H'.
  - inversion H'. constructor.
  - inversion H' as [|? z ? l3' Hyz Hrest]; subst. constructor.
    + eapply Hc; eassumption.
    + apply IH. exact Hrest.
Qed.

Lemma rewritten_then V ps a b c :
  rewritten V ps a b -> rewritten False ps b c -> rewritten V ps a c.
Proof.
  intros (Hi & Hv) (Hi' & Hv'). split; [congruence|].
  destruct Hv' as [Hv'|[Hv'|(Hf & _)]]; [|right; left; exact Hv' | contradiction].
  rewrite Hv'. exact Hv.
Qed.

Lemma Forall2_rewritten_ids V ps l l' :
  Forall2 (rewritten V ps) l l' -> ids l' = ids l.
Proof.
  induction 1 as [|q q' l l' [Hi _] _ IH]; simpl; [reflexivity|].
  rewrite Hi, IH. reflexivity.
Qed.

Lemma Forall2_back {A : Type} (R : A -> A -> Prop) (l l' : list A) :
  Forall2 R l l' -> forall y, In y l' -> exists x, In x l /\ R x y.
Proof.
  induction 1 as [|a b l l' Hr _ IH]; simpl; [intros ? []|].
  intros y [<-|Hy].
  - exists a. split; [left; reflexivity | exact Hr].
  - destruct (IH y Hy) as (x & Hx & Hxy). exists x. split; [right; exact Hx | exact Hxy].
Qed.

(** A step that rewrites the roster in place keeps the invariant. *)
Lemma invariant_rewritten g g' :
  sessionInvariant g ->
  Forall2 (rewritten (~ inLobby (state g')) (players g)) (players g) (players g') ->
  (inLobby (state g') -> inLobby (state g)) ->
  sessionInvariant g'.
Proof.
  intros (Hnd & Hne & Hin & Hlobby) Hf Hst.
  pose proof (Forall2_rewritten_ids _ _ _ _ Hf) as Hids.
  unfold sessionInvariant, rosterUnique. rewrite Hids.
  split; [exact Hnd|]. split; [exact Hne|].
  pose proof (Forall2_back _ _ _ Hf) as Hback.
  split.
  - intros p' t Hp' Ht. destruct (Hback p' Hp') as (p & Hp & _ & [Hv|[Hv|(_ & u & Hu & Huin)]]).
    + apply (Hin p t Hp). congruence.
    + congruence.
    + congruence.
  - intros Hl p' Hp'. destruct (Hback p' Hp') as (p & Hp & _ & [Hv|[Hv|(Hno & _)]]).
    + rewrite Hv. apply (Hlobby (Hst Hl) p Hp).
    + exact Hv.
    + contradiction.
Qed.

Lemma deletePlayer_ids_incl e ps x : In x (ids (deletePlayer e ps)) -> In x (ids ps).
Proof.
  unfold ids, deletePlayer. intros H. apply in_map_iff in H as (p & <- & Hp).
  apply List.filter_In in Hp as [Hp _]. apply in_map. exact Hp.
Qed.

Lemma deletePlayer_NoDup e ps : NoDup (ids ps) -> NoDup (ids (deletePlayer e ps)).
Proof.
  unfold ids, deletePlayer. induction ps as [|p ps IH]; simpl; [trivial|].
  intros Hnd. apply NoDup_cons in Hnd as [Hn Hnd].
  destruct (negb (inboxId p =? e)); simpl; [|apply IH; exact Hnd].
  apply NoDup_cons. split; [|apply IH; exact Hnd].
  intros Hin. apply Hn. apply list_elem_of_In in Hin. apply list_elem_of_In.
  apply (deletePlayer_ids_incl e ps). exact Hin.
Qed.

(** A join keeps the invariant. *)
Lemma invariant_join g base new s' :
  sessionInvariant g -> inLobby (state g) ->
  (base = players g \/ exists e, base = deletePlayer e (players g)) ->
  hasPlayer (inboxId new) (players g) = false ->
  inboxId new <> "" -> voteTarget new = None ->
  sessionInvariant (withState s' (withPlayers (base ++ [new]) g)).
Proof.
  intros (Hnd & Hne & Hin & Hlobby) Hl Hbase Hnew Hid Hv.
  specialize (Hlobby Hl).
  assert (Hsub : forall x, In x (ids base) -> In x (ids (players g))).
  { destruct Hbase as [->|(e & ->)]; [trivial | apply deletePlayer_ids_incl]. }
  assert (Hsubp : forall p, In p base -> In p (players g)).
  { destruct Hbase as [->|(e & ->)]; [trivial|]. unfold deletePlayer. intros p Hp.
    apply List.filter_In in Hp as [Hp _]. exact Hp. }
  assert (Hndb : NoDup (ids base)).
  { destruct Hbase as [->|(e & ->)]; [exact Hnd | apply deletePlayer_NoDup; exact Hnd]. }
  assert (Hfresh : ~ In (inboxId new) (ids (players g))).
  { intros H. apply hasPlayer_ids in H. congruence. }
  assert (Hnone : forall p, In p (base ++ [new]) -> voteTarget p = None).
  { intros p Hp. apply in_app_or in Hp as [Hp|[<-|[]]]; [|exact Hv].
    apply Hlobby. apply Hsubp. exact Hp. }
  unfold sessionInvariant, rosterUnique. simpl. rewrite ids_app. simpl.
  split; [|split; [|split]].
  - apply NoDup_app. split; [exact Hndb|]. split; [|apply NoDup_singleton].
    intros x Hx Hx'. apply list_elem_of_In in Hx. apply list_elem_of_In in Hx'.
    destruct Hx' as [<-|[]]. apply Hfresh. apply Hsub. exact Hx.
  - intros H. apply in_app_or in H as [H|[H|[]]]; [apply Hne, Hsub, H | congruence].
  - intros p t Hp Ht. rewrite (Hnone p Hp) in Ht. discriminate.
  - intros _. exact Hnone.
Qed.

Lemma invariant_initial cfg : sessionInvariant (initialGame cfg).
Proof.
  unfold sessionInvariant, rosterUnique, noVotes. simpl.
  split; [constructor|]. split; [tauto|]. split; intros; contradiction.
Qed.

Lemma isVotingPhase_not_lobby s : isVotingPhase s = true -> ~ inLobby s.
Proof. unfold inLobby. destruct s; simpl; intros H Hl; decompose [or] Hl; discriminate. Qed.

Lemma startRound_invariant gen r g g' :
  startRound gen r g = inr g' -> sessionInvariant g -> sessionInvariant g'.
Proof.
  unfold startRound. destruct (Z.ltb_spec r 1) as [|H1]; simpl; [discriminate|].
  destruct (Z.ltb_spec MAX_ROUNDS r) as [|H3]; [discriminate|].
  intros [= <-] Hinv. apply (invariant_rewritten g); [exact Hinv | |]; simpl.
  - apply Forall2_map_self. intros q. destruct (isAlive q); [|apply rewritten_refl].
    split; [reflexivity | right; left; reflexivity].
  - unfold MAX_ROUNDS in H3. unfold getStateForRoundPhase, inLobby.
    destruct (Z.eqb_spec r 1); [intros Hl; decompose [or] Hl; discriminate|].
    destruct (Z.eqb_spec r 2); [intros Hl; decompose [or] Hl; discriminate|].
    destruct (Z.eqb_spec r 3); [intros Hl; decompose [or] Hl; discriminate|].
    lia.
Qed.

(** Every operation keeps the invariant. *)
Lemma run_invariant cfg op g :
  opWellFormed op -> sessionInvariant g -> sessionInvariant (run cfg op g).
Proof.
  intros Hop Hinv. destruct op; simpl in *.
  - (* createLobby *)
    unfold createLobby. destruct (decide (state g = IDLE)) as [Hs|]; simpl; [|exact Hinv].
    apply (invariant_rewritten g); [exact Hinv | apply Forall2_same, rewritten_refl |].
    simpl. intros _. left. exact Hs.
  - (* addPlayer *)
    unfold addPlayer.
    destruct (negb (bool_decide (state g = LOBBY_CREATED))
              && negb (bool_decide (state g = WAITING_FOR_PLAYERS))) eqn:Hg;
      [exact Hinv|].
    destruct (hasPlayer id (players g)) eqn:Hnew; [exact Hinv|].
    destruct (deadlinePassed now g); [exact Hinv|]. simpl.
    assert (Hl : inLobby (state g)).
    { unfold inLobby. apply andb_false_iff in Hg as [Hg|Hg];
        apply negb_false_iff, bool_decide_eq_true in Hg; tauto. }
    apply invariant_join; try assumption; try reflexivity.
    destruct (if (MAX_PLAYERS <=? rosterSize g)%Z then _ else _);
      [right; eexists; reflexivity | left; reflexivity].
  - (* assignRoles *)
    unfold assignRoles. destruct (_ || _); [exact Hinv|].
    destruct (arrayAt _ _) as [imp|]; [|exact Hinv]. simpl.
    apply (invariant_rewritten g); [exact Hinv | |];
      unfold withState, withImpostor, withPlayers; cbn [players state].
    + eapply Forall2_compose; [apply rewritten_then | |].
      * apply (Forall2_alter_self _ (setRole (Some IMPOSTOR)));
          [apply rewritten_refl | (intros; apply rewritten_same; reflexivity)].
      * apply Forall2_map_self. intros q.
        destruct (negb _); [apply rewritten_same; reflexivity | apply rewritten_refl].
    + unfold inLobby. intros Hl. decompose [or] Hl; discriminate.
  - (* startRound *)
    destruct (startRound gen r g) eqn:Hs; simpl; [exact Hinv|].
    eapply startRound_invariant; eassumption.
  - (* completeTask *)
    unfold completeTask. branches; simpl; try exact Hinv.
    apply (invariant_rewritten g); [exact Hinv | | trivial]; simpl.
    apply Forall2_updatePlayer; [apply rewritten_refl | (intros; apply rewritten_same; reflexivity)].
  - (* attemptKill *)
    unfold attemptKill. branches; cbn [fst]; try exact Hinv;
      (apply (invariant_rewritten g); [exact Hinv | | trivial]);
      unfold withEliminated, withPlayers; cbn [players state].
    + match goal with
      | |- Forall2 _ ?l (updatePlayer _ _ (updatePlayer ?i ?f ?l)) =>
          apply (Forall2_compose _ _ l (updatePlayer i f l) _ (rewritten_then _ _))
      end; (apply Forall2_updatePlayer; [apply rewritten_refl | (intros; apply rewritten_same; reflexivity)]).
    + apply Forall2_updatePlayer; [apply rewritten_refl | (intros; apply rewritten_same; reflexivity)].
  - (* castVote *)
    unfold castVote. branches; simpl; try exact Hinv.
    apply (invariant_rewritten g); [exact Hinv | | trivial]; simpl.
    apply Forall2_updatePlayer; [apply rewritten_refl|]. intros q.
    split; [reflexivity|]. right. right. split.
    + apply isVotingPhase_not_lobby.
      match goal with H : negb (isVotingPhase _) = false |- _ =>
        apply negb_false_iff in H; exact H end.
    + eexists. split; [reflexivity|].
      match goal with H : getPlayerByUsername _ _ = Some _ |- _ =>
        unfold getPlayerByUsername in H; apply List.find_some in H as [H _];
        apply in_map; exact H end.
  - (* eliminatePlayer *)
    unfold eliminatePlayer. branches; simpl; try exact Hinv.
    apply (invariant_rewritten g); [exact Hinv | | trivial]; simpl.
    apply Forall2_updatePlayer; [apply rewritten_refl | (intros; apply rewritten_same; reflexivity)].
  - (* advancePhase *)
    unfold advancePhase.
    destruct (state g) eqn:Hst; simpl; try exact Hinv;
      try (apply (invariant_rewritten g);
           [ exact Hinv
           | apply Forall2_same, rewritten_refl
           | simpl; unfold inLobby; intros Hl; decompose [or] Hl; discriminate ]).
    + apply (startRound_invariant gen 2 g); [reflexivity | exact Hinv].
    + apply (startRound_invariant gen 3 g); [reflexivity | exact Hinv].
  - (* cleanup *)
    apply invariant_initial.
  - (* voteButton *)
    unfold voteButton. branches; cbn [fst]; try exact Hinv;
      (apply (invariant_rewritten g); [exact Hinv | | trivial]);
      unfold withPlayers; cbn [players state];
      (apply Forall2_updatePlayer; [apply rewritten_refl|]); intros q;
      (split; [reflexivity|]); right; right; (split;
      [ apply isVotingPhase_not_lobby;
        match goal with H : negb (isVotingPhase _) = false |- _ =>
          apply negb_false_iff in H; exact H end
      | eexists; split; [reflexivity|];
        match goal with H : getPlayer _ (Js.dropPrefix _ _) = Some _ |- _ =>
          apply lookupPlayer_some in H as [H1 H2]; rewrite <- H2;
          apply in_map; exact H1 end ]).
  - (* resetVotes *)
    apply (invariant_rewritten g); [exact Hinv | | trivial]; simpl.
    apply Forall2_map_self. intros q. destruct (isAlive q); [|apply rewritten_refl].
    split; [reflexivity | right; left; reflexivity].
Qed.

Lemma runAll_invariant cfg ops g :
  Forall opWellFormed ops -> sessionInvariant g -> sessionInvariant (runAll cfg ops g).
Proof.
  intros Hops. revert g. induction Hops as [|op ops Hop _ IH]; intros g Hinv; [exact Hinv|].
  simpl. apply IH. apply run_invariant; assumption.
Qed.

(** In every session the operations reach, the roster has distinct ids and
    the recorded votes are well formed. *)
Theorem reachable_invariant cfg g :
  reachable cfg g -> sessionInvariant g /\ rosterUnique g /\ votesWellFormed g.
Proof.
  intros (ops & Hops & ->).
  pose proof (runAll_invariant cfg ops _ Hops (invariant_initial cfg)) as Hinv.
  split; [exact Hinv|]. destruct Hinv as (Hnd & Hne & Hin & _).
  split; [exact Hnd|]. intros p t Hp Ht. specialize (Hin p t Hp Ht).
  split; [|exact Hin]. intros ->. contradiction.
Qed.

(** ** Timeouts that fire outside their phase *)

(** The kill-phase callback checks the state first: outside a kill phase it
    writes nothing, schedules nothing and sends nothing. *)
Lemma kill_timeout_guarded cfg env r s :
  isKillPhase (state (game s)) = false -> fire cfg env (KillTimer r) s = (s, inr tt).
Proof.
  intros H. unfold fire, mbind, Flow_bind, read, getState. simpl. rewrite H.
  reflexivity.
Qed.

(** C9 on the code. The callbacks of the task, discussion and voting timers
    do not look at the state. In [sampleStale] the session has reached the
    voting state of round 1 through the kill handler's delayed advance while
    a discussion timer of round 1 is pending; when that timer fires, its
    callback advances the session into round 2, and the votes of round 1 are
    never tallied in a voting state. The task callback advances a session
    that is in a voting state, and the voting callback one that is in a kill
    state. *)
Example stale_timeouts_advance :
  state (game sampleStale) = ROUND_1_VOTING
  /\ pendingTimer (DiscussionTimer 1) sampleStale = true
  /\ state (game (step sampleConfig sampleEnv (EvFire (DiscussionTimer 1)) sampleStale))
     = ROUND_2_TASKS
  /\ round (game (step sampleConfig sampleEnv (EvFire (DiscussionTimer 1)) sampleStale))
     = 2
  /\ state (game (fst (fire sampleConfig sampleEnv (TaskTimer 1) sampleStale)))
     = ROUND_2_TASKS
  /\ state (game (fst (fire sampleConfig sampleEnv (VotingTimer 1)
                         (mkSession sampleKillPhase [] 0 []))))
     = ROUND_2_TASKS
  /\ fire sampleConfig sampleEnv (KillTimer 1) sampleStale = (sampleStale, inr tt).
Proof. repeat apply conj; vm_compute; reflexivity. Qed.

(** ** The scenario of the specification *)

(** In the kill phase of round 1 a target that does not exist is rejected as
    not found and the adversary herself as a self-target; the kill of Bob by
    button eliminates him at once, cancels the pending kill-phase timer and,
    after the handler's delay, moves the session to the discussion phase. *)
Example scenario_early_advance :
  state (game (scenarioSession 1)) = ROUND_1_KILL
  /\ timers (scenarioSession 1) = [KillTimer 1]
  /\ last (outbox (scenarioSession 2)) = Some (KillReply (TargetNotFound "Nobody"))
  /\ last (outbox (scenarioSession 3)) = Some (KillReply CannotKillSelf)
  /\ game (scenarioSession 3) = game (scenarioSession 1)
  /\ option_map isAlive (getPlayer (game (scenarioSession 4)) "b") = Some false
  /\ timers (scenarioSession 4) = []
  /\ delayed (scenarioSession 4) = 1%nat
  /\ state (game (scenarioSession 4)) = ROUND_1_KILL
  /\ state (game (scenarioSession 5)) = ROUND_1_DISCUSSION
  /\ timers (scenarioSession 5) = [DiscussionTimer 1].
Proof. repeat apply conj; vm_compute; reflexivity. Qed.

(** * Further properties of the engine *)

(** ** What every operation does to the roster *)

Lemma ids_updatePlayer id f ps :
  (forall q, inboxId (f q) = inboxId q) -> ids (updatePlayer id f ps) = ids ps.
Proof.
  intros Hf. unfold ids. induction ps as [|q ps IH]; simpl; [reflexivity|].
  destruct (inboxId q =? id); simpl; [rewrite Hf; reflexivity | rewrite IH; reflexivity].
Qed.

Lemma Forall2_updatePlayer_found (R : Player -> Player -> Prop) id f l :
  (forall q, R q q) ->
  (forall q, lookupPlayer id l = Some q -> R q (f q)) ->
  Forall2 R l (updatePlayer id f l).
Proof.
  unfold lookupPlayer. intros HR. induction l as [|q l IH]; simpl; intros Hf; [constructor|].
  destruct (inboxId q =? id).
  - constructor; [apply Hf; reflexivity | apply Forall2_same; exact HR].
  - constructor; [apply HR | apply IH; exact Hf].
Qed.

Lemma Forall2_ids (R : Player -> Player -> Prop) l l' :
  Forall2 (fun q q' => inboxId q' = inboxId q /\ R q q') l l' -> ids l' = ids l.
Proof.
  induction 1 as [|q q' l l' [Hi _] _ IH]; simpl; [reflexivity|].
  rewrite Hi, IH. reflexivity.
Qed.

Lemma Forall2_lookup (R : Player -> Player -> Prop) l l' id p :
  Forall2 (fun q q' => inboxId q' = inboxId q /\ R q q') l l' ->
  lookupPlayer id l = Some p ->
  exists p', lookupPlayer id l' = Some p' /\ R p p'.
Proof.
  unfold lookupPlayer. induction 1 as [|x y l l' [Hi Hxy] _ IH]; simpl; [discriminate|].
  rewrite Hi. destruct (inboxId x =? id).
  - intros [= <-]. exists y. split; [reflexivity | exact Hxy].
  - exact IH.
Qed.

(** Every step has one of the shapes of [rosterStep]. A write of [isAlive]
    is to an entry whose id the step lists in [eliminatedPlayers]. *)
Lemma run_roster (R : Player -> Player -> Prop) cfg op g :
  (forall q, R q q) ->
  (forall a b c, R a b -> R b c -> R a c) ->
  (forall r q, R q (setRole r q)) ->
  (forall q, inboxId q ∈ eliminatedPlayers (run cfg op g) -> R q (setIsAlive false q)) ->
  (forall q, R q (setCompletedTasks (completedTasks q + 1) q)) ->
  (forall n t q, R q (setKill n t q)) ->
  (forall b t q, R q (setVote b t q)) ->
  rosterStep R cfg op g.
Proof.
  intros Hrefl Htrans Hrole Hdead Htask Hkill Hvote. unfold rosterStep.
  set (S := fun q q' : Player => inboxId q' = inboxId q /\ R q q').
  assert (HS : forall q, S q q) by (intros q; split; [reflexivity | apply Hrefl]).
  assert (HSt : forall a b c, S a b -> S b c -> S a c).
  { intros a b c [H1 H2] [H3 H4]. split; [congruence | eapply Htrans; eassumption]. }
  assert (Hkeep : Forall2 S (players g) (players g)) by (apply Forall2_same; exact HS).
  revert Hdead. destruct op; simpl.
  - (* createLobby *)
    intros _. unfold createLobby. branches; simpl; left; exact Hkeep.
  - (* addPlayer *)
    intros _. unfold addPlayer. branches; simpl; try (left; exact Hkeep); right; right;
      exists agentInboxId, now, id, name; eexists;
      (split; [reflexivity|]); (split; [reflexivity|]); (split; [assumption|]).
    + right. eexists. reflexivity.
    + left. reflexivity.
    + left. reflexivity.
  - (* assignRoles *)
    intros _. unfold assignRoles. branches; simpl; left; try exact Hkeep.
    eapply (Forall2_compose S S); [exact HSt | |].
    + apply (Forall2_alter_self S (setRole (Some IMPOSTOR))); [exact HS|].
      intros q. split; [reflexivity | apply Hrole].
    + apply Forall2_map_self. intros q.
      destruct (negb (inboxId q =? _)); [split; [reflexivity | apply Hrole] | apply HS].
  - (* startRound *)
    intros _. unfold startRound. branches; simpl; left; try exact Hkeep.
    apply Forall2_map_self. intros q. destruct (isAlive q); [|apply HS].
    split; [reflexivity|]. unfold resetRound.
    eapply Htrans; [apply Hkill | apply Hvote].
  - (* completeTask *)
    intros _. unfold completeTask. branches; simpl; left; try exact Hkeep.
    apply Forall2_updatePlayer; [exact HS|]. intros q. split; [reflexivity | apply Htask].
  - (* attemptKill *)
    unfold attemptKill. branches; simpl; intros Hdead; left; try exact Hkeep.
    + match goal with
      | |- Forall2 _ ?l (updatePlayer ?j ?f' (updatePlayer ?i ?f ?l)) =>
          apply (Forall2_compose S S l (updatePlayer i f l) _ HSt)
      end.
      * apply Forall2_updatePlayer; [exact HS|]. intros q. split; [reflexivity | apply Hkill].
      * apply Forall2_updatePlayer_found; [exact HS|]. intros q Hq.
        apply lookupPlayer_some in Hq as [_ Hq]. split; [reflexivity|].
        apply Hdead. rewrite Hq. set_solver.
    + apply Forall2_updatePlayer; [exact HS|]. intros q. split; [reflexivity | apply Hkill].
  - (* castVote *)
    intros _. unfold castVote. branches; simpl; left; try exact Hkeep.
    apply Forall2_updatePlayer; [exact HS|]. intros q. split; [reflexivity | apply Hvote].
  - (* eliminatePlayer *)
    unfold eliminatePlayer. branches; simpl; intros Hdead; left; try exact Hkeep.
    apply Forall2_updatePlayer_found; [exact HS|]. intros q Hq.
    apply lookupPlayer_some in Hq as [_ Hq]. split; [reflexivity|].
    apply Hdead. rewrite Hq. set_solver.
  - (* advancePhase *)
    intros _. unfold advancePhase, startRound. destruct (state g); simpl; left;
      try exact Hkeep;
      (apply Forall2_map_self; intros q; destruct (isAlive q); [|apply HS];
       split; [reflexivity|]; unfold resetRound;
       eapply Htrans; [apply Hkill | apply Hvote]).
  - (* cleanup *)
    intros _. right. left. reflexivity.
  - (* voteButton *)
    intros _. unfold voteButton. branches; simpl; left; try exact Hkeep;
      (apply Forall2_updatePlayer; [exact HS|]); intros q;
      (split; [reflexivity | apply Hvote]).
  - (* resetVotes *)
    intros _. left. apply Forall2_map_self. intros q.
    destruct (isAlive q); [split; [reflexivity | apply Hvote] | apply HS].
Qed.

(** The entry found under an id after a step is the one found under it
    before, rewritten. *)
Lemma run_roster_lookup (R : Player -> Player -> Prop) cfg op g id p p' :
  (forall q, R q q) -> rosterStep R cfg op g ->
  getPlayer g id = Some p -> getPlayer (run cfg op g) id = Some p' -> R p p'.
Proof.
  unfold getPlayer. intros Hrefl Hshape Hp Hp'.
  destruct Hshape as [Hf|[Hnil|(a & now & nid & name & base & _ & Hps & Hnew & Hbase)]].
  - destruct (Forall2_lookup _ _ _ _ _ Hf Hp) as (q & Hq & Hc). congruence.
  - rewrite Hnil in Hp'. discriminate.
  - rewrite Hps in Hp'.
    assert (Hbase' : lookupPlayer id base = Some p \/ lookupPlayer id base = None).
    { destruct Hbase as [->|(e & ->)]; [left; exact Hp|].
      rewrite lookupPlayer_delete. destruct (e =? id); [right; reflexivity | left; exact Hp]. }
    destruct Hbase' as [Hb|Hb].
    + rewrite (lookupPlayer_app_found _ _ _ _ Hb) in Hp'. injection Hp' as <-.
      apply Hrefl.
    + exfalso. rewrite lookupPlayer_app_skip in Hp'
        by (apply lookupPlayer_none; exact Hb).
      apply lookupPlayer_some in Hp' as [[<-|[]] Hid]. simpl in Hid.
      apply lookupPlayer_some in Hp as [Hin Hid'].
      assert (hasPlayer nid (players g) = true) as Hhas.
      { apply hasPlayer_ids. rewrite Hid, <- Hid'. apply in_map. exact Hin. }
      congruence.
Qed.

Lemma persists_refl q : persists q q.
Proof. unfold persists. repeat split; try reflexivity; trivial. Qed.

Lemma persists_trans a b c : persists a b -> persists b c -> persists a c.
Proof.
  unfold persists. intros (H1 & H2 & H3 & H4) (H5 & H6 & H7 & H8).
  split; [congruence|]. split; [tauto|]. split; [congruence | lia].
Qed.

(** X1. No operation revives a player, renames one or takes credit for a
    completed task away: the roster entry found under an id after any
    operation has the user name of the entry found under it before, is not
    alive if that one was not, and has at least as many completed tasks. *)
Theorem no_operation_revives cfg op g id p p' :
  getPlayer g id = Some p -> getPlayer (run cfg op g) id = Some p' ->
  persists p p'.
Proof.
  intros Hp Hp'.
  apply (run_roster_lookup persists cfg op g id p p'); [apply persists_refl | | exact Hp | exact Hp'].
  apply run_roster; try (intros; unfold persists; simpl; repeat split; trivial; lia).
  apply persists_trans.
Qed.

(** ** Invariants of the sessions the operations reach *)

Lemma run_eliminated cfg op g :
  eliminatedPlayers g ⊆ eliminatedPlayers (run cfg op g)
  \/ players (run cfg op g) = [].
Proof.
  destruct op; simpl;
    unfold createLobby, addPlayer, assignRoles, completeTask, attemptKill,
      castVote, eliminatePlayer, advancePhase, startRound, voteButton, resetVotes;
    branches; simpl; try (left; set_solver); right; reflexivity.
Qed.

Lemma run_deadListed cfg op g : deadListed g -> deadListed (run cfg op g).
Proof.
  intros Hd.
  pose proof (run_roster
                (fun q q' => inboxId q' = inboxId q
                             /\ (isAlive q' = false ->
                                 isAlive q = false
                                 \/ inboxId q ∈ eliminatedPlayers (run cfg op g)))
                cfg op g) as Hshape.
  destruct Hshape as [Hf|[Hnil|(a & now & nid & name & base & -> & Hps & _ & Hbase)]];
    try (intros; simpl; split; [reflexivity | tauto]).
  - intros a b c (H1 & H2) (H3 & H4). split; [congruence|]. intros Hc.
    destruct (H4 Hc) as [Hb|Hb]; [apply H2; exact Hb | right; rewrite <- H1; exact Hb].
  - intros p' Hp' Hdead.
    destruct (Forall2_back _ _ _ Hf p' Hp') as (p & Hp & Hid & _ & Hal).
    rewrite Hid. destruct (Hal Hdead) as [Ha|Ha]; [|exact Ha].
    destruct (run_eliminated cfg op g) as [Hsub|Hnil].
    + apply Hsub. apply (Hd p Hp Ha).
    + rewrite Hnil in Hp'. destruct Hp'.
  - intros p' Hp'. rewrite Hnil in Hp'. destruct Hp'.
  - intros p' Hp' Hdead. rewrite Hps in Hp'.
    apply in_app_or in Hp' as [Hp'|[<-|[]]]; [|discriminate].
    assert (Hin : In p' (players g)).
    { destruct Hbase as [->|(e & ->)]; [exact Hp'|].
      unfold deletePlayer in Hp'. apply List.filter_In in Hp' as [Hp' _]. exact Hp'. }
    destruct (run_eliminated cfg (OpAddPlayer a now nid name) g) as [Hsub|Hnil].
    + apply Hsub. apply (Hd p' Hin Hdead).
    + rewrite Hnil in Hps. destruct base; discriminate.
Qed.

(** X2. In every session the operations reach from the initial one, a
    roster entry that is not alive has its id in [eliminatedPlayers]. *)
Theorem dead_players_are_listed cfg ops :
  deadListed (runAll cfg ops (initialGame cfg)).
Proof.
  assert (H : forall g, deadListed g -> deadListed (runAll cfg ops g)).
  { induction ops as [|op ops IH]; intros g Hg; [exact Hg|].
    simpl. apply IH. apply run_deadListed. exact Hg. }
  apply H. intros p [].
Qed.

Lemma roundOf_phase r ph :
  1 <= r <= MAX_ROUNDS -> roundOf (getStateForRoundPhase r ph) = Some r.
Proof.
  unfold MAX_ROUNDS. intros Hr.
  assert (Hc : r = 1 \/ r = 2 \/ r = 3) by lia.
  destruct Hc as [->|[->| ->]]; destruct ph; reflexivity.
Qed.

Lemma startRound_roundMatches gen r g g' :
  startRound gen r g = inr g' -> roundMatchesState g'.
Proof.
  unfold startRound. destruct (Z.ltb_spec r 1) as [|H1]; simpl; [discriminate|].
  destruct (Z.ltb_spec MAX_ROUNDS r) as [|H3]; [discriminate|].
  intros [= <-]. unfold roundMatchesState. simpl. split; [lia|].
  intros r'. rewrite roundOf_phase by lia. congruence.
Qed.

Lemma run_roundMatches cfg op g :
  roundMatchesState g -> roundMatchesState (run cfg op g).
Proof.
  intros H. destruct op; simpl;
    try (unfold createLobby, addPlayer, assignRoles, completeTask, attemptKill,
           castVote, eliminatePlayer, voteButton, resetVotes;
         branches; simpl; try exact H;
         destruct H as [Hb _]; (split; [exact Hb | simpl; discriminate])).
  - (* startRound *)
    destruct (startRound gen r g) eqn:Hs; simpl; [exact H|].
    eapply startRound_roundMatches. exact Hs.
  - (* advancePhase *)
    unfold advancePhase. destruct H as [Hb Hr].
    destruct (state g) eqn:Hst; simpl;
      try (split; [exact Hb | rewrite Hst; exact Hr]);
      try (split; [exact Hb | exact Hr]);
      try (apply (startRound_roundMatches gen 2 g); reflexivity);
      try (apply (startRound_roundMatches gen 3 g); reflexivity).
  - (* cleanup *)
    split; simpl; [unfold MAX_ROUNDS; lia | discriminate].
Qed.

(** X3. In every session the operations reach from the initial one, the
    round counter lies between 0 and [MAX_ROUNDS] and is the round of the
    state the session is in. The test of the round in [checkWinCondition]
    then follows from the state: an adversary alive in the voting state of
    the last round, or in [GAME_END], wins. *)
Theorem round_counter_matches_state cfg ops :
  roundMatchesState (runAll cfg ops (initialGame cfg))
  /\ (forall p,
        adversary (runAll cfg ops (initialGame cfg)) = Some p ->
        isAlive p = true ->
        lastVotingReached (runAll cfg ops (initialGame cfg)) ->
        checkWinCondition (runAll cfg ops (initialGame cfg)) = adversaryWins).
Proof.
  assert (H : forall g, roundMatchesState g -> roundMatchesState (runAll cfg ops g)).
  { induction ops as [|op ops IH]; intros g Hg; [exact Hg|].
    simpl. apply IH. apply run_roundMatches. exact Hg. }
  assert (H0 : roundMatchesState (initialGame cfg)).
  { split; simpl; [unfold MAX_ROUNDS; lia | discriminate]. }
  specialize (H _ H0). split; [exact H|].
  set (g := runAll cfg ops (initialGame cfg)) in *.
  intros p Hp Ha Hl. destruct H as [_ Hr].
  unfold checkWinCondition. unfold adversary in Hp. rewrite Hp, Ha. simpl.
  assert (Hround : round g = MAX_ROUNDS).
  { apply Hr. unfold lastVotingReached in Hl.
    destruct Hl as [-> | ->]; reflexivity. }
  rewrite Hround, Z.eqb_refl.
  apply lastVotingReached_bool in Hl. rewrite Hl. reflexivity.
Qed.

Lemma run_idle cfg op g :
  (state g = IDLE -> g = initialGame cfg) ->
  state (run cfg op g) = IDLE -> run cfg op g = initialGame cfg.
Proof.
  intros Hg. destruct (decide (state g = IDLE)) as [Hs|Hs].
  - rewrite (Hg Hs). clear Hg Hs g.
    destruct op; intros Hi; try reflexivity; try (vm_compute in Hi; discriminate Hi).
    + revert Hi. simpl. unfold startRound.
      destruct (Z.ltb_spec r 1) as [|H1]; simpl; [reflexivity|].
      destruct (Z.ltb_spec MAX_ROUNDS r) as [|H3]; simpl; [reflexivity|].
      intros Hi. pose proof (roundOf_phase r TASKS ltac:(lia)) as Hr.
      rewrite Hi in Hr. discriminate Hr.
    + simpl. unfold voteButton. branches; reflexivity.
  - clear Hg. destruct op; simpl; try reflexivity; intros Hi; exfalso; revert Hi;
      try (unfold createLobby, addPlayer, assignRoles, completeTask,
             attemptKill, castVote, eliminatePlayer, voteButton, resetVotes;
           branches; simpl; intros Hi; solve [discriminate Hi | congruence]).
    + unfold startRound.
      destruct (Z.ltb_spec r 1) as [|H1]; simpl; [exact Hs|].
      destruct (Z.ltb_spec MAX_ROUNDS r) as [|H3]; simpl; [exact Hs|].
      intros Hi. pose proof (roundOf_phase r TASKS ltac:(lia)) as Hr.
      rewrite Hi in Hr. discriminate Hr.
    + unfold advancePhase, startRound.
      destruct (state g) eqn:Hst; simpl; intros Hi;
        solve [discriminate Hi | congruence].
Qed.

(** X4. An idle session is a pristine one: whenever a session the
    operations reach is in state [IDLE], every field of it has the value the
    constructor gave it, so a lobby is always created from a clean slate. *)
Theorem idle_session_is_pristine cfg ops :
  state (runAll cfg ops (initialGame cfg)) = IDLE ->
  runAll cfg ops (initialGame cfg) = initialGame cfg.
Proof.
  assert (H : forall g, (state g = IDLE -> g = initialGame cfg) ->
                state (runAll cfg ops g) = IDLE ->
                runAll cfg ops g = initialGame cfg).
  { induction ops as [|op ops IH]; intros g Hg; [exact Hg|].
    simpl. apply IH. apply run_idle. exact Hg. }
  apply H. intros _. reflexivity.
Qed.

Lemma no_operation_revives_witness :
  persists (setIsAlive false (setRole (Some CREW) (newPlayer "f" "Fay")))
           (setIsAlive false (setRole (Some CREW) (newPlayer "f" "Fay"))).
Proof.
  pose proof (no_operation_revives sampleConfig (OpStartRound sampleTask 2)
                sampleAfterKill "f"
                (setIsAlive false (setRole (Some CREW) (newPlayer "f" "Fay")))
                (setIsAlive false (setRole (Some CREW) (newPlayer "f" "Fay")))) as H.
  assert (Hp : getPlayer sampleAfterKill "f"
               = Some (setIsAlive false (setRole (Some CREW) (newPlayer "f" "Fay"))))
    by (vm_compute; reflexivity).
  assert (Hp' : getPlayer (run sampleConfig (OpStartRound sampleTask 2) sampleAfterKill) "f"
                = Some (setIsAlive false (setRole (Some CREW) (newPlayer "f" "Fay"))))
    by (vm_compute; reflexivity).
  exact (H Hp Hp').
Defined.

Lemma idle_session_is_pristine_witness :
  runAll sampleConfig
    [OpCreateLobby 1000 1000 "lobby" "origin"; OpAddPlayer "agent" 2000 "a" "Ann";
     OpCleanup] (initialGame sampleConfig)
  = initialGame sampleConfig.
Proof.
  apply (idle_session_is_pristine sampleConfig
           [OpCreateLobby 1000 1000 "lobby" "origin";
            OpAddPlayer "agent" 2000 "a" "Ann"; OpCleanup]).
  vm_compute. reflexivity.
Defined.

(** ** The capacity of the roster *)






(** ** Joining *)

Lemma lookupPlayer_snoc id l q :
  lookupPlayer id (l ++ [q])
  = match lookupPlayer id l with
    | Some x => Some x
    | None => if inboxId q =? id then Some q else None
    end.
Proof.
  unfold lookupPlayer. induction l as [|x l IH]; simpl; [reflexivity|].
  destruct (inboxId x =? id); [reflexivity | exact IH].
Qed.

Lemma joinable_iff now id g :
  joinable now id g <->
  negb (bool_decide (state g = LOBBY_CREATED))
  && negb (bool_decide (state g = WAITING_FOR_PLAYERS)) = false
  /\ hasPlayer id (players g) = false /\ deadlinePassed now g = false.
Proof.
  unfold joinable. rewrite andb_false_iff, !negb_false_iff, !bool_decide_eq_true.
  reflexivity.
Qed.

(** X6. [addPlayer] lets a player in exactly when the session is in a lobby
    state, the id is not registered yet and the join deadline has not
    passed; a refused join writes nothing and removes nobody. A player let in
    is found under its id as a fresh living player without a role, is the
    last entry of the roster, and the session waits for players; below the
    capacity nobody is removed and the roster is the old one followed by the
    newcomer; the entry under any other id is as before, unless it is the one
    removed. *)
Theorem addPlayer_joins_or_refuses agent now id name g :
  (success (snd (addPlayer agent now id name g)) = true <-> joinable now id g)
  /\ (success (snd (addPlayer agent now id name g)) = false ->
        addPlayer agent now id name g = (g, notJoined))
  /\ (joinable now id g ->
        state (fst (addPlayer agent now id name g)) = WAITING_FOR_PLAYERS
        /\ getPlayer (fst (addPlayer agent now id name g)) id
           = Some (newPlayer id name)
        /\ last (players (fst (addPlayer agent now id name g)))
           = Some (newPlayer id name)
        /\ (rosterSize g < MAX_PLAYERS ->
              players (fst (addPlayer agent now id name g))
              = players g ++ [newPlayer id name]
              /\ removedPlayer (snd (addPlayer agent now id name g)) = None)
        /\ (forall id', id' <> id ->
              (forall e, removedPlayer (snd (addPlayer agent now id name g)) = Some e ->
                         inboxId e <> id') ->
              getPlayer (fst (addPlayer agent now id name g)) id' = getPlayer g id')).
Proof.
  rewrite joinable_iff. unfold addPlayer.
  destruct (negb (bool_decide (state g = LOBBY_CREATED))
            && negb (bool_decide (state g = WAITING_FOR_PLAYERS))) eqn:Hst; simpl.
  { split; [split; [discriminate | intros [? _]; discriminate]|].
    split; [reflexivity | intros [? _]; discriminate]. }
  destruct (hasPlayer id (players g)) eqn:Hhas; simpl.
  { split; [split; [discriminate | intros (_ & ? & _); discriminate]|].
    split; [reflexivity | intros (_ & ? & _); discriminate]. }
  destruct (deadlinePassed now g) eqn:Hdl; simpl.
  { split; [split; [discriminate | intros (_ & _ & ?); discriminate]|].
    split; [reflexivity | intros (_ & _ & ?); discriminate]. }
  split; [split; [intros _; repeat split | reflexivity]|].
  split; [discriminate|]. intros _.
  assert (Hfresh : ~ In id (ids (players g))).
  { intros Hin. apply hasPlayer_ids in Hin. congruence. }
  set (lastEntry := if (MAX_PLAYERS <=? rosterSize g)%Z
                    then lastNonAgent agent (players g) else None).
  set (ps := match lastEntry with
             | Some lastPlayer => deletePlayer (inboxId lastPlayer) (players g)
             | None => players g
             end).
  assert (Hps : ~ In id (ids ps)).
  { unfold ps. destruct lastEntry; [|exact Hfresh].
    intros Hin. apply Hfresh. apply (deletePlayer_ids_incl _ _ _ Hin). }
  split; [reflexivity|]. unfold getPlayer. simpl. split.
  { rewrite lookupPlayer_snoc. apply lookupPlayer_none in Hps. rewrite Hps.
    simpl. rewrite String.eqb_refl. reflexivity. }
  split; [apply last_snoc|]. split.
  { intros Hroom. unfold ps, lastEntry.
    destruct (Z.leb_spec MAX_PLAYERS (rosterSize g)); [lia|]. split; reflexivity. }
  intros id' Hne Hrem. rewrite lookupPlayer_snoc. simpl.
  destruct (String.eqb_spec id id') as [|_]; [congruence|].
  assert (Hsame : lookupPlayer id' ps = lookupPlayer id' (players g)).
  { unfold ps. destruct lastEntry as [e|]; [|reflexivity].
    rewrite lookupPlayer_delete.
    destruct (String.eqb_spec (inboxId e) id') as [He|_]; [|reflexivity].
    exfalso. apply (Hrem e eq_refl He). }
  rewrite Hsame. destruct (lookupPlayer id' (players g)); reflexivity.
Qed.

(** ** Role assignment and the start of a round *)

(** X7. With a draw of [Math.random()] in [[0, 1)] and a quorum of at least
    one player, [assignRoles] returns exactly when [canStartGame] holds, and
    throws "Cannot assign roles at this time" otherwise. The adversary it
    names is a player of the roster; when the product of the draw and the
    number of players is exact in double precision, it is the player at
    index [floor(rand * N)] of the roster in its order of insertion. *)
Theorem assignRoles_succeeds_iff_quorum cfg now rand g :
  (0 <= rand)%Q -> (rand < 1)%Q -> 1 <= MIN_PLAYERS_TO_START cfg ->
  ((exists g', assignRoles cfg now rand g = inr g') <-> canStartGame cfg now g = true)
  /\ (canStartGame cfg now g = false ->
        assignRoles cfg now rand g = inl CannotAssignRoles)
  /\ (forall g', assignRoles cfg now rand g = inr g' ->
        (exists p, In p (players g) /\ impostorInboxId g' = Some (inboxId p))
        /\ (forall k m, Js.exactProduct rand (rosterSize g) k m ->
              impostorInboxId g'
              = option_map inboxId
                  (nth_error (players g)
                     (Z.to_nat (Js.floorMul rand (rosterSize g)))))).
Proof.
  intros H0 H1 Hmin. split; [split|split].
  - intros [g' Hg']. unfold assignRoles in Hg'.
    destruct (canStartGame cfg now g); [reflexivity|].
    rewrite orb_true_r in Hg'. discriminate.
  - intros Hc. assert (Hs : state g = WAITING_FOR_PLAYERS).
    { unfold canStartGame in Hc. apply andb_true_iff in Hc as [Hc _].
      apply andb_true_iff in Hc as [Hc _]. apply bool_decide_eq_true in Hc. exact Hc. }
    apply assignRoles_succeeds; try assumption.
    unfold canStartGame in Hc. apply andb_true_iff in Hc as [_ Hc].
    apply Z.leb_le in Hc. unfold rosterSize in Hc.
    destruct (players g); [simpl in Hc; lia | discriminate].
  - intros Hc. unfold assignRoles. rewrite Hc, orb_true_r. reflexivity.
  - intros g'. unfold assignRoles, rosterSize.
    destruct (_ || _); [discriminate|].
    unfold arrayAt.
    destruct (Z.ltb_spec (Js.floorMul rand (Z.of_nat (length (players g)))) 0);
      [discriminate|].
    destruct (nth_error (players g) _) as [imp|] eqn:Hnth; [|discriminate].
    intros [= <-]. simpl. split.
    + exists imp. split; [apply (nth_error_In _ _ Hnth) | reflexivity].
    + intros k m _. reflexivity.
Qed.

Lemma assignRoles_succeeds_iff_quorum_witness :
  ((exists g', assignRoles sampleConfig 8000 (1 # 2) sampleLobby = inr g')
   <-> canStartGame sampleConfig 8000 sampleLobby = true)
  /\ impostorInboxId sampleAssigned = Some "d".
Proof.
  destruct (assignRoles_succeeds_iff_quorum sampleConfig 8000 (1 # 2) sampleLobby)
    as (Hiff & _ & Hwho).
  - vm_compute. discriminate.
  - vm_compute. reflexivity.
  - vm_compute. discriminate.
  - split; [exact Hiff|].
    assert (Hg : assignRoles sampleConfig 8000 (1 # 2) sampleLobby = inr sampleAssigned)
      by (vm_compute; reflexivity).
    assert (Hx : Js.exactProduct (1 # 2) (rosterSize sampleLobby) 1 1)
      by (unfold Js.exactProduct; repeat split; vm_compute; congruence).
    rewrite (proj2 (Hwho _ Hg) 1 1 Hx). vm_compute. reflexivity.
Defined.

Lemma fold_tasks_lookup (gen : string -> Task) ps (m : gmap string Task) id :
  List.fold_left
    (fun m p => if isAlive p then <[inboxId p := gen (inboxId p)]> m else m) ps m
  !! id
  = if aliveUnder id ps then Some (gen id) else m !! id.
Proof.
  unfold aliveUnder. revert m. induction ps as [|p ps IH]; intros m; simpl; [reflexivity|].
  rewrite IH. destruct (List.existsb _ ps); [rewrite orb_true_r; reflexivity|].
  rewrite orb_false_r. destruct (isAlive p); simpl; [|reflexivity].
  destruct (String.eqb_spec (inboxId p) id) as [->|Hne].
  - apply lookup_insert_eq.
  - apply lookup_insert_ne. exact Hne.
Qed.

(** X8. [startRound] throws for a round outside [1..MAX_ROUNDS] and writes
    nothing then. For a round in that range it returns: the session is in
    the task state of that round with the round counter set; every id under
    which a living player is registered has the task [generateTask] returned
    for it, and every other id keeps the task entry it had; a living player
    has its kill attempts, its last attempt and its vote cleared, and a
    player that is not alive is left as it was. *)
Theorem startRound_effects gen r g :
  (r < 1 \/ MAX_ROUNDS < r -> startRound gen r g = inl InvalidRoundNumber)
  /\ (1 <= r <= MAX_ROUNDS ->
        exists g', startRound gen r g = inr g'
          /\ round g' = r
          /\ state g' = getStateForRoundPhase r TASKS
          /\ isTaskPhase (state g') = true
          /\ ids (players g') = ids (players g)
          /\ (forall id, taskAssignments g' !! id
                         = if aliveUnder id (players g) then Some (gen id)
                           else taskAssignments g !! id)
          /\ (forall id p, getPlayer g id = Some p ->
                getPlayer g' id
                = Some (if isAlive p
                        then setVote false None (setKill 0 None p) else p))).
Proof.
  unfold startRound. split.
  - intros [H|H].
    + destruct (Z.ltb_spec r 1); [reflexivity | lia].
    + destruct (Z.ltb_spec MAX_ROUNDS r); [rewrite orb_true_r; reflexivity | lia].
  - intros [H1 H3].
    destruct (Z.ltb_spec r 1); [lia|]. destruct (Z.ltb_spec MAX_ROUNDS r); [lia|].
    simpl. eexists. split; [reflexivity|]. simpl.
    split; [reflexivity|]. split; [reflexivity|]. split.
    { unfold MAX_ROUNDS in H3. assert (Hc : r = 1 \/ r = 2 \/ r = 3) by lia.
      destruct Hc as [->|[->| ->]]; reflexivity. }
    split.
    { unfold ids. rewrite List.map_map. apply List.map_ext. intros q.
      destruct (isAlive q); reflexivity. }
    split; [intros id; apply fold_tasks_lookup|].
    intros id p Hp. unfold getPlayer in *. simpl.
    rewrite lookupPlayer_map by (intros q; destruct (isAlive q); reflexivity).
    rewrite Hp. reflexivity.
Qed.

(** ** Writes to one roster entry *)

Lemma lookupPlayer_unique ps p :
  NoDup (ids ps) -> In p ps -> lookupPlayer (inboxId p) ps = Some p.
Proof.
  unfold lookupPlayer. induction ps as [|q ps IH]; simpl; [intros _ []|].
  intros Hnd Hin. apply NoDup_cons in Hnd as [Hn Hnd].
  destruct (String.eqb_spec (inboxId q) (inboxId p)) as [He|He].
  - destruct Hin as [->|Hin]; [reflexivity|]. exfalso. apply Hn.
    rewrite He. apply list_elem_of_In. apply in_map. exact Hin.
  - destruct Hin as [->|Hin]; [contradiction|]. apply IH; assumption.
Qed.

(** The number of entries that satisfy [P] after the entry found under [id]
    has been rewritten by [f]. *)
Lemma filter_length_update (P : Player -> bool) id f ps v :
  lookupPlayer id ps = Some v ->
  (length (List.filter P (updatePlayer id f ps)) + (if P v then 1 else 0)
   = length (List.filter P ps) + (if P (f v) then 1 else 0))%nat.
Proof.
  unfold lookupPlayer. induction ps as [|q ps IH]; simpl; [discriminate|].
  destruct (inboxId q =? id).
  - intros [= ->]. simpl. destruct (P v), (P (f v)); simpl; lia.
  - intros Hv. specialize (IH Hv). simpl. destruct (P q); simpl; lia.
Qed.

Lemma updatePlayer_absent id f ps :
  lookupPlayer id ps = None -> updatePlayer id f ps = ps.
Proof.
  unfold lookupPlayer. induction ps as [|q ps IH]; simpl; [reflexivity|].
  destruct (inboxId q =? id); [discriminate|]. intros H. rewrite (IH H). reflexivity.
Qed.

Lemma updatePlayer_twice id f f' ps :
  (forall q, inboxId (f' q) = inboxId q) ->
  updatePlayer id f (updatePlayer id f' ps) = updatePlayer id (fun q => f (f' q)) ps.
Proof.
  intros Hf. induction ps as [|q ps IH]; simpl; [reflexivity|].
  destruct (inboxId q =? id) eqn:He; simpl.
  - rewrite Hf, He. reflexivity.
  - rewrite He, IH. reflexivity.
Qed.

(** ** Tasks *)

(** X9. A task is credited once. For an answer of ASCII characters: when
    [completeTask] returns true, the caller is a living player who is not
    the adversary, in a task phase, with an assigned task not completed
    before, and the validator accepts the answer with the white space at
    its ends removed; the call adds one to the caller's completed tasks,
    marks the task completed and touches no other player and no other task;
    a further call for the same player on the resulting session, with any
    answer and any validator, returns false and writes nothing. A call that
    returns false writes nothing, and the adversary's calls always return
    false. *)
Theorem completeTask_credits_once validate id answer g :
  Js.isAscii answer = true ->
  (snd (completeTask validate id answer g) = false ->
     fst (completeTask validate id answer g) = g)
  /\ (forall p, getPlayer g id = Some p -> role p = Some IMPOSTOR ->
        snd (completeTask validate id answer g) = false)
  /\ (snd (completeTask validate id answer g) = true ->
        exists p task,
          getPlayer g id = Some p /\ isAlive p = true /\ role p <> Some IMPOSTOR
          /\ isTaskPhase (state g) = true
          /\ taskAssignments g !! id = Some task /\ completed task = false
          /\ validate task (Js.trim answer) = true
          /\ getPlayer (fst (completeTask validate id answer g)) id
             = Some (setCompletedTasks (completedTasks p + 1) p)
          /\ taskAssignments (fst (completeTask validate id answer g)) !! id
             = Some (mkTask (question task) true)
          /\ (forall id', id' <> id ->
                getPlayer (fst (completeTask validate id answer g)) id'
                = getPlayer g id'
                /\ taskAssignments (fst (completeTask validate id answer g)) !! id'
                   = taskAssignments g !! id')
          /\ (forall validate' answer',
                completeTask validate' id answer'
                  (fst (completeTask validate id answer g))
                = (fst (completeTask validate id answer g), false))).
Proof.
  intros _. unfold completeTask.
  destruct (getPlayer g id) as [p|] eqn:Hp;
    [|split; [reflexivity | split; [discriminate | discriminate]]].
  destruct (isAlive p) eqn:Ha; simpl;
    [|split; [reflexivity | split; [reflexivity | discriminate]]].
  destruct (bool_decide (role p = Some IMPOSTOR)) eqn:Hr;
    [split; [reflexivity | split; [reflexivity | discriminate]]|].
  apply bool_decide_eq_false in Hr.
  split; [branches; simpl; intros H; first [reflexivity | discriminate H]|].
  split; [intros q [= <-] Hq; contradiction|].
  destruct (isTaskPhase (state g)) eqn:Hph; simpl; [|discriminate].
  destruct (taskAssignments g !! id) as [task|] eqn:Ht; [|discriminate].
  destruct (completed task) eqn:Hc; [discriminate|].
  destruct (validate task (Js.trim answer)) eqn:Hv; [|discriminate].
  intros _. exists p, task. simpl.
  assert (Hlook : lookupPlayer id
                    (updatePlayer id (fun q => setCompletedTasks (completedTasks q + 1) q)
                       (players g))
                  = Some (setCompletedTasks (completedTasks p + 1) p)).
  { rewrite lookupPlayer_updatePlayer by reflexivity. rewrite String.eqb_refl.
    unfold getPlayer in Hp. rewrite Hp. reflexivity. }
  repeat (split; [first [reflexivity | assumption | exact Hlook
                        | apply lookup_insert_eq]|]).
  split.
  - intros id' Hne. split.
    + unfold getPlayer. simpl. rewrite lookupPlayer_updatePlayer by reflexivity.
      destruct (String.eqb_spec id id'); [congruence | reflexivity].
    + simpl. apply lookup_insert_ne. congruence.
  - intros validate' answer'. unfold getPlayer. simpl. rewrite Hlook. simpl.
    rewrite Ha. simpl.
    rewrite bool_decide_eq_false_2 by exact Hr. rewrite Hph. simpl.
    rewrite lookup_insert_eq. reflexivity.
Qed.

Lemma completeTask_credits_once_witness :
  completeTask (fun _ _ => true) "a" "5"
    (fst (completeTask (fun _ _ => true) "a" "4" sampleRound1))
  = (fst (completeTask (fun _ _ => true) "a" "4" sampleRound1), false).
Proof.
  destruct (completeTask_credits_once (fun _ _ => true) "a" "4" sampleRound1 eq_refl)
    as (_ & _ & H).
  assert (Hs : snd (completeTask (fun _ _ => true) "a" "4" sampleRound1) = true)
    by (vm_compute; reflexivity).
  destruct (H Hs) as (p & task & _ & _ & _ & _ & _ & _ & _ & _ & _ & _ & Hagain).
  apply Hagain.
Defined.

(** ** Elimination *)

(** X10. [eliminatePlayer] is idempotent and does nothing for an id that is
    not registered. For a registered id it marks that player not alive,
    lists the id in [eliminatedPlayers], leaves every other entry as it was,
    and lowers the number of living players by one if the player was alive
    and by nothing otherwise. *)
Theorem eliminatePlayer_idempotent id g :
  eliminatePlayer id (eliminatePlayer id g) = eliminatePlayer id g
  /\ (getPlayer g id = None -> eliminatePlayer id g = g)
  /\ (forall p, getPlayer g id = Some p ->
        getPlayer (eliminatePlayer id g) id = Some (setIsAlive false p)
        /\ id ∈ eliminatedPlayers (eliminatePlayer id g))
  /\ (forall id', id' <> id ->
        getPlayer (eliminatePlayer id g) id' = getPlayer g id')
  /\ aliveCount (eliminatePlayer id g) = aliveCount g - aliveUnit (getPlayer g id).
Proof.
  unfold eliminatePlayer, aliveCount, getAlivePlayers.
  destruct (getPlayer g id) as [p|] eqn:Hp.
  2:{ rewrite Hp. simpl. repeat split; try reflexivity; try discriminate; lia. }
  unfold getPlayer in *. simpl.
  assert (Hlook : lookupPlayer id (updatePlayer id (setIsAlive false) (players g))
                  = Some (setIsAlive false p)).
  { rewrite lookupPlayer_updatePlayer by reflexivity. rewrite String.eqb_refl, Hp.
    reflexivity. }
  rewrite Hlook. split.
  { unfold withEliminated, withPlayers. simpl. f_equal.
    - rewrite updatePlayer_twice by reflexivity. reflexivity.
    - rewrite (assoc_L (∪)), (idemp_L (∪)). reflexivity. }
  split; [discriminate|]. split.
  { intros q [= <-]. split; [reflexivity|].
    apply elem_of_union_l, elem_of_singleton. reflexivity. }
  split.
  { intros id' Hne. rewrite lookupPlayer_updatePlayer by reflexivity.
    destruct (String.eqb_spec id id'); [congruence | reflexivity]. }
  pose proof (filter_length_update isAlive id (setIsAlive false) (players g) p Hp) as Hlen.
  simpl in Hlen. destruct (isAlive p); lia.
Qed.

(** ** Votes *)

(** X11. One vote per voting phase through [castVote]. For a name and a
    roster of user names of ASCII characters: when [castVote] returns true,
    the voter is alive, has not voted yet, the session is in a voting state
    and the name resolves, without regard to the case of its letters, to
    the first registered player of that name; the vote is recorded under
    that player's id, the tally of that player grows by one and no other
    tally changes, no other roster entry is touched, and a further
    [castVote] of the same voter on the resulting session returns false for
    every name. A call that returns false writes nothing. *)
Theorem castVote_counts_once voter name g :
  Js.isAscii name = true -> asciiNames g = true ->
  (snd (castVote voter name g) = false -> fst (castVote voter name g) = g)
  /\ (snd (castVote voter name g) = true ->
        exists v t,
          getPlayer g voter = Some v /\ isAlive v = true /\ voted v = false
          /\ isVotingPhase (state g) = true
          /\ List.find (fun p => Js.toLowerCase (username p) =? Js.toLowerCase name)
                       (players g) = Some t
          /\ getPlayer (fst (castVote voter name g)) voter
             = Some (setVote true (Some (inboxId t)) v)
          /\ (forall id, id <> voter ->
                getPlayer (fst (castVote voter name g)) id = getPlayer g id)
          /\ (forall u, votesFor u (fst (castVote voter name g))
                        = votesFor u g
                          + (if bool_decide (Some (inboxId t) = Some u) then 1 else 0))
          /\ (forall name', castVote voter name' (fst (castVote voter name g))
                            = (fst (castVote voter name g), false))).
Proof.
  intros _ _. unfold castVote.
  destruct (getPlayer g voter) as [v|] eqn:Hv; [|split; [reflexivity | discriminate]].
  destruct (isAlive v) eqn:Ha; simpl; [|split; [reflexivity | discriminate]].
  destruct (isVotingPhase (state g)) eqn:Hph; simpl;
    [|split; [reflexivity | discriminate]].
  destruct (voted v) eqn:Hvd; [split; [reflexivity | discriminate]|].
  unfold getPlayerByUsername.
  destruct (List.find _ (players g)) as [t|] eqn:Ht;
    [|split; [reflexivity | discriminate]].
  simpl. split; [discriminate|]. intros _. exists v, t.
  unfold getPlayer in *. simpl.
  assert (Hlook : lookupPlayer voter
                    (updatePlayer voter (setVote true (Some (inboxId t))) (players g))
                  = Some (setVote true (Some (inboxId t)) v)).
  { rewrite lookupPlayer_updatePlayer by reflexivity. rewrite String.eqb_refl, Hv.
    reflexivity. }
  repeat (split; [first [reflexivity | assumption]|]).
  split.
  { intros id Hne. rewrite lookupPlayer_updatePlayer by reflexivity.
    destruct (String.eqb_spec voter id); [congruence | reflexivity]. }
  split.
  { intros u. unfold votesFor. simpl.
    pose proof (filter_length_update (votesForb u) voter
                  (setVote true (Some (inboxId t))) (players g) v Hv) as Hlen.
    assert (Hold : votesForb u v = false).
    { unfold votesForb. rewrite Hvd, andb_false_r. reflexivity. }
    assert (Hnew : votesForb u (setVote true (Some (inboxId t)) v)
                   = bool_decide (Some (inboxId t) = Some u)).
    { unfold votesForb. simpl. rewrite Ha. reflexivity. }
    rewrite Hold, Hnew in Hlen.
    destruct (bool_decide (Some (inboxId t) = Some u)); lia. }
  intros name'. rewrite Hlook. simpl. rewrite Ha, Hph. reflexivity.
Qed.

Lemma castVote_counts_once_witness :
  votesFor "d" (fst (castVote "a" "DAN" sampleVoting6)) = votesFor "d" sampleVoting6 + 1
  /\ castVote "a" "Bob" (fst (castVote "a" "DAN" sampleVoting6))
     = (fst (castVote "a" "DAN" sampleVoting6), false).
Proof.
  assert (Hn : asciiNames sampleVoting6 = true) by (vm_compute; reflexivity).
  destruct (castVote_counts_once "a" "DAN" sampleVoting6 eq_refl Hn) as [_ H].
  assert (Hs : snd (castVote "a" "DAN" sampleVoting6) = true) by (vm_compute; reflexivity).
  destruct (H Hs) as (v & t & _ & _ & _ & _ & Ht & _ & _ & Hcount & Hagain).
  assert (Hd : t = setRole (Some IMPOSTOR) (newPlayer "d" "Dan")).
  { assert (Hf : List.find
                   (fun p => Js.toLowerCase (username p) =? Js.toLowerCase "DAN")
                   (players sampleVoting6)
                 = Some (setRole (Some IMPOSTOR) (newPlayer "d" "Dan")))
      by (vm_compute; reflexivity).
    congruence. }
  split; [|apply Hagain]. rewrite (Hcount "d"), Hd. reflexivity.
Defined.

Lemma sumCounts_bump t counts : sumCounts (bump t counts) = sumCounts counts + 1.
Proof.
  unfold sumCounts. induction counts as [|[k n] rest IH]; simpl; [reflexivity|].
  destruct (k =? t); simpl; lia.
Qed.

Lemma sumCounts_voteCounts ps :
  sumCounts (voteCounts ps) = Z.of_nat (length (List.filter counted ps)).
Proof.
  unfold voteCounts. change (fun counts player => _) with countStep.
  induction ps as [|p ps IH] using rev_ind; [reflexivity|].
  rewrite List.fold_left_app, List.filter_app, List.length_app. simpl.
  unfold countStep at 1. destruct (counted p); simpl.
  - rewrite sumCounts_bump, IH. lia.
  - rewrite IH. lia.
Qed.

Lemma totalVotes_insertDesc x l :
  totalVotes (insertDesc x l) = votes x + totalVotes l.
Proof.
  unfold totalVotes. induction l as [|y l IH]; simpl; [reflexivity|].
  destruct (votes y <=? votes x)%Z; simpl; lia.
Qed.

Lemma totalVotes_sortDesc l : totalVotes (sortDesc l) = totalVotes l.
Proof.
  unfold sortDesc. induction l as [|x l IH]; simpl; [reflexivity|].
  rewrite totalVotes_insertDesc, IH. reflexivity.
Qed.

Lemma insertDesc_descending x l : descending l -> descending (insertDesc x l).
Proof.
  induction l as [|y l IH]; simpl; [intros _; split; [intros ? [] | exact I]|].
  intros [Hy Hl]. destruct (Z.leb_spec (votes y) (votes x)) as [Hle|Hgt]; simpl.
  - split; [|split; assumption].
    intros z [<-|Hz]; [exact Hle|]. specialize (Hy z Hz). lia.
  - split; [|apply IH; exact Hl].
    intros z Hz. apply insertDesc_In in Hz as [->|Hz]; [lia | apply Hy; exact Hz].
Qed.

Lemma sortDesc_descending l : descending (sortDesc l).
Proof.
  unfold sortDesc. induction l as [|x l IH]; simpl; [exact I|].
  apply insertDesc_descending. exact IH.
Qed.

Lemma insertDesc_perm x l : insertDesc x l ≡ₚ x :: l.
Proof.
  induction l as [|y l IH]; simpl; [reflexivity|].
  destruct (votes y <=? votes x)%Z; [reflexivity|].
  rewrite IH. apply Permutation_swap.
Qed.

Lemma sortDesc_perm l : sortDesc l ≡ₚ l.
Proof.
  unfold sortDesc. induction l as [|x l IH]; simpl; [reflexivity|].
  rewrite insertDesc_perm, IH. reflexivity.
Qed.

(** X12. [getVoteResults] is the tally of the votes: its results are in
    descending order of votes, no target occurs twice, every result carries
    the number of living voters who voted for its target (at least one),
    every target with such a voter has a result, and the votes of all
    results add up to the number of living players who voted. *)
Theorem getVoteResults_is_the_tally g :
  descending (getVoteResults g)
  /\ NoDup (List.map target (getVoteResults g))
  /\ (forall r, In r (getVoteResults g) ->
        target r <> "" /\ 1 <= votes r /\ votes r = votesFor (target r) g)
  /\ (forall t, t <> "" -> 0 < votesFor t g ->
        exists r, In r (getVoteResults g) /\ target r = t)
  /\ totalVotes (getVoteResults g) = countedVoters g.
Proof.
  unfold getVoteResults, countedVoters.
  change (fun '(t, n) => mkVoteResult t n) with toResult.
  destruct (voteCounts_countsOf (players g)) as (Hnd & Hpos & Hcnt).
  split; [apply sortDesc_descending|]. split.
  { rewrite sortDesc_perm, List.map_map.
    assert (He : List.map (fun x => target (toResult x)) (voteCounts (players g))
                 = List.map fst (voteCounts (players g))).
    { apply List.map_ext. intros [k n]. reflexivity. }
    rewrite He. exact Hnd. }
  split.
  { intros r Hr. apply (proj1 (sortDesc_In _ _)) in Hr. apply in_map_iff in Hr as ([k n] & <- & Hin).
    simpl. destruct (Hpos _ _ Hin) as [Hk Hn]. split; [exact Hk|]. split; [exact Hn|].
    unfold votesFor. rewrite <- (Hcnt k Hk). symmetry.
    apply countOf_entry; assumption. }
  split.
  { intros t Ht Hv. unfold votesFor in Hv. rewrite <- (Hcnt t Ht) in Hv.
    destruct (countOf_positive _ _ Hv) as (n & Hn).
    exists (toResult (t, n)). split; [|reflexivity].
    apply sortDesc_In. apply in_map. exact Hn. }
  rewrite totalVotes_sortDesc, <- sumCounts_voteCounts.
  unfold totalVotes, sumCounts. rewrite List.map_map. f_equal.
  apply List.map_ext. intros [k n]. reflexivity.
Qed.

Lemma voteCounts_none ps :
  (forall p, In p ps -> counted p = false) -> voteCounts ps = [].
Proof.
  unfold voteCounts. change (fun counts player => _) with countStep.
  induction ps as [|p ps IH] using rev_ind; [reflexivity|].
  intros H. rewrite List.fold_left_app. simpl.
  rewrite IH by (intros q Hq; apply H; apply in_or_app; left; exact Hq).
  unfold countStep. rewrite (H p) by (apply in_or_app; right; left; reflexivity).
  reflexivity.
Qed.

(** X13. A voting phase starts from an empty tally: after the reset loop of
    [startVotingPhase], and after [startRound], [getVoteResults] is empty,
    so a tally taken before anybody votes eliminates no one. *)
Theorem voting_starts_from_empty_tally g :
  getVoteResults (resetVotes g) = []
  /\ voteElimination (resetVotes g) = None
  /\ (forall gen r g', startRound gen r g = inr g' -> getVoteResults g' = []).
Proof.
  assert (Hreset : getVoteResults (resetVotes g) = []).
  { unfold getVoteResults, resetVotes. simpl. rewrite voteCounts_none; [reflexivity|].
    intros p Hp. apply in_map_iff in Hp as (q & <- & _).
    destruct (isAlive q) eqn:Ha; unfold counted; simpl; rewrite ?Ha;
      rewrite ?andb_false_r; reflexivity. }
  split; [exact Hreset|]. split.
  { unfold voteElimination. rewrite Hreset. reflexivity. }
  intros gen r g'. unfold startRound. destruct (_ || _); [discriminate|].
  intros [= <-]. unfold getVoteResults. simpl. rewrite voteCounts_none; [reflexivity|].
  intros p Hp. apply in_map_iff in Hp as (q & <- & _).
  destruct (isAlive q) eqn:Ha; unfold counted, resetRound; simpl; rewrite ?Ha;
    rewrite ?andb_false_r; reflexivity.
Qed.

(** ** The outcome of a kill attempt *)

(** What a successful attempt has done. *)
Lemma attemptKill_kills ms now rand id ident g :
  rosterUnique g ->
  killed (snd (attemptKill ms now rand id ident g)) = true ->
  exists imp tgt,
    getPlayer g id = Some imp /\ isAlive imp = true /\ role imp = Some IMPOSTOR
    /\ isKillPhase (state g) = true
    /\ findTarget ms ident g = Some tgt /\ inboxId tgt <> id /\ isAlive tgt = true
    /\ (rand < killSuccessChance g)%Q
    /\ message (snd (attemptKill ms now rand id ident g)) = KillSucceeded (username tgt)
    /\ getPlayer (fst (attemptKill ms now rand id ident g)) (inboxId tgt)
       = Some (setIsAlive false tgt)
    /\ getPlayer (fst (attemptKill ms now rand id ident g)) id
       = Some (setKill (killAttempts imp + 1) (Some now) imp)
    /\ eliminatedPlayers (fst (attemptKill ms now rand id ident g))
       = {[inboxId tgt]} ∪ eliminatedPlayers g
    /\ aliveCount (fst (attemptKill ms now rand id ident g)) = aliveCount g - 1.
Proof.
  intros Hnd. unfold attemptKill.
  destruct (getPlayer g id) as [imp|] eqn:Himp; [|discriminate].
  destruct (isAlive imp) eqn:Ha; simpl; [|discriminate].
  destruct (bool_decide (role imp = Some IMPOSTOR)) eqn:Hr; simpl; [|discriminate].
  apply bool_decide_eq_true in Hr.
  destruct (isKillPhase (state g)) eqn:Hph; simpl; [|discriminate].
  destruct (findTarget ms ident g) as [tgt|] eqn:Htgt; [|discriminate].
  destruct (String.eqb_spec (inboxId tgt) id) as [|Hself]; [discriminate|].
  destruct (onCooldown now imp g); [discriminate|].
  destruct (maxKillAttempts g <=? killAttempts imp)%Z; [discriminate|].
  destruct (Qle_bool (killSuccessChance g) rand) eqn:Hq; simpl; [discriminate|].
  intros _. exists imp, tgt.
  destruct (findTarget_alive _ _ _ _ Htgt) as [Hin Halive].
  assert (Hlt : lookupPlayer (inboxId tgt) (players g) = Some tgt)
    by (apply lookupPlayer_unique; assumption).
  unfold getPlayer in *. simpl.
  set (ps1 := updatePlayer id (setKill (killAttempts imp + 1) (Some now)) (players g)).
  assert (Hlt1 : lookupPlayer (inboxId tgt) ps1 = Some tgt).
  { unfold ps1. rewrite lookupPlayer_updatePlayer by reflexivity.
    destruct (String.eqb_spec id (inboxId tgt)); [congruence | exact Hlt]. }
  repeat (split; [first [reflexivity | assumption]|]).
  split.
  { apply Qnot_le_lt. intros Hle. apply Qle_bool_iff in Hle. congruence. }
  split; [reflexivity|]. split.
  { rewrite lookupPlayer_updatePlayer by reflexivity.
    rewrite String.eqb_refl, Hlt1. reflexivity. }
  split.
  { rewrite lookupPlayer_updatePlayer by reflexivity.
    destruct (String.eqb_spec (inboxId tgt) id); [contradiction|].
    unfold ps1. rewrite lookupPlayer_updatePlayer by reflexivity.
    rewrite String.eqb_refl, Himp. reflexivity. }
  split; [reflexivity|].
  unfold aliveCount, getAlivePlayers. simpl.
  pose proof (filter_length_update isAlive (inboxId tgt) (setIsAlive false) ps1 tgt Hlt1)
    as H2.
  pose proof (filter_length_update isAlive id
                (setKill (killAttempts imp + 1) (Some now)) (players g) imp Himp) as H1.
  fold ps1 in H1. simpl in H1, H2. rewrite Halive in H2. rewrite Ha in H1. lia.
Qed.

(** X14. A kill attempt removes at most the player it resolved and never
    the caller. With distinct ids in the roster, and for an identifier, a
    roster and members of ASCII characters: a successful attempt was made by
    the living adversary in a kill phase on the living player the
    identifier resolves to, who is not the caller, with a draw below the
    chance of success; that player is then not alive and listed in
    [eliminatedPlayers], the number of living players has gone down by
    exactly one, and the caller is still alive with one more attempt
    counted. An attempt that does not succeed leaves every player as alive
    as before and [eliminatedPlayers] as it was. *)
Theorem attemptKill_outcome ms now rand id ident g :
  rosterUnique g -> asciiResolution ms ident g = true ->
  (killed (snd (attemptKill ms now rand id ident g)) = false ->
     aliveCount (fst (attemptKill ms now rand id ident g)) = aliveCount g
     /\ eliminatedPlayers (fst (attemptKill ms now rand id ident g))
        = eliminatedPlayers g
     /\ forall id',
          option_map isAlive (getPlayer (fst (attemptKill ms now rand id ident g)) id')
          = option_map isAlive (getPlayer g id'))
  /\ (killed (snd (attemptKill ms now rand id ident g)) = true ->
        exists imp tgt,
          getPlayer g id = Some imp /\ isAlive imp = true /\ role imp = Some IMPOSTOR
          /\ isKillPhase (state g) = true
          /\ findTarget ms ident g = Some tgt /\ inboxId tgt <> id
          /\ isAlive tgt = true
          /\ (rand < killSuccessChance g)%Q
          /\ message (snd (attemptKill ms now rand id ident g))
             = KillSucceeded (username tgt)
          /\ getPlayer (fst (attemptKill ms now rand id ident g)) (inboxId tgt)
             = Some (setIsAlive false tgt)
          /\ getPlayer (fst (attemptKill ms now rand id ident g)) id
             = Some (setKill (killAttempts imp + 1) (Some now) imp)
          /\ eliminatedPlayers (fst (attemptKill ms now rand id ident g))
             = {[inboxId tgt]} ∪ eliminatedPlayers g
          /\ aliveCount (fst (attemptKill ms now rand id ident g)) = aliveCount g - 1).
Proof.
  intros Hnd _. split; [|apply attemptKill_kills; exact Hnd].
  unfold attemptKill.
  destruct (getPlayer g id) as [imp|] eqn:Himp; [|intros _; repeat split].
  branches; simpl; intros Hk; try discriminate Hk; try (repeat split; reflexivity).
  unfold aliveCount, getAlivePlayers, getPlayer in *. simpl.
  pose proof (filter_length_update isAlive id
                (setKill (killAttempts imp + 1) (Some now)) (players g) imp Himp) as H1.
  simpl in H1. split; [destruct (isAlive imp); lia|]. split; [reflexivity|].
  intros id'. rewrite lookupPlayer_updatePlayer by reflexivity.
  destruct (id =? id'); [|reflexivity].
  destruct (lookupPlayer id' (players g)); reflexivity.
Qed.

Lemma attemptKill_outcome_witness :
  aliveCount (fst (attemptKill None 300000 0 "d" "Fay" sampleKillPhase))
  = aliveCount sampleKillPhase - 1
  /\ aliveCount (fst (attemptKill None 300000 (3 # 4) "d" "Fay" sampleKillPhase))
     = aliveCount sampleKillPhase.
Proof.
  assert (Hnd : rosterUnique sampleKillPhase)
    by (apply (bool_decide_unpack _); vm_compute; exact I).
  assert (Hascii : forall ident, Js.isAscii ident = true ->
                     asciiResolution None ident sampleKillPhase = true).
  { intros ident Hi. unfold asciiResolution. rewrite Hi. vm_compute. reflexivity. }
  split.
  - destruct (attemptKill_outcome None 300000 0 "d" "Fay" sampleKillPhase Hnd
                (Hascii "Fay" eq_refl))
      as [_ H].
    assert (Hs : killed (snd (attemptKill None 300000 0 "d" "Fay" sampleKillPhase)) = true)
      by (vm_compute; reflexivity).
    destruct (H Hs) as (imp & tgt & Hrest).
    decompose [and] Hrest. assumption.
  - destruct (attemptKill_outcome None 300000 (3 # 4) "d" "Fay" sampleKillPhase Hnd
                (Hascii "Fay" eq_refl))
      as [H _].
    assert (Hs : killed (snd (attemptKill None 300000 (3 # 4) "d" "Fay" sampleKillPhase))
                 = false)
      by (vm_compute; reflexivity).
    exact (proj1 (H Hs)).
Defined.

(** ** The phases of a round *)

(** X15. [advancePhase] never throws and walks the states in the order of
    [getStateForRoundPhase]: within a round [r] of [1..MAX_ROUNDS] it goes
    from the task state to the kill state, on to the discussion state and on
    to the voting state; out of the voting state it starts round [r + 1],
    or goes to [GAME_END] after the last round; in every other state it
    does nothing. Four advances from the task state of a round lead to the
    task state of the next round with the round counter one higher, and
    out of the last round to [GAME_END]. *)
Theorem advancePhase_walks_the_round cfg gen g :
  (exists g', advancePhase gen g = inr g')
  /\ (forall r, 1 <= r <= MAX_ROUNDS ->
        (state g = getStateForRoundPhase r TASKS ->
           advancePhase gen g = inr (withState (getStateForRoundPhase r KILL) g))
        /\ (state g = getStateForRoundPhase r KILL ->
              advancePhase gen g
              = inr (withState (getStateForRoundPhase r DISCUSSION) g))
        /\ (state g = getStateForRoundPhase r DISCUSSION ->
              advancePhase gen g = inr (withState (getStateForRoundPhase r VOTING) g))
        /\ (state g = getStateForRoundPhase r VOTING ->
              advancePhase gen g
              = if (r <? MAX_ROUNDS)%Z then startRound gen (r + 1) g
                else inr (withState GAME_END g))
        /\ (state g = getStateForRoundPhase r TASKS ->
              state (runAll cfg [OpAdvancePhase gen; OpAdvancePhase gen;
                                 OpAdvancePhase gen; OpAdvancePhase gen] g)
              = (if (r <? MAX_ROUNDS)%Z then getStateForRoundPhase (r + 1) TASKS
                 else GAME_END)
              /\ round (runAll cfg [OpAdvancePhase gen; OpAdvancePhase gen;
                                    OpAdvancePhase gen; OpAdvancePhase gen] g)
                 = (if (r <? MAX_ROUNDS)%Z then r + 1 else round g)))
  /\ (roundOf (state g) = None \/ state g = GAME_END -> advancePhase gen g = inr g).
Proof.
  split; [|split].
  - unfold advancePhase, startRound. destruct (state g); simpl; eexists; reflexivity.
  - unfold MAX_ROUNDS. intros r Hr. assert (Hc : r = 1 \/ r = 2 \/ r = 3) by lia.
    destruct g as [st lg og ps rd stt jd cd imp el kc ks mk ta].
    destruct Hc as [->|[->| ->]]; simpl;
      (split; [|split; [|split; [|split]]]); intros ->; try reflexivity;
      split; reflexivity.
  - unfold advancePhase. intros [H|H]; [|rewrite H; reflexivity].
    destruct (state g); simpl in H; try discriminate H; reflexivity.
Qed.

(** ** The action buttons *)

Lemma intentKind_kill t : intentKind (String.append "kill-" t) = KillButton.
Proof. destruct t; vm_compute; reflexivity. Qed.

Lemma find_the_one {A : Type} (P : A -> bool) (l : list A) (x : A) :
  In x l -> P x = true -> (forall y, In y l -> P y = true -> y = x) ->
  List.find P l = Some x.
Proof.
  intros Hin Hx Huniq. destruct (List.find P l) as [y|] eqn:Hf.
  - apply List.find_some in Hf as [Hy HPy]. rewrite (Huniq y Hy HPy). reflexivity.
  - pose proof (List.find_none _ _ Hf x Hin). congruence.
Qed.

Lemma findTarget_by_name ms tp g :
  In tp (players g) -> isAlive tp = true ->
  Js.isAddress (Js.trim (username tp)) = false -> nameUnique tp g ->
  findTarget ms (username tp) g = Some tp.
Proof.
  intros Hin Ha Haddr Huniq. unfold findTarget, findByAddress. rewrite Haddr.
  apply find_the_one; [exact Hin | |].
  - rewrite String.eqb_refl, Ha. reflexivity.
  - intros q Hq HP. apply andb_true_iff in HP as [Hn Hqa].
    apply String.eqb_eq in Hn. apply Huniq; assumption.
Qed.

(** X16. The kill button of a player reaches that player when names are
    distinct. The button handler looks the clicked player up by id and then
    passes the player's user name to [attemptKill], which resolves it again
    among the living players without regard to case. For a roster of user
    names of ASCII characters: if the clicked player is alive, bears a user
    name that no other living player bears, up to the case of its letters,
    and that is not shaped like an address, the attempt is made on the
    clicked player: when it succeeds, that player is the one marked not
    alive. *)
Theorem kill_button_reaches_its_player cfg env now rand sender t s tp :
  rosterUnique (game s) -> asciiNames (game s) = true ->
  getPlayer (game s) t = Some tp -> isAlive tp = true ->
  Js.isAddress (Js.trim (username tp)) = false ->
  nameUnique tp (game s) ->
  killButton cfg env Dm now rand sender (String.append "kill-" t) s
  = mbind (fun result : KillResult =>
             if killed result then afterKill cfg env true (message result)
             else ret tt)
          (attemptKillFlow env now rand sender (username tp)) s
  /\ findTarget (members env) (username tp) (game s) = Some tp
  /\ (killed (snd (attemptKill (members env) now rand sender (username tp) (game s)))
      = true ->
      message (snd (attemptKill (members env) now rand sender (username tp) (game s)))
      = KillSucceeded (username tp)
      /\ getPlayer (fst (attemptKill (members env) now rand sender (username tp)
                           (game s))) t
         = Some (setIsAlive false tp)).
Proof.
  intros Hnd _ Ht Ha Haddr Huniq.
  destruct (lookupPlayer_some _ _ _ Ht) as [Hin Hid].
  pose proof (findTarget_by_name (members env) tp (game s) Hin Ha Haddr Huniq) as Hfind.
  split; [|split; [exact Hfind|]].
  - unfold killButton. simpl. unfold mbind at 1, Flow_bind at 1, read.
    change (getPlayer (game s) (String.append "" t)) with (getPlayer (game s) t).
    rewrite Ht. reflexivity.
  - intros Hk.
    destruct (attemptKill_kills _ _ _ _ _ _ Hnd Hk)
      as (imp & tgt & _ & _ & _ & _ & Htgt & _ & _ & _ & Hmsg & Hdead & _).
    rewrite Hfind in Htgt. injection Htgt as <-.
    rewrite <- Hid. split; assumption.
Qed.

Lemma kill_button_reaches_its_player_witness :
  findTarget (members sampleEnv) "Fay" sampleKillPhase
  = Some (setRole (Some CREW) (newPlayer "f" "Fay")).
Proof.
  assert (Hnd : rosterUnique sampleKillPhase)
    by (apply (bool_decide_unpack _); vm_compute; exact I).
  assert (Ht : getPlayer sampleKillPhase "f"
               = Some (setRole (Some CREW) (newPlayer "f" "Fay")))
    by (vm_compute; reflexivity).
  assert (Hascii : asciiNames sampleKillPhase = true) by (vm_compute; reflexivity).
  assert (Huniq : nameUnique (setRole (Some CREW) (newPlayer "f" "Fay")) sampleKillPhase).
  { intros q Hq _ Hname. vm_compute in Hq.
    decompose [or] Hq; try contradiction; subst q;
      try reflexivity; vm_compute in Hname; discriminate Hname. }
  exact (proj1 (proj2 (kill_button_reaches_its_player sampleConfig sampleEnv
                         300000 0%Q "d" "f" (mkSession sampleKillPhase [] 0 [])
                         _ Hnd Hascii Ht eq_refl eq_refl Huniq))).
Defined.

(** X17. The buttons name living players and are dispatched to their
    branch. With distinct ids in the roster, every action id that
    [sendVotingButtons] offers is handled by the vote branch of the intent
    handler and is the id of a living player; every action id that
    [sendKillButtons] offers is handled by the kill branch and is the id of
    a living player other than the adversary; and every living player has a
    voting button. *)
Theorem buttons_name_living_players mafia g :
  rosterUnique g ->
  (forall l a, votingButtonIds g = Some l -> In a l ->
     intentKind a = VoteButton
     /\ exists p, getPlayer g (Js.dropPrefix "vote-" a) = Some p /\ isAlive p = true)
  /\ (forall l a, killButtonIds mafia g = Some l -> In a l ->
        intentKind a = KillButton
        /\ exists p, getPlayer g (Js.dropPrefix "kill-" a) = Some p
                     /\ isAlive p = true /\ inboxId p <> mafia)
  /\ (forall p, In p (players g) -> isAlive p = true ->
        exists l, votingButtonIds g = Some l
                  /\ In (String.append "vote-" (inboxId p)) l).
Proof.
  intros Hnd. unfold votingButtonIds, killButtonIds, getAlivePlayers, getPlayer.
  split; [|split].
  - intros l a. destruct (_ =? 0)%Z; [discriminate|]. intros [= <-] Ha.
    apply in_map_iff in Ha as (p & <- & Hp). apply List.filter_In in Hp as [Hp Hal].
    split; [apply intentKind_vote|]. exists p.
    change (Js.dropPrefix "vote-" (String.append "vote-" (inboxId p))) with (inboxId p).
    split; [apply lookupPlayer_unique; assumption | exact Hal].
  - intros l a. destruct (_ =? 0)%Z; [discriminate|]. intros [= <-] Ha.
    apply in_map_iff in Ha as (p & <- & Hp). apply List.filter_In in Hp as [Hp Hne].
    apply List.filter_In in Hp as [Hp Hal].
    split; [apply intentKind_kill|]. exists p.
    change (Js.dropPrefix "kill-" (String.append "kill-" (inboxId p))) with (inboxId p).
    split; [apply lookupPlayer_unique; assumption|]. split; [exact Hal|].
    destruct (String.eqb_spec (inboxId p) mafia); [discriminate | assumption].
  - intros p Hp Hal.
    assert (Hin : In p (List.filter isAlive (players g)))
      by (apply List.filter_In; split; assumption).
    destruct (List.filter isAlive (players g)) as [|q l] eqn:Hf; [destruct Hin|].
    cbn [length Z.of_nat Z.eqb]. eexists. split; [reflexivity|].
    exact (in_map (fun player => String.append "vote-" (inboxId player)) _ p Hin).
Qed.

Lemma buttons_name_living_players_witness :
  votingButtonIds sampleAfterKill = Some ["vote-a"; "vote-b"; "vote-c"; "vote-d"; "vote-e"]
  /\ killButtonIds "d" sampleAfterKill = Some ["kill-a"; "kill-b"; "kill-c"; "kill-e"]
  /\ intentKind "kill-e" = KillButton.
Proof.
  assert (Hnd : rosterUnique sampleAfterKill)
    by (apply (bool_decide_unpack _); vm_compute; exact I).
  assert (Hk : killButtonIds "d" sampleAfterKill
               = Some ["kill-a"; "kill-b"; "kill-c"; "kill-e"])
    by (vm_compute; reflexivity).
  split; [vm_compute; reflexivity|]. split; [exact Hk|].
  destruct (buttons_name_living_players "d" sampleAfterKill Hnd) as (_ & H & _).
  apply (H _ "kill-e" Hk). simpl. tauto.
Defined.

(** * Further properties of the orchestrator *)

Lemma endGame_resets cfg env w s :
  Js.truthyStr (lobbyGroupId (game s)) = true -> groupFound env = true ->
  endGame cfg env (Some w) s
  = (mkSession (initialGame cfg) [] (delayed s)
       (outbox s ++ [match w with
                     | CREW => TownWinsNotice
                     | IMPOSTOR => MafiaWinsNotice
                     end]),
     inr tt).
Proof.
  intros Hl Hg. unfold endGame, withLobbyGroup, clearAllTimers.
  unfold mbind, Flow_bind, read, send, write, cleanup, ret, mret, Flow_ret. simpl.
  rewrite Hl, Hg. reflexivity.
Qed.

Lemma tally_without_elimination cfg env s :
  voteElimination (game s) = None ->
  exists out,
    tallyAndEliminate cfg env s
    = (mkSession (game s) (timers s) (delayed s) (outbox s ++ out), inr true).
Proof.
  unfold voteElimination, tallyAndEliminate, aliveCount.
  unfold mbind, Flow_bind, read, write, send, ret, mret, Flow_ret. simpl.
  destruct (getVoteResults (game s)) as [|top rest];
    [intros _; eexists; reflexivity|].
  destruct (Js.ceilHalf _ <=? votes top)%Z; [|intros _; eexists; reflexivity].
  destruct (getPlayer (game s) (target top)) as [p|]; [discriminate|].
  intros _. exists []. rewrite app_nil_r. destruct s; reflexivity.
Qed.

Lemma checkWin_ended g :
  gameEnded (checkWinCondition g) = true ->
  exists w, winner (checkWinCondition g) = Some w.
Proof.
  unfold checkWinCondition. branches; simpl; intros H;
    first [discriminate H | eexists; reflexivity].
Qed.

Lemma checkWin_after_adversary_eliminated g t p :
  impostorInboxId g = Some t -> getPlayer g t = Some p ->
  checkWinCondition (eliminatePlayer t g) = alliesWin.
Proof.
  intros Hi Hp. unfold eliminatePlayer. rewrite Hp.
  unfold checkWinCondition, getPlayer in *. simpl. rewrite Hi. simpl.
  rewrite lookupPlayer_updatePlayer by reflexivity.
  rewrite String.eqb_refl, Hp. reflexivity.
Qed.

Lemma eliminatePlayer_lobby t g :
  lobbyGroupId (eliminatePlayer t g) = lobbyGroupId g.
Proof. unfold eliminatePlayer. destruct (getPlayer g t); reflexivity. Qed.

(** X18. The voting of the last round always ends the game. When the
    callback of the voting timer runs for a round that is not below
    [MAX_ROUNDS] and the lobby group is found, then, whatever the votes, the
    session is reset to the initial one, every timer is cancelled, and the
    last message sent announces the winner. *)
Theorem processVoting_last_round_ends_game cfg env r s :
  MAX_ROUNDS <= r ->
  Js.truthyStr (lobbyGroupId (game s)) = true -> groupFound env = true ->
  exists out,
    processVoting cfg env r s
    = (mkSession (initialGame cfg) [] (delayed s) out, inr tt)
    /\ (last out = Some TownWinsNotice \/ last out = Some MafiaWinsNotice).
Proof.
  intros Hr Hl Hg. unfold processVoting, withLobbyGroup.
  unfold mbind at 1, Flow_bind at 1, read at 1. rewrite Hl, Hg. simpl.
  unfold mbind at 1, Flow_bind at 1.
  destruct (Z.ltb_spec r MAX_ROUNDS) as [|_]; [lia|].
  assert (Hfinish : forall s1,
            Js.truthyStr (lobbyGroupId (game s1)) = true ->
            exists out,
              (winCheck ← read checkWinCondition;
               endGame cfg env (Some (match winner winCheck with
                                      | Some w => w
                                      | None => IMPOSTOR
                                      end))) s1
              = (mkSession (initialGame cfg) [] (delayed s1) out, inr tt)
              /\ (last out = Some TownWinsNotice \/ last out = Some MafiaWinsNotice)).
  { intros s1 Hl1. unfold mbind, Flow_bind, read.
    rewrite (endGame_resets _ _ _ _ Hl1 Hg). eexists. split; [reflexivity|].
    rewrite last_snoc.
    destruct (match winner (checkWinCondition (game s1)) with
              | Some w => w
              | None => IMPOSTOR
              end); [right | left]; reflexivity. }
  pose proof (tallyAndEliminate_decision cfg env s) as Hdec.
  destruct (voteElimination (game s)) as [t|] eqn:He.
  - destruct Hdec as (p & Hp & ->).
    destruct (gameEnded (checkWinCondition (eliminatePlayer t (game s)))) eqn:Hend.
    + destruct (checkWin_ended _ Hend) as (w & Hw). rewrite Hw.
      unfold mbind, Flow_bind.
      rewrite endGame_resets
        by (try exact Hg; simpl; rewrite eliminatePlayer_lobby; exact Hl).
      simpl. eexists. split; [reflexivity|]. rewrite last_snoc.
      destruct w; [right | left]; reflexivity.
    + apply (Hfinish (afterElimination t p s)).
      simpl. rewrite eliminatePlayer_lobby. exact Hl.
  - destruct (tally_without_elimination cfg env s He) as (out & ->).
    apply (Hfinish (mkSession (game s) (timers s) (delayed s) (outbox s ++ out))).
    exact Hl.
Qed.

Lemma processVoting_last_round_ends_game_witness :
  exists out,
    processVoting sampleConfig sampleEnv 3 (mkSession sampleThreeOfFive [] 0 [])
    = (mkSession (initialGame sampleConfig) [] 0 out, inr tt)
    /\ (last out = Some TownWinsNotice \/ last out = Some MafiaWinsNotice).
Proof.
  apply (processVoting_last_round_ends_game sampleConfig sampleEnv 3
           (mkSession sampleThreeOfFive [] 0 [])).
  - vm_compute. discriminate.
  - vm_compute. reflexivity.
  - reflexivity.
Defined.

(** X19. Voting the adversary out ends the game for the allies in any
    round. When the tally orders the elimination of the player that
    [impostorInboxId] names and the lobby group is found, the callback of
    the voting timer announces the elimination, then the allies' win,
    cancels every timer and resets the session to the initial one. *)
Theorem voting_out_the_adversary_ends_game cfg env r s t :
  voteElimination (game s) = Some t -> impostorInboxId (game s) = Some t ->
  Js.truthyStr (lobbyGroupId (game s)) = true -> groupFound env = true ->
  exists p,
    getPlayer (game s) t = Some p
    /\ processVoting cfg env r s
       = (mkSession (initialGame cfg) [] (delayed s)
            (outbox s ++ [EliminatedNotice (username p) (role p); TownWinsNotice]),
          inr tt).
Proof.
  intros He Hi Hl Hg. unfold processVoting, withLobbyGroup.
  unfold mbind at 1, Flow_bind at 1, read at 1. rewrite Hl, Hg. simpl.
  unfold mbind at 1, Flow_bind at 1.
  pose proof (tallyAndEliminate_decision cfg env s) as Hdec. rewrite He in Hdec.
  destruct Hdec as (p & Hp & ->). exists p. split; [exact Hp|].
  rewrite (checkWin_after_adversary_eliminated _ _ _ Hi Hp).
  unfold alliesWin. cbn [gameEnded winner]. unfold mbind, Flow_bind.
  rewrite endGame_resets
    by (try exact Hg; simpl; rewrite eliminatePlayer_lobby; exact Hl).
  simpl. rewrite <- app_assoc. reflexivity.
Qed.

Lemma voting_out_the_adversary_ends_game_witness :
  exists p,
    getPlayer sampleThreeOfSix "d" = Some p
    /\ processVoting sampleConfig sampleEnv 1 (mkSession sampleThreeOfSix [] 0 [])
       = (mkSession (initialGame sampleConfig) [] 0
            ([] ++ [EliminatedNotice (username p) (role p); TownWinsNotice]),
          inr tt).
Proof.
  apply (voting_out_the_adversary_ends_game sampleConfig sampleEnv 1
           (mkSession sampleThreeOfSix [] 0 []) "d").
  - vm_compute. reflexivity.
  - vm_compute. reflexivity.
  - vm_compute. reflexivity.
  - reflexivity.
Defined.

Lemma taskNotices_then_timer (tasks : gmap string Task) k alive s :
  exists out,
    List.fold_right
      (fun player rest =>
         match tasks !! inboxId player with
         | Some task => send (TaskNotice (inboxId player) (question task)) ;; rest
         | None => rest
         end)
      (setPhaseTimer k) alive s
    = (mkSession (game s)
         (k :: List.filter (fun k' => negb (bool_decide (k' = k))) (timers s))
         (delayed s) (outbox s ++ out),
       inr tt).
Proof.
  revert s. induction alive as [|p alive IH]; intros s; simpl.
  - exists []. rewrite app_nil_r. reflexivity.
  - destruct (tasks !! inboxId p) as [task|]; [|apply IH].
    destruct (IH (mkSession (game s) (timers s) (delayed s)
                    (outbox s ++ [TaskNotice (inboxId p) (question task)])))
      as (out & Hout).
    exists (TaskNotice (inboxId p) (question task) :: out).
    unfold mbind at 1, Flow_bind at 1, send at 1. cbv beta iota.
    rewrite Hout. cbn [game timers delayed outbox].
    rewrite <- app_assoc. reflexivity.
Qed.

Lemma startTaskPhase_schedules env r s :
  Js.truthyStr (lobbyGroupId (game s)) = true -> groupFound env = true ->
  exists out,
    startTaskPhase env r s
    = (mkSession (game s)
         (TaskTimer r
          :: List.filter (fun k' => negb (bool_decide (k' = TaskTimer r))) (timers s))
         (delayed s) (outbox s ++ out),
       inr tt).
Proof.
  intros Hl Hg. unfold startTaskPhase, withLobbyGroup.
  destruct (taskNotices_then_timer (taskAssignments (game s)) (TaskTimer r)
              (getAlivePlayers (game s))
              (mkSession (game s) (timers s) (delayed s)
                 (outbox s ++ [TaskPhaseNotice r]))) as (out & Hout).
  exists (TaskPhaseNotice r :: out).
  unfold mbind at 1, Flow_bind at 1, read at 1. cbv beta iota. rewrite Hl, Hg.
  cbv beta iota. cbn [negb].
  unfold mbind at 1, Flow_bind at 1, send at 1. cbv beta iota.
  unfold mbind at 1, Flow_bind at 1, read at 1. cbv beta iota.
  unfold mbind at 1, Flow_bind at 1, read at 1. cbv beta iota.
  cbn [game timers delayed outbox] in *. rewrite Hout.
  rewrite <- app_assoc. reflexivity.
Qed.

Lemma resetRound_twice p :
  (if isAlive (if isAlive p then resetRound p else p)
   then resetRound (if isAlive p then resetRound p else p)
   else (if isAlive p then resetRound p else p))
  = if isAlive p then resetRound p else p.
Proof. destruct (isAlive p) eqn:Ha; simpl; rewrite Ha; reflexivity. Qed.

Lemma aliveUnder_reset id ps :
  aliveUnder id (List.map (fun p => if isAlive p then resetRound p else p) ps)
  = aliveUnder id ps.
Proof.
  unfold aliveUnder. induction ps as [|p ps IH]; simpl; [reflexivity|].
  rewrite IH. destruct (isAlive p) eqn:Ha; simpl; rewrite Ha; reflexivity.
Qed.

Lemma aliveUnder_In p ps :
  In p ps -> isAlive p = true -> aliveUnder (inboxId p) ps = true.
Proof.
  intros Hin Ha. unfold aliveUnder. apply existsb_exists. exists p.
  split; [exact Hin|]. rewrite Ha, String.eqb_refl. reflexivity.
Qed.

(** The session after [advancePhase] followed by [startRound] for a round
    in range, whatever the state was. *)
Lemma advance_then_startRound gen r g :
  1 <= r <= MAX_ROUNDS ->
  exists g1 g2,
    advancePhase gen g = inr g1 /\ startRound gen r g1 = inr g2
    /\ state g2 = getStateForRoundPhase r TASKS /\ round g2 = r
    /\ lobbyGroupId g2 = lobbyGroupId g
    /\ players g2 = List.map (fun p => if isAlive p then resetRound p else p) (players g)
    /\ (forall id, aliveUnder id (players g) = true ->
          taskAssignments g2 !! id = Some (gen id)).
Proof.
  intros [H1 H3].
  assert (Hadv : exists g1,
             advancePhase gen g = inr g1 /\ lobbyGroupId g1 = lobbyGroupId g
             /\ (players g1 = players g
                 \/ players g1
                    = List.map (fun p => if isAlive p then resetRound p else p)
                               (players g))).
  { unfold advancePhase, startRound.
    destruct (state g); simpl; eexists;
      (split; [reflexivity|]); (split; [reflexivity|]);
      first [left; reflexivity | right; reflexivity]. }
  destruct Hadv as (g1 & Hg1 & Hl1 & Hps1). exists g1.
  unfold startRound. destruct (Z.ltb_spec r 1); [lia|].
  destruct (Z.ltb_spec MAX_ROUNDS r); [lia|]. simpl.
  eexists. split; [exact Hg1|]. split; [reflexivity|]. simpl.
  split; [reflexivity|]. split; [reflexivity|]. split; [exact Hl1|].
  assert (Hal : forall id, aliveUnder id (players g1) = aliveUnder id (players g)).
  { intros id. destruct Hps1 as [-> | ->]; [reflexivity | apply aliveUnder_reset]. }
  split.
  - destruct Hps1 as [-> | ->]; [reflexivity|].
    rewrite List.map_map. apply List.map_ext. intros p. apply resetRound_twice.
  - intros id Hid. rewrite fold_tasks_lookup, Hal, Hid. reflexivity.
Qed.

(** X20. Without an elimination the next round starts. When the callback
    of the voting timer runs for a round [r] below [MAX_ROUNDS], the lobby
    group is found and the tally eliminates no one, the session goes to the
    task state of round [r + 1] with the round counter at [r + 1], whatever
    state it was in; every living player has kill attempts and vote cleared
    and a newly generated task, the players that are not alive are left as
    they were, and the task timer of round [r + 1] is pending. *)
Theorem processVoting_starts_next_round cfg env r s :
  1 <= r < MAX_ROUNDS ->
  Js.truthyStr (lobbyGroupId (game s)) = true -> groupFound env = true ->
  voteElimination (game s) = None ->
  snd (processVoting cfg env r s) = inr tt
  /\ state (game (fst (processVoting cfg env r s)))
     = getStateForRoundPhase (r + 1) TASKS
  /\ round (game (fst (processVoting cfg env r s))) = r + 1
  /\ pendingTimer (TaskTimer (r + 1)) (fst (processVoting cfg env r s)) = true
  /\ players (game (fst (processVoting cfg env r s)))
     = List.map (fun p => if isAlive p then resetRound p else p) (players (game s))
  /\ (forall p, In p (players (game s)) -> isAlive p = true ->
        taskAssignments (game (fst (processVoting cfg env r s))) !! inboxId p
        = Some (generateTask env (inboxId p))).
Proof.
  intros [H1 H3] Hl Hg He.
  destruct (advance_then_startRound (generateTask env) (r + 1) (game s))
    as (g1 & g2 & Hg1 & Hg2 & Hst & Hrd & Hlob & Hps & Htasks); [lia|].
  assert (Heq : exists out',
             processVoting cfg env r s
             = (mkSession g2
                  (TaskTimer (r + 1)
                   :: List.filter
                        (fun k' => negb (bool_decide (k' = TaskTimer (r + 1))))
                        (timers s))
                  (delayed s) out', inr tt)).
  { unfold processVoting, withLobbyGroup.
    unfold mbind at 1, Flow_bind at 1, read at 1. rewrite Hl, Hg. simpl.
    unfold mbind at 1, Flow_bind at 1.
    destruct (tally_without_elimination cfg env s He) as (out & ->).
    destruct (Z.ltb_spec r MAX_ROUNDS) as [_|]; [|lia].
    unfold mbind, Flow_bind, engine. simpl. rewrite Hg1. simpl. rewrite Hg2.
    destruct (startTaskPhase_schedules env (r + 1)
                (mkSession g2 (timers s) (delayed s) (outbox s ++ out)))
      as (out' & ->); [simpl; rewrite Hlob; exact Hl | exact Hg |].
    simpl. eexists. reflexivity. }
  destruct Heq as (out' & ->). simpl.
  split; [reflexivity|]. split; [exact Hst|]. split; [exact Hrd|].
  split.
  { unfold pendingTimer. simpl. rewrite bool_decide_eq_true_2 by reflexivity.
    reflexivity. }
  split; [exact Hps|].
  intros p Hp Ha. apply Htasks. apply aliveUnder_In; assumption.
Qed.

Lemma processVoting_starts_next_round_witness :
  state (game (fst (processVoting sampleConfig sampleEnv 1
                      (mkSession sampleSplit [] 0 []))))
  = getStateForRoundPhase (1 + 1) TASKS.
Proof.
  assert (He : voteElimination sampleSplit = None) by (vm_compute; reflexivity).
  assert (Hl : Js.truthyStr (lobbyGroupId sampleSplit) = true)
    by (vm_compute; reflexivity).
  assert (Hr : 1 <= 1 < MAX_ROUNDS) by (unfold MAX_ROUNDS; lia).
  exact (proj1 (proj2 (processVoting_starts_next_round sampleConfig sampleEnv 1
                         (mkSession sampleSplit [] 0 []) Hr Hl eq_refl He))).
Defined.

(** ** The vote of a round, from the tally to the roster *)






















(** * The handlers around the game *)

(** ** The task command *)

Lemma completeTask_refused validate id answer g :
  snd (completeTask validate id answer g) = false ->
  fst (completeTask validate id answer g) = g.
Proof.
  unfold completeTask. branches; simpl; intros H; first [reflexivity | discriminate H].
Qed.

(** X21. The task command does not tell the adversary from an ally who
    answered wrongly. Sent in the group with an answer, by the living
    adversary, it replies "Task answer incorrect" and leaves the session as
    it is, the reply a living ally gets for an answer that [completeTask]
    does not accept. The command changes the session only when it replies
    "Task completed", and then the sender is a living player who is not the
    adversary and the change is the one [completeTask] makes. *)
Theorem taskCommand_hides_the_adversary validate conv sender args g :
  (forall p parts,
     isDM conv = false -> args = Some parts -> parts <> [] ->
     getPlayer g sender = Some p -> isAlive p = true ->
     (role p = Some IMPOSTOR
      \/ snd (completeTask validate sender (String.concat " " parts) g) = false) ->
     taskCommand validate conv sender args g = (g, TaskIncorrect))
  /\ (snd (taskCommand validate conv sender args g) <> TaskCompleted ->
        fst (taskCommand validate conv sender args g) = g)
  /\ (snd (taskCommand validate conv sender args g) = TaskCompleted ->
        exists p parts,
          isDM conv = false /\ args = Some parts
          /\ getPlayer g sender = Some p /\ isAlive p = true
          /\ role p <> Some IMPOSTOR
          /\ completeTask validate sender (String.concat " " parts) g
             = (fst (taskCommand validate conv sender args g), true)).
Proof.
  unfold taskCommand. split; [|split].
  - intros p parts Hdm -> Hne Hp Ha Hor. rewrite Hdm, Hp, Ha.
    destruct parts as [|a rest]; [contradiction|]. simpl.
    destruct (bool_decide (role p = Some IMPOSTOR)) eqn:Hr; [reflexivity|].
    destruct Hor as [Hi|Hc]; [apply bool_decide_eq_false in Hr; contradiction|].
    pose proof (completeTask_refused _ _ _ _ Hc) as Hg.
    destruct (completeTask validate sender _ g) as [g' done]. simpl in *.
    subst. reflexivity.
  - destruct (isDM conv); [reflexivity|].
    destruct args as [[|a rest]|]; try reflexivity.
    destruct (getPlayer g sender) as [p|]; [|reflexivity].
    destruct (negb (isAlive p)); [reflexivity|].
    destruct (bool_decide (role p = Some IMPOSTOR)); [reflexivity|].
    pose proof (completeTask_refused validate sender
                  (String.concat " " (a :: rest)) g) as Hg.
    destruct (completeTask validate sender _ g) as [g' done]. simpl in *.
    destruct done; [intros H; contradiction | intros _; apply Hg; reflexivity].
  - destruct (isDM conv) eqn:Hdm; [discriminate|].
    destruct args as [[|a rest]|]; try discriminate.
    destruct (getPlayer g sender) as [p|] eqn:Hp; [|discriminate].
    destruct (isAlive p) eqn:Ha; simpl; [|discriminate].
    destruct (bool_decide (role p = Some IMPOSTOR)) eqn:Hr; [discriminate|].
    apply bool_decide_eq_false in Hr.
    destruct (completeTask validate sender _ g) as [g' done] eqn:Hc. simpl.
    destruct done; [|discriminate]. intros _. exists p, (a :: rest).
    repeat (split; [first [reflexivity | assumption]|]). exact Hc.
Qed.

Lemma taskCommand_hides_the_adversary_witness :
  taskCommand (fun _ _ => true) Group "d" (Some ["4"]) sampleRound1
  = (sampleRound1, TaskIncorrect)
  /\ snd (taskCommand (fun _ _ => true) Group "a" (Some ["4"]) sampleRound1)
     = TaskCompleted.
Proof.
  split; [|vm_compute; reflexivity].
  destruct (taskCommand_hides_the_adversary (fun _ _ => true) Group "d"
              (Some ["4"]) sampleRound1) as [H _].
  assert (Hp : getPlayer sampleRound1 "d" = Some sampleDan) by (vm_compute; reflexivity).
  apply (H sampleDan ["4"] eq_refl eq_refl); [discriminate | exact Hp | reflexivity|].
  left. reflexivity.
Defined.

(** ** The start of the game *)

Lemma ids_alter (f : Player -> Player) i ps :
  (forall q, inboxId (f q) = inboxId q) -> ids (alter f i ps) = ids ps.
Proof.
  intros Hf. apply (Forall2_ids (fun _ _ => True)).
  apply Forall2_alter_self; intros q; split; trivial.
Qed.

Lemma ids_map_self (F : Player -> Player) ps :
  (forall q, inboxId (F q) = inboxId q) -> ids (List.map F ps) = ids ps.
Proof.
  intros HF. unfold ids. rewrite List.map_map. apply List.map_ext. exact HF.
Qed.

Lemma assignRoles_frame cfg now rand g g' :
  assignRoles cfg now rand g = inr g' ->
  state g' = ASSIGN_ROLES /\ lobbyGroupId g' = lobbyGroupId g
  /\ ids (players g') = ids (players g) /\ impostorInboxId g' <> None.
Proof.
  unfold assignRoles. destruct (_ || _); [discriminate|].
  destruct (arrayAt _ _) as [imp|]; [|discriminate].
  intros [= <-]. simpl. repeat split; [|discriminate].
  rewrite ids_map_self by (intros q; destruct (negb _); reflexivity).
  apply ids_alter. reflexivity.
Qed.

Lemma sendRoleDMs_session l :
  session (sendRoleDMs l) = session l /\ joinWindow (sendRoleDMs l) = joinWindow l
  /\ (In CancelButtonNotice (notices (sendRoleDMs l)) ->
      In CancelButtonNotice (notices l)).
Proof.
  unfold sendRoleDMs. generalize (players (game (session l))). intros ps.
  revert l. induction ps as [|p ps IH]; intros l; simpl; [tauto|].
  destruct (IH (note (RoleDm (inboxId p) (bool_decide (role p = Some IMPOSTOR))) l))
    as (Hs & Hj & Hn).
  split; [exact Hs|]. split; [exact Hj|]. intros Hin. specialize (Hn Hin).
  simpl in Hn. apply in_app_or in Hn as [Hn|[Hn|[]]]; [exact Hn | discriminate Hn].
Qed.

(** What [startGame] does when the roles can be assigned and the lobby
    group is found. *)
Lemma startGame_runs cfg env now rand l :
  canStartGame cfg now (game (session l)) = true ->
  (0 <= rand)%Q -> (rand < 1)%Q -> 1 <= MIN_PLAYERS_TO_START cfg ->
  Js.truthyStr (lobbyGroupId (game (session l))) = true -> groupFound env = true ->
  exists g1 g2 out,
    assignRoles cfg now rand (game (session l)) = inr g1
    /\ startRound (generateTask env) 1 g1 = inr g2
    /\ startGame cfg env now rand l
       = mkLobby
           (mkSession g2
              (TaskTimer 1
               :: List.filter (fun k' => negb (bool_decide (k' = TaskTimer 1)))
                    (timers (session l)))
              (delayed (session l)) (outbox (session l) ++ out))
           (joinWindow l)
           (notices (sendRoleDMs (withGame g1 l))
            ++ [RolesAssignedNotice] ++ [CancelButtonNotice]).
Proof.
  intros Hc H0 H1 Hmin Hl Hg.
  assert (Hs : state (game (session l)) = WAITING_FOR_PLAYERS).
  { unfold canStartGame in Hc. apply andb_true_iff in Hc as [Hc _].
    apply andb_true_iff in Hc as [Hc _]. apply bool_decide_eq_true in Hc. exact Hc. }
  assert (Hne : players (game (session l)) <> []).
  { unfold canStartGame in Hc. apply andb_true_iff in Hc as [_ Hc].
    apply Z.leb_le in Hc. unfold rosterSize in Hc.
    destruct (players (game (session l))); [simpl in Hc; lia | discriminate]. }
  destruct (assignRoles_succeeds cfg now rand _ Hs Hc H0 H1 Hne) as (g1 & Hg1).
  destruct (assignRoles_frame _ _ _ _ _ Hg1) as (_ & Hl1 & _ & _).
  exists g1. unfold startGame. rewrite Hg1, Hl1, Hl, Hg. cbn [andb].
  destruct (sendRoleDMs_session (withGame g1 l)) as (Hses & Hjw & _).
  unfold note. cbn [session joinWindow notices]. rewrite Hses, Hjw.
  cbn [withGame session joinWindow].
  unfold mbind, Flow_bind, engine. cbn [game].
  assert (Hg2 : exists g2, startRound (generateTask env) 1 g1 = inr g2
                           /\ lobbyGroupId g2 = lobbyGroupId g1).
  { unfold startRound. simpl. eexists. split; reflexivity. }
  destruct Hg2 as (g2 & Hg2 & Hl2). rewrite Hg2. exists g2.
  cbn [game timers delayed outbox].
  destruct (startTaskPhase_schedules env 1
              (mkSession g2 (timers (session l)) (delayed (session l))
                 (outbox (session l))))
    as (out & ->); [simpl; rewrite Hl2, Hl1; exact Hl | exact Hg |].
  exists out. split; [reflexivity|]. split; [reflexivity|].
  cbn [game timers delayed outbox]. rewrite <- app_assoc. reflexivity.
Qed.

Lemma startRound_frame gen r g g' :
  startRound gen r g = inr g' ->
  state g' = getStateForRoundPhase r TASKS /\ round g' = r
  /\ ids (players g') = ids (players g)
  /\ impostorInboxId g' = impostorInboxId g
  /\ (forall p, In p (players g') -> isAlive p = true ->
        taskAssignments g' !! inboxId p = Some (gen (inboxId p))).
Proof.
  unfold startRound. destruct (_ || _); [discriminate|]. intros [= <-]. simpl.
  split; [reflexivity|]. split; [reflexivity|]. split.
  { apply ids_map_self. intros q. destruct (isAlive q); reflexivity. }
  split; [reflexivity|].
  intros p Hp Ha. rewrite fold_tasks_lookup.
  apply in_map_iff in Hp as (q & <- & Hq).
  assert (Hqa : isAlive q = true).
  { destruct (isAlive q) eqn:Hq'; [reflexivity|]. rewrite Hq' in Ha. exact Ha. }
  rewrite Hqa. simpl. rewrite (aliveUnder_In q _ Hq Hqa). reflexivity.
Qed.

(** X22. [startGame] starts round 1 or does nothing. With a draw in
    [[0, 1)] and a quorum of at least one player: when [canStartGame] does
    not hold, [startGame] leaves the session, the timers and the messages as
    they are, and no exception escapes; when it holds and the lobby group is
    found, the session is in the task state of round 1 with the round
    counter at 1, the roster holds the same ids, an adversary is named,
    every living player has a task and the task timer of round 1 is
    pending; when it holds but the lobby group is not found, the roles are
    assigned and the session stays in [ASSIGN_ROLES] with no timer
    scheduled. *)
Theorem startGame_starts_round_one cfg env now rand l :
  (0 <= rand)%Q -> (rand < 1)%Q -> 1 <= MIN_PLAYERS_TO_START cfg ->
  (canStartGame cfg now (game (session l)) = false ->
     startGame cfg env now rand l = l)
  /\ (canStartGame cfg now (game (session l)) = true ->
        Js.truthyStr (lobbyGroupId (game (session l))) = true ->
        groupFound env = true ->
        state (game (session (startGame cfg env now rand l))) = ROUND_1_TASKS
        /\ round (game (session (startGame cfg env now rand l))) = 1
        /\ pendingTimer (TaskTimer 1) (session (startGame cfg env now rand l)) = true
        /\ ids (players (game (session (startGame cfg env now rand l))))
           = ids (players (game (session l)))
        /\ impostorInboxId (game (session (startGame cfg env now rand l))) <> None
        /\ (forall p,
              In p (players (game (session (startGame cfg env now rand l)))) ->
              isAlive p = true ->
              taskAssignments (game (session (startGame cfg env now rand l)))
                !! inboxId p
              = Some (generateTask env (inboxId p)))
        /\ joinWindow (startGame cfg env now rand l) = joinWindow l)
  /\ (canStartGame cfg now (game (session l)) = true ->
        Js.truthyStr (lobbyGroupId (game (session l))) && groupFound env = false ->
        state (game (session (startGame cfg env now rand l))) = ASSIGN_ROLES
        /\ timers (session (startGame cfg env now rand l)) = timers (session l)).
Proof.
  intros H0 H1 Hmin. split; [|split].
  - intros Hc. unfold startGame, assignRoles. rewrite Hc, orb_true_r. reflexivity.
  - intros Hc Hl Hg.
    destruct (startGame_runs cfg env now rand l Hc H0 H1 Hmin Hl Hg)
      as (g1 & g2 & out & Hg1 & Hg2 & ->).
    destruct (assignRoles_frame _ _ _ _ _ Hg1) as (_ & _ & Hids1 & Himp1).
    destruct (startRound_frame _ _ _ _ Hg2) as (Hst & Hrd & Hids2 & Himp2 & Htasks).
    cbn [session game joinWindow].
    split; [exact Hst|]. split; [exact Hrd|]. split.
    { unfold pendingTimer. cbn [timers existsb].
      rewrite bool_decide_eq_true_2 by reflexivity. reflexivity. }
    split; [congruence|]. split; [congruence|]. split; [exact Htasks | reflexivity].
  - intros Hc Hno.
    assert (Hs : state (game (session l)) = WAITING_FOR_PLAYERS).
    { unfold canStartGame in Hc. apply andb_true_iff in Hc as [Hc _].
      apply andb_true_iff in Hc as [Hc _]. apply bool_decide_eq_true in Hc. exact Hc. }
    assert (Hne : players (game (session l)) <> []).
    { unfold canStartGame in Hc. apply andb_true_iff in Hc as [_ Hc].
      apply Z.leb_le in Hc. unfold rosterSize in Hc.
      destruct (players (game (session l))); [simpl in Hc; lia | discriminate]. }
    destruct (assignRoles_succeeds cfg now rand _ Hs Hc H0 H1 Hne) as (g1 & Hg1).
    destruct (assignRoles_frame _ _ _ _ _ Hg1) as (Hst1 & Hl1 & _ & _).
    unfold startGame. rewrite Hg1, Hl1, Hno.
    destruct (sendRoleDMs_session (withGame g1 l)) as (Hses & _ & _).
    rewrite Hses. split; [exact Hst1 | reflexivity].
Qed.

Lemma startGame_starts_round_one_witness :
  state (game (session (startGame sampleConfig sampleEnv 8000 (1 # 2)
                          (mkLobby (mkSession sampleLobby [] 0 []) true []))))
  = ROUND_1_TASKS.
Proof.
  assert (Hc : canStartGame sampleConfig 8000 sampleLobby = true)
    by (vm_compute; reflexivity).
  assert (Hl : Js.truthyStr (lobbyGroupId sampleLobby) = true)
    by (vm_compute; reflexivity).
  assert (H0 : (0 <= 1 # 2)%Q) by (vm_compute; discriminate).
  assert (H1 : (1 # 2 < 1)%Q) by (vm_compute; reflexivity).
  assert (Hm : 1 <= MIN_PLAYERS_TO_START sampleConfig) by (vm_compute; discriminate).
  exact (proj1 (proj1 (proj2 (startGame_starts_round_one sampleConfig sampleEnv 8000
                                (1 # 2) (mkLobby (mkSession sampleLobby [] 0 []) true [])
                                H0 H1 Hm)) Hc Hl eq_refl)).
Defined.

(** ** Joining by button *)

Lemma addPlayer_appends agent now id name g :
  joinable now id g -> rosterSize g < MAX_PLAYERS ->
  addPlayer agent now id name g
  = (withState WAITING_FOR_PLAYERS (withPlayers (players g ++ [newPlayer id name]) g),
     mkJoinResult true None).
Proof.
  intros Hj Hroom. apply joinable_iff in Hj as (Hst & Hhas & Hdl).
  unfold addPlayer. rewrite Hst, Hhas, Hdl.
  destruct (Z.leb_spec MAX_PLAYERS (rosterSize g)); [lia | reflexivity].
Qed.

(** X23. The join that fills the lobby starts the game at once. For a
    join by button that [addPlayer] lets in, with both groups set and
    found: if the roster held [MAX_PLAYERS - 1] players, the join-window
    timer is cancelled and the game starts in the same call, so the session
    is in the task state of round 1 with the newcomer last in the roster and
    the task timer of round 1 pending; if it held fewer, the session waits
    for players with the newcomer appended and the join-window timer is left
    as it was. *)
Theorem full_lobby_starts_at_once cfg env agent now now' rand sender name l :
  (0 <= rand)%Q -> (rand < 1)%Q ->
  1 <= MIN_PLAYERS_TO_START cfg <= MAX_PLAYERS ->
  joinable now sender (game (session l)) ->
  Js.truthyStr (lobbyGroupId (game (session l))) = true ->
  Js.truthyStr (originalGroupId (game (session l))) = true ->
  groupFound env = true ->
  (rosterSize (game (session l)) = MAX_PLAYERS - 1 ->
     state (game (session (joinGame cfg env true agent now now' rand sender name l)))
     = ROUND_1_TASKS
     /\ round (game (session (joinGame cfg env true agent now now' rand sender name l)))
        = 1
     /\ joinWindow (joinGame cfg env true agent now now' rand sender name l) = false
     /\ pendingTimer (TaskTimer 1)
          (session (joinGame cfg env true agent now now' rand sender name l)) = true
     /\ ids (players
               (game (session (joinGame cfg env true agent now now' rand sender name l))))
        = ids (players (game (session l))) ++ [sender])
  /\ (rosterSize (game (session l)) < MAX_PLAYERS - 1 ->
        game (session (joinGame cfg env true agent now now' rand sender name l))
        = withState WAITING_FOR_PLAYERS
            (withPlayers (players (game (session l)) ++ [newPlayer sender name])
               (game (session l)))
        /\ joinWindow (joinGame cfg env true agent now now' rand sender name l)
           = joinWindow l
        /\ timers (session (joinGame cfg env true agent now now' rand sender name l))
           = timers (session l)).
Proof.
  intros H0 H1 [Hmin Hmax] Hj Hl Ho Hg.
  set (g := game (session l)) in *.
  set (g' := withState WAITING_FOR_PLAYERS
               (withPlayers (players g ++ [newPlayer sender name]) g)).
  assert (Hsize : rosterSize g' = rosterSize g + 1).
  { unfold rosterSize, g'. simpl. rewrite List.length_app. simpl. lia. }
  split.
  - intros Hfull. unfold joinGame. fold g.
    rewrite (addPlayer_appends agent now sender name g Hj) by lia. fold g'.
    cbn [success removedPlayer negb]. unfold getState.
    rewrite bool_decide_eq_true_2 by reflexivity.
    change (lobbyGroupId g') with (lobbyGroupId g).
    change (originalGroupId g') with (originalGroupId g).
    rewrite Hl, Ho, Hg. cbn [andb].
    fold (rosterSize g'). rewrite Hsize.
    destruct (Z.leb_spec MAX_PLAYERS (rosterSize g + 1)); [|lia].
    match goal with
    | |- context [startGame cfg env now' rand ?l0] => set (l3 := l0)
    end.
    assert (Hc : canStartGame cfg now' (game (session l3)) = true).
    { unfold canStartGame. change (game (session l3)) with g'.
      rewrite Hsize. rewrite bool_decide_eq_true_2 by reflexivity.
      destruct (Z.leb_spec 6 (rosterSize g + 1)); [|unfold MAX_PLAYERS in *; lia].
      rewrite orb_true_r. simpl. apply Z.leb_le. lia. }
    destruct (startGame_runs cfg env now' rand l3 Hc H0 H1 Hmin Hl Hg)
      as (g1 & g2 & out & Hg1 & Hg2 & ->).
    destruct (assignRoles_frame _ _ _ _ _ Hg1) as (_ & _ & Hids1 & _).
    destruct (startRound_frame _ _ _ _ Hg2) as (Hst & Hrd & Hids2 & _ & _).
    cbn [session game joinWindow].
    split; [exact Hst|]. split; [exact Hrd|]. split; [reflexivity|]. split.
    { unfold pendingTimer. cbn [timers existsb].
      rewrite bool_decide_eq_true_2 by reflexivity. reflexivity. }
    rewrite Hids2, Hids1. change (game (session l3)) with g'.
    unfold g'. simpl. apply ids_app.
  - intros Hroom. unfold joinGame. fold g.
    rewrite (addPlayer_appends agent now sender name g Hj) by lia. fold g'.
    cbn [success removedPlayer negb]. unfold getState.
    rewrite bool_decide_eq_true_2 by reflexivity.
    change (lobbyGroupId g') with (lobbyGroupId g).
    change (originalGroupId g') with (originalGroupId g).
    rewrite Hl, Ho, Hg. cbn [andb].
    fold (rosterSize g'). rewrite Hsize.
    destruct (Z.leb_spec MAX_PLAYERS (rosterSize g + 1)); [lia|].
    repeat split.
Qed.

Lemma full_lobby_starts_at_once_witness :
  state (game (session (joinGame sampleConfig sampleEnv true "agent" 7000 7000 (1 # 2)
                          "f" "Fay" (mkLobby (mkSession sampleFive [] 0 []) true []))))
  = ROUND_1_TASKS.
Proof.
  assert (H0 : (0 <= 1 # 2)%Q) by (vm_compute; discriminate).
  assert (H1 : (1 # 2 < 1)%Q) by (vm_compute; reflexivity).
  assert (Hm : 1 <= MIN_PLAYERS_TO_START sampleConfig <= MAX_PLAYERS)
    by (vm_compute; split; discriminate).
  assert (Hj : joinable 7000 "f" sampleFive).
  { split; [right; vm_compute; reflexivity | split; vm_compute; reflexivity]. }
  assert (Hl : Js.truthyStr (lobbyGroupId sampleFive) = true)
    by (vm_compute; reflexivity).
  assert (Ho : Js.truthyStr (originalGroupId sampleFive) = true)
    by (vm_compute; reflexivity).
  assert (Hsize : rosterSize sampleFive = MAX_PLAYERS - 1)
    by (vm_compute; reflexivity).
  exact (proj1 (proj1 (full_lobby_starts_at_once sampleConfig sampleEnv "agent"
                         7000 7000 (1 # 2) "f" "Fay"
                         (mkLobby (mkSession sampleFive [] 0 []) true [])
                         H0 H1 Hm Hj Hl Ho eq_refl) Hsize)).
Defined.

(** ** Cancelling *)

Lemma startGame_button_state cfg env now rand l :
  ~ In CancelButtonNotice (notices l) ->
  In CancelButtonNotice (notices (startGame cfg env now rand l)) ->
  state (game (session (startGame cfg env now rand l))) = ROUND_1_TASKS.
Proof.
  intros Hno. unfold startGame.
  destruct (assignRoles cfg now rand (game (session l))) as [e|g1] eqn:Hg1;
    [intros H; contradiction|].
  destruct (sendRoleDMs_session (withGame g1 l)) as (Hses & Hjw & Hdm).
  destruct (Js.truthyStr (lobbyGroupId g1) && groupFound env) eqn:Hfound.
  2:{ intros H. exfalso. apply Hno. apply (Hdm H). }
  apply andb_true_iff in Hfound as [Hl Hg]. intros _.
  unfold note. cbn [session joinWindow notices]. rewrite Hses.
  cbn [withGame session]. unfold mbind, Flow_bind, engine. cbn [game].
  assert (Hg2 : exists g2, startRound (generateTask env) 1 g1 = inr g2
                           /\ lobbyGroupId g2 = lobbyGroupId g1
                           /\ state g2 = ROUND_1_TASKS).
  { unfold startRound. simpl. eexists. repeat split. }
  destruct Hg2 as (g2 & -> & Hl2 & Hst). cbn [game timers delayed outbox].
  destruct (startTaskPhase_schedules env 1
              (mkSession g2 (timers (session l)) (delayed (session l))
                 (outbox (session l))))
    as (out & ->); [simpl; rewrite Hl2; exact Hl | exact Hg |].
  exact Hst.
Qed.

(** X24. A game can be cancelled only before the roles are assigned. In
    the states [LOBBY_CREATED] and [WAITING_FOR_PLAYERS] a click on the
    cancel button, by anybody, resets the session to the initial one and
    cancels every timer when the lobby group is found, and when it is not
    found it answers "Game cancelled" all the same and leaves the session as
    it is. In every other state the click is answered "Cannot cancel game"
    and changes nothing. In particular the cancel button that [startGame]
    sends can never cancel: the session [startGame] leaves after sending it
    is in the task state of round 1. *)
Theorem cancel_only_before_roles cfg env l :
  (state (game (session l)) = WAITING_FOR_PLAYERS
   \/ state (game (session l)) = LOBBY_CREATED ->
     (Js.truthyStr (lobbyGroupId (game (session l))) && groupFound env = true ->
        cancelGame cfg env l
        = mkLobby (mkSession (initialGame cfg) [] (delayed (session l))
                     (outbox (session l)))
                  false
                  (notices l ++ [CancelledByPlayerNotice] ++ [GameCancelledReply]))
     /\ (Js.truthyStr (lobbyGroupId (game (session l))) && groupFound env = false ->
           cancelGame cfg env l = note GameCancelledReply l))
  /\ (state (game (session l)) <> WAITING_FOR_PLAYERS ->
      state (game (session l)) <> LOBBY_CREATED ->
      cancelGame cfg env l = note CannotCancelReply l)
  /\ (forall env0 now rand,
        ~ In CancelButtonNotice (notices l) ->
        In CancelButtonNotice (notices (startGame cfg env0 now rand l)) ->
        cancelGame cfg env (startGame cfg env0 now rand l)
        = note CannotCancelReply (startGame cfg env0 now rand l)).
Proof.
  assert (Hno : forall l0, state (game (session l0)) <> WAITING_FOR_PLAYERS ->
                  state (game (session l0)) <> LOBBY_CREATED ->
                  cancelGame cfg env l0 = note CannotCancelReply l0).
  { intros l0 H1 H2. unfold cancelGame, getState.
    rewrite !bool_decide_eq_false_2 by assumption. reflexivity. }
  split; [|split; [apply Hno|]].
  - intros Hst.
    assert (Hb : bool_decide (getState (game (session l)) = WAITING_FOR_PLAYERS)
                 || bool_decide (getState (game (session l)) = LOBBY_CREATED) = true).
    { unfold getState. destruct Hst as [-> | ->]; reflexivity. }
    unfold cancelGame. rewrite Hb. split; intros ->.
    + unfold note, withGame, clearEveryTimer, cleanup. simpl.
      rewrite <- app_assoc. reflexivity.
    + reflexivity.
  - intros env0 now rand Hfresh Hin.
    pose proof (startGame_button_state cfg env0 now rand l Hfresh Hin) as Hst.
    apply Hno; rewrite Hst; discriminate.
Qed.

(** ** The end of the join window *)

Lemma canStartGame_later cfg now now' g :
  now <= now' -> canStartGame cfg now g = true -> canStartGame cfg now' g = true.
Proof.
  intros Hle. unfold canStartGame, deadlinePassed. intros H.
  apply andb_true_iff in H as [H Hmin]. apply andb_true_iff in H as [Hst Hor].
  rewrite Hst, Hmin, andb_true_r. simpl.
  apply orb_true_iff in Hor as [Hd|Hfull]; [|rewrite Hfull; apply orb_true_r].
  destruct (joinDeadline g) as [d|]; [|discriminate].
  apply andb_true_iff in Hd as [Hnz Hlt]. apply Z.ltb_lt in Hlt.
  rewrite Hnz. simpl. destruct (Z.ltb_spec d now'); [reflexivity | lia].
Qed.

(** X25. When the join window ends, the game starts or the lobby is
    dissolved. The callback of the join-window timer does nothing unless
    the session is waiting for players. If it is, and the join deadline has
    passed, [canStartGame] holds exactly when at least
    [MIN_PLAYERS_TO_START] players have joined; when it holds and the lobby
    group is found, round 1 starts and its task timer is pending; when it
    does not hold, "Not enough players joined" is sent, every timer is
    cancelled and the session is reset to the initial one. *)
Theorem join_window_expiry_starts_or_resets cfg env now now' rand l :
  (0 <= rand)%Q -> (rand < 1)%Q -> 1 <= MIN_PLAYERS_TO_START cfg -> now <= now' ->
  (state (game (session l)) <> WAITING_FOR_PLAYERS ->
     joinWindowExpired cfg env now now' rand l
     = mkLobby (session l) false (notices l))
  /\ (state (game (session l)) = WAITING_FOR_PLAYERS ->
        (forall d, joinDeadline (game (session l)) = Some d -> d <> 0 -> d < now ->
           canStartGame cfg now (game (session l))
           = (MIN_PLAYERS_TO_START cfg <=? rosterSize (game (session l)))%Z)
        /\ (canStartGame cfg now (game (session l)) = false ->
              joinWindowExpired cfg env now now' rand l
              = mkLobby (mkSession (initialGame cfg) [] (delayed (session l))
                           (outbox (session l)))
                        false (notices l ++ [NotEnoughPlayersNotice]))
        /\ (canStartGame cfg now (game (session l)) = true ->
              Js.truthyStr (lobbyGroupId (game (session l))) = true ->
              groupFound env = true ->
              state (game (session (joinWindowExpired cfg env now now' rand l)))
              = ROUND_1_TASKS
              /\ round (game (session (joinWindowExpired cfg env now now' rand l))) = 1
              /\ pendingTimer (TaskTimer 1)
                   (session (joinWindowExpired cfg env now now' rand l)) = true
              /\ joinWindow (joinWindowExpired cfg env now now' rand l) = false)).
Proof.
  intros H0 H1 Hmin Hle. unfold joinWindowExpired, getState. split.
  - intros Hst. rewrite bool_decide_eq_false_2 by exact Hst. reflexivity.
  - intros Hst. rewrite bool_decide_eq_true_2 by exact Hst. split; [|split].
    + intros d Hd Hnz Hlt. unfold canStartGame, deadlinePassed. rewrite Hd, Hst.
      rewrite bool_decide_eq_true_2 by reflexivity.
      destruct (Z.eqb_spec d 0); [contradiction|].
      destruct (Z.ltb_spec d now); [reflexivity | lia].
    + intros ->. unfold note, withGame, clearEveryTimer, cleanup. reflexivity.
    + intros Hc Hl Hg. rewrite Hc.
      pose proof (canStartGame_later cfg now now' _ Hle Hc) as Hc'.
      destruct (startGame_runs cfg env now' rand
                  (mkLobby (session l) false (notices l)) Hc' H0 H1 Hmin Hl Hg)
        as (g1 & g2 & out & Hg1 & Hg2 & ->).
      destruct (startRound_frame _ _ _ _ Hg2) as (Hs2 & Hrd & _).
      cbn [session game joinWindow].
      split; [exact Hs2|]. split; [exact Hrd|]. split; [|reflexivity].
      unfold pendingTimer. cbn [timers existsb].
      rewrite bool_decide_eq_true_2 by reflexivity. reflexivity.
Qed.

Lemma join_window_expiry_starts_or_resets_witness :
  state (game (session (joinWindowExpired sampleConfig sampleEnv 200000 200001 (1 # 2)
                          (mkLobby (mkSession sampleFive [] 0 []) true []))))
  = ROUND_1_TASKS.
Proof.
  assert (H0 : (0 <= 1 # 2)%Q) by (vm_compute; discriminate).
  assert (H1 : (1 # 2 < 1)%Q) by (vm_compute; reflexivity).
  assert (Hm : 1 <= MIN_PLAYERS_TO_START sampleConfig) by (vm_compute; discriminate).
  assert (Hle : 200000 <= 200001) by lia.
  assert (Hst : state sampleFive = WAITING_FOR_PLAYERS) by (vm_compute; reflexivity).
  assert (Hc : canStartGame sampleConfig 200000 sampleFive = true)
    by (vm_compute; reflexivity).
  assert (Hl : Js.truthyStr (lobbyGroupId sampleFive) = true)
    by (vm_compute; reflexivity).
  destruct (join_window_expiry_starts_or_resets sampleConfig sampleEnv 200000 200001
              (1 # 2) (mkLobby (mkSession sampleFive [] 0 []) true [])
              H0 H1 Hm Hle) as [_ H].
  destruct (H Hst) as (_ & _ & Hstart).
  exact (proj1 (Hstart Hc Hl eq_refl)).
Defined.

(** * The kill phase and its timer *)

Lemma attemptKill_frame ms now rand id ident g :
  state (fst (attemptKill ms now rand id ident g)) = state g
  /\ round (fst (attemptKill ms now rand id ident g)) = round g
  /\ lobbyGroupId (fst (attemptKill ms now rand id ident g)) = lobbyGroupId g
  /\ impostorInboxId (fst (attemptKill ms now rand id ident g)) = impostorInboxId g.
Proof. unfold attemptKill. branches; simpl; repeat split. Qed.

Lemma isKillPhase_not_last_voting s :
  isKillPhase s = true ->
  bool_decide (s = ROUND_3_VOTING) || bool_decide (s = GAME_END) = false.
Proof. destruct s; simpl; intros H; first [discriminate H | reflexivity]. Qed.

(** X26. A kill never ends the game, and the handler schedules the
    advance. After a successful kill attempt by the adversary that
    [impostorInboxId] names, [checkWinCondition] reports no winner: the
    adversary is alive and the session is in a kill state. So, with the
    lobby group found, both kill handlers announce the kill and leave one
    delayed advance pending; the button handler also cancels the kill timer
    of the current round, the text command leaves the timers as they
    are. *)
Theorem successful_kill_schedules_advance cfg env now rand sender ident s :
  rosterUnique (game s) -> impostorInboxId (game s) = Some sender ->
  killed (snd (attemptKill (members env) now rand sender ident (game s))) = true ->
  Js.truthyStr (lobbyGroupId (game s)) = true -> groupFound env = true ->
  checkWinCondition (fst (attemptKill (members env) now rand sender ident (game s)))
  = noWinner
  /\ killCommand cfg env Dm now rand sender ident s
     = (mkSession (fst (attemptKill (members env) now rand sender ident (game s)))
          (timers s) (S (delayed s))
          (outbox s
           ++ [KillReply
                 (message (snd (attemptKill (members env) now rand sender ident
                                  (game s))))]
           ++ [KillAnnouncement
                 (message (snd (attemptKill (members env) now rand sender ident
                                  (game s))))]),
        inr tt)
  /\ (forall t tp, getPlayer (game s) t = Some tp -> username tp = ident ->
        killButton cfg env Dm now rand sender (String.append "kill-" t) s
        = (mkSession (fst (attemptKill (members env) now rand sender ident (game s)))
             (List.filter
                (fun k' => negb (bool_decide (k' = KillTimer (round (game s)))))
                (timers s))
             (S (delayed s))
             (outbox s
              ++ [KillReply
                    (message (snd (attemptKill (members env) now rand sender ident
                                     (game s))))]
              ++ [KillAnnouncement
                    (message (snd (attemptKill (members env) now rand sender ident
                                     (game s))))]),
           inr tt)).
Proof.
  intros Hnd Himp Hk Hl Hg.
  destruct (attemptKill_kills _ _ _ _ _ _ Hnd Hk)
    as (imp & tgt & _ & Ha & _ & Hph & _ & _ & _ & _ & _ & _ & Hsender & _).
  destruct (attemptKill_frame (members env) now rand sender ident (game s))
    as (Hst & Hrd & Hlob & Hi).
  set (r := attemptKill (members env) now rand sender ident (game s)) in *.
  assert (Hwin : checkWinCondition (fst r) = noWinner).
  { unfold checkWinCondition. rewrite Hi, Himp. simpl. rewrite Hsender. simpl.
    rewrite Ha. simpl. rewrite Hst, (isKillPhase_not_last_voting _ Hph). simpl.
    destruct (round (fst r) =? MAX_ROUNDS)%Z; reflexivity. }
  assert (Hafter : forall clear,
            afterKill cfg env clear (message (snd r))
              (mkSession (fst r) (timers s) (delayed s)
                 (outbox s ++ [KillReply (message (snd r))]))
            = (mkSession (fst r)
                 (if clear
                  then List.filter
                         (fun k' => negb (bool_decide (k' = KillTimer (round (game s)))))
                         (timers s)
                  else timers s)
                 (S (delayed s))
                 (outbox s ++ [KillReply (message (snd r))]
                  ++ [KillAnnouncement (message (snd r))]),
               inr tt)).
  { intros clear. unfold afterKill, withLobbyGroup.
    unfold mbind, Flow_bind, read, send, clearPhaseTimer, setTimeoutAdvance, ret,
      mret, Flow_ret.
    cbn [game timers delayed outbox]. rewrite Hlob, Hl, Hg. cbn [negb].
    cbn [game timers delayed outbox]. rewrite Hwin. unfold noWinner.
    cbn [gameEnded].
    destruct clear; cbn [game timers delayed outbox]; rewrite ?Hrd;
      rewrite <- app_assoc; reflexivity. }
  split; [exact Hwin|]. split.
  - unfold killCommand. cbn [isDM negb].
    unfold mbind at 1, Flow_bind at 1, attemptKillFlow. fold r.
    destruct r as [g' res] eqn:Hr. cbn [fst snd] in *. rewrite Hk.
    apply (Hafter false).
  - intros t tp Ht <-. unfold killButton. cbn [isDM negb].
    unfold mbind at 1, Flow_bind at 1, read.
    change (getPlayer (game s) (Js.dropPrefix "kill-" (String.append "kill-" t)))
      with (getPlayer (game s) t).
    rewrite Ht. unfold mbind at 1, Flow_bind at 1, attemptKillFlow. fold r.
    destruct r as [g' res] eqn:Hr. cbn [fst snd] in *. rewrite Hk.
    apply (Hafter true).
Qed.

Lemma successful_kill_schedules_advance_witness :
  checkWinCondition (fst (attemptKill (members sampleEnv) 300000 0 "d" "Fay"
                            sampleKillPhase))
  = noWinner.
Proof.
  assert (Hnd : rosterUnique sampleKillPhase)
    by (apply (bool_decide_unpack _); vm_compute; exact I).
  assert (Hi : impostorInboxId sampleKillPhase = Some "d") by (vm_compute; reflexivity).
  assert (Hk : killed (snd (attemptKill (members sampleEnv) 300000 0 "d" "Fay"
                              sampleKillPhase)) = true)
    by (vm_compute; reflexivity).
  assert (Hl : Js.truthyStr (lobbyGroupId sampleKillPhase) = true)
    by (vm_compute; reflexivity).
  exact (proj1 (successful_kill_schedules_advance sampleConfig sampleEnv 300000 0%Q
                  "d" "Fay" (mkSession sampleKillPhase [KillTimer 1] 0 [])
                  Hnd Hi Hk Hl eq_refl)).
Defined.

Lemma startDiscussionPhase_schedules env r s :
  Js.truthyStr (lobbyGroupId (game s)) = true -> groupFound env = true ->
  startDiscussionPhase env r s
  = (mkSession (game s)
       (DiscussionTimer r
        :: List.filter (fun k' => negb (bool_decide (k' = DiscussionTimer r)))
             (timers s))
       (delayed s) (outbox s ++ [DiscussionNotice]),
     inr tt).
Proof.
  intros Hl Hg. unfold startDiscussionPhase, withLobbyGroup.
  unfold mbind, Flow_bind, read, send, setPhaseTimer. rewrite Hl, Hg. reflexivity.
Qed.

(** X27. Only in a kill phase does the kill timer advance the session.
    The callback of the kill timer checks the state when it runs: outside a
    kill state it writes nothing, schedules nothing and sends nothing; in
    the kill state of a round, with the lobby group found, it moves the
    session to the discussion state of that round, leaves the roster as it
    is and schedules the discussion timer. *)
Theorem kill_timer_checks_the_phase cfg env r s :
  (isKillPhase (state (game s)) = false -> fire cfg env (KillTimer r) s = (s, inr tt))
  /\ (forall k, 1 <= k <= MAX_ROUNDS ->
        state (game s) = getStateForRoundPhase k KILL ->
        Js.truthyStr (lobbyGroupId (game s)) = true -> groupFound env = true ->
        fire cfg env (KillTimer r) s
        = (mkSession (withState (getStateForRoundPhase k DISCUSSION) (game s))
             (DiscussionTimer r
              :: List.filter (fun k' => negb (bool_decide (k' = DiscussionTimer r)))
                   (timers s))
             (delayed s) (outbox s ++ [DiscussionNotice]),
           inr tt)).
Proof.
  split.
  - intros H. unfold fire, mbind, Flow_bind, read, getState. simpl. rewrite H.
    reflexivity.
  - unfold MAX_ROUNDS. intros k Hk Hst Hl Hg.
    assert (Hc : k = 1 \/ k = 2 \/ k = 3) by lia.
    assert (Hadv : advancePhase (generateTask env) (game s)
                   = inr (withState (getStateForRoundPhase k DISCUSSION) (game s))
                   /\ isKillPhase (state (game s)) = true).
    { unfold advancePhase. rewrite Hst.
      destruct Hc as [->|[->| ->]]; split; reflexivity. }
    destruct Hadv as [Hadv Hph].
    unfold fire. unfold mbind at 1, Flow_bind at 1, read, getState.
    rewrite Hph. unfold mbind, Flow_bind, engine. rewrite Hadv.
    exact (startDiscussionPhase_schedules env r
             (mkSession (withState (getStateForRoundPhase k DISCUSSION) (game s))
                (timers s) (delayed s) (outbox s)) Hl Hg).
Qed.

(** * The sessions the operations reach *)

(** X28. Every session the operations reach from the initial one, with
    inbox ids that are not the empty string, is well formed: no two roster
    entries have the same id, no entry has the empty id, every recorded vote
    names a registered player under a non-empty id, and as long as players
    can still join no vote is recorded. *)
Theorem reachable_sessions_are_well_formed cfg ops :
  Forall opWellFormed ops ->
  NoDup (ids (players (runAll cfg ops (initialGame cfg))))
  /\ ~ In "" (ids (players (runAll cfg ops (initialGame cfg))))
  /\ (forall p t, In p (players (runAll cfg ops (initialGame cfg))) ->
        voteTarget p = Some t ->
        t <> "" /\ In t (ids (players (runAll cfg ops (initialGame cfg)))))
  /\ (inLobby (state (runAll cfg ops (initialGame cfg))) ->
      forall p, In p (players (runAll cfg ops (initialGame cfg))) ->
                voteTarget p = None).
Proof.
  intros Hops.
  destruct (runAll_invariant cfg ops _ Hops (invariant_initial cfg))
    as (Hnd & Hne & Hin & Hlobby).
  split; [exact Hnd|]. split; [exact Hne|]. split; [|exact Hlobby].
  intros p t Hp Ht. specialize (Hin p t Hp Ht). split; [|exact Hin].
  intros ->. contradiction.
Qed.

Lemma reachable_sessions_are_well_formed_witness :
  NoDup (ids (players
                (runAll sampleConfig
                   [ OpCreateLobby 1000 1000 "lobby" "origin";
                     OpAddPlayer "agent" 2000 "a" "Ann";
                     OpAddPlayer "agent" 3000 "b" "Bob";
                     OpAssignRoles 200000 (1 # 2); OpStartRound sampleTask 1;
                     OpCastVote "a" "Bob" ]
                   (initialGame sampleConfig)))).
Proof.
  assert (Hops : Forall opWellFormed
                   [ OpCreateLobby 1000 1000 "lobby" "origin";
                     OpAddPlayer "agent" 2000 "a" "Ann";
                     OpAddPlayer "agent" 3000 "b" "Bob";
                     OpAssignRoles 200000 (1 # 2); OpStartRound sampleTask 1;
                     OpCastVote "a" "Bob" ])
    by (repeat constructor; discriminate).
  exact (proj1 (reachable_sessions_are_well_formed sampleConfig _ Hops)).
Defined.
